(** * Spine Items: a shallow embedding of the item utilities, the list
    models, the Merger executable item and the Tool specification editor.

    Every definition of Part I follows one function of the Python sources
    and keeps its name.  What the functions ask of the host application,
    the workflow engine, Qt or the operating system is given by explicit
    environment records; what they do to them is recorded in event
    traces. *)

From stdpp Require Import base option list strings gmap.
From Stdlib Require Import ZArith Lia Ascii DecimalString DecimalPos.

Local Open Scope string_scope.
Local Open Scope list_scope.

(* ===================================================================== *)
(** * Part I: the embedding                                               *)
(* ===================================================================== *)

(** ** Python helpers shared by the modules *)

Module Py.

(** Truthiness of a [str]: the empty string is falsy. *)
Definition truthy_str (s : string) : bool :=
  match s with
  | "" => false
  | _ => true
  end.

(** [str.startswith]. *)
Definition startswith (s p : string) : bool := String.prefix p s.

(** [str.rfind(c)], as [None] where Python answers [-1]. *)
Fixpoint rfind (c : ascii) (s : string) : option nat :=
  match s with
  | "" => None
  | String a s' =>
      match rfind c s' with
      | Some i => Some (S i)
      | None => if decide (a = c) then Some 0 else None
      end
  end.

(** [PurePath.suffix] applied to a file name: the part from the last
    dot on, when that dot is neither the first nor the last character. *)
Definition suffix (name : string) : string :=
  match rfind "."%char name with
  | Some i =>
      if bool_decide (0 < i ∧ i < String.length name - 1)%nat
      then String.substring i (String.length name - i) name
      else ""
  | None => ""
  end.

(** Exceptions the embedded functions raise. *)
Inductive exn :=
| RuntimeError (msg : string)
| IndexError
| TypeError
| ValueError
| AttributeError.

(** A computation that returns normally or raises. *)
Inductive outcome (A : Type) :=
| Return (a : A)
| Raise (e : exn).
Arguments Return {A} a.
Arguments Raise {A} e.

#[export] Instance outcome_ret : MRet outcome := λ A a, Return a.
#[export] Instance outcome_bind : MBind outcome :=
  λ A B f m, match m with Return a => f a | Raise e => Raise e end.
#[export] Instance outcome_fmap : FMap outcome :=
  λ A B f m, match m with Return a => Return (f a) | Raise e => Raise e end.

(** [l[k]] for a Python list: a negative index counts from the end, an
    index out of range raises [IndexError]. *)
Definition index {A} (l : list A) (k : Z) : outcome A :=
  let n := Z.of_nat (length l) in
  let k' := if bool_decide (k < 0)%Z then (k + n)%Z else k in
  if bool_decide (0 ≤ k' < n)%Z
  then match l !! Z.to_nat k' with
       | Some x => Return x
       | None => Raise IndexError
       end
  else Raise IndexError.

(** The position a slice bound [row] denotes in a list of length [n]:
    negative bounds count from the end, and the outcome is clipped to
    [0..n]. *)
Definition slice_bound (n : nat) (row : Z) : nat :=
  let r := if bool_decide (row < 0)%Z then (row + Z.of_nat n)%Z else row in
  Z.to_nat (Z.max 0 (Z.min r (Z.of_nat n))).

(** [l[:row]] and [l[row:]]. *)
Definition slice_to {A} (l : list A) (row : Z) : list A :=
  take (slice_bound (length l) row) l.
Definition slice_from {A} (l : list A) (row : Z) : list A :=
  drop (slice_bound (length l) row) l.

(** [enumerate(l, start=k)]. *)
Fixpoint enumerate_from {A} (k : Z) (l : list A) : list (Z * A) :=
  match l with
  | [] => []
  | x :: l' => (k, x) :: enumerate_from (k + 1) l'
  end.
Definition enumerate {A} (l : list A) : list (Z * A) := enumerate_from 0 l.

(** [str(k)] for an [int]: its decimal digits, after a minus sign when it
    is negative. *)
Definition str (k : Z) : string := NilZero.string_of_int (Z.to_int k).

(** [s.split(sep)]: the pieces between the occurrences of the separator,
    found from the left and not overlapping; [skip] counts the
    characters of a separator still to pass.  An empty separator raises
    [ValueError]. *)
Fixpoint split_go (sep : string) (skip : nat) (s : string) : list string :=
  match s with
  | "" => [""]
  | String c s' =>
      match skip with
      | S skip => split_go sep skip s'
      | O =>
          if String.prefix sep s
          then "" :: split_go sep (String.length sep - 1) s'
          else match split_go sep 0 s' with
               | piece :: pieces => String c piece :: pieces
               | [] => [String c ""]
               end
      end
  end.
Definition split (s sep : string) : outcome (list string) :=
  if decide (sep = "") then Raise ValueError else Return (split_go sep 0 s).

(** The white space that [int] passes over: tab, line feed, vertical
    tab, form feed, carriage return and space. *)
Definition is_space (c : ascii) : bool :=
  let n := nat_of_ascii c in
  bool_decide (9 ≤ n ∧ n ≤ 13)%nat || bool_decide (n = 32)%nat.

Fixpoint lstrip (s : string) : string :=
  match s with
  | "" => ""
  | String c s' => if is_space c then lstrip s' else s
  end.

Fixpoint rstrip (s : string) : string :=
  match s with
  | "" => ""
  | String c s' =>
      match rstrip s' with
      | "" => if is_space c then "" else String c ""
      | t => String c t
      end
  end.

(** The value of a decimal digit. *)
Definition digit (c : ascii) : option Z :=
  let n := Z.of_nat (nat_of_ascii c) in
  if bool_decide (48 ≤ n ≤ 57)%Z then Some (n - 48)%Z else None.

(** The value of a run of decimal digits in which single underscores
    may stand between two digits; [after_digit] says that the character
    before was a digit. *)
Fixpoint digits (acc : Z) (after_digit : bool) (s : string) : option Z :=
  match s with
  | "" => if after_digit then Some acc else None
  | String c s' =>
      if decide (c = "_"%char)
      then if after_digit then digits acc false s' else None
      else match digit c with
           | Some d => digits (10 * acc + d) true s'
           | None => None
           end
  end.

(** [int(x)] for a [str] of ASCII characters: white space around an
    optional sign and decimal digits; anything else raises
    [ValueError]. *)
Definition int (x : string) : outcome Z :=
  let s := rstrip (lstrip x) in
  let '(negative, body) :=
    match s with
    | String "-" body => (true, body)
    | String "+" body => (false, body)
    | _ => (false, s)
    end in
  match digits 0 false body with
  | Some n => Return (if negative : bool then (- n)%Z else n)
  | None => Raise ValueError
  end.

(** [str.lower] on ASCII letters. *)
Definition lower_ascii (c : ascii) : ascii :=
  let n := nat_of_ascii c in
  if bool_decide (65 ≤ n ∧ n ≤ 90)%nat then ascii_of_nat (n + 32) else c.
Fixpoint lower (s : string) : string :=
  match s with
  | "" => ""
  | String c s' => String (lower_ascii c) (lower s')
  end.

(** [s.rstrip("/")] *)
Fixpoint rstrip_slash (s : string) : string :=
  match s with
  | "" => ""
  | String c s' =>
      match rstrip_slash s' with
      | "" => if decide (c = "/"%char) then "" else String c ""
      | t => String c t
      end
  end.

(** [os.path.basename], POSIX flavour: what follows the last slash. *)
Definition basename (p : string) : string :=
  match rfind "/"%char p with
  | Some i => String.substring (S i) (String.length p - S i) p
  | None => p
  end.

(** [os.path.dirname], POSIX flavour: what precedes the last slash,
    without trailing slashes unless it consists of slashes only. *)
Definition dirname (p : string) : string :=
  match rfind "/"%char p with
  | Some i =>
      let head := String.substring 0 (S i) p in
      match rstrip_slash head with
      | "" => head
      | stripped => stripped
      end
  | None => ""
  end.

(** [os.path.join(a, b)], POSIX flavour. *)
Definition join (a b : string) : string :=
  if startswith b "/" then b
  else if bool_decide (a = "") || bool_decide (String.substring (String.length a - 1) 1 a = "/")
       then a +:+ b
       else a +:+ "/" +:+ b.

End Py.

(** ** spine_items/utils.py *)

Module Utils.

Definition EXPORTED_PATHS_FILE_NAME : string := ".exported.json".
Definition EXPORTER_EXECUTION_MANIFEST_FILE_PREFIX : string := ".export-manifest".

Definition database_label (provider_name : string) : string :=
  "db_url@" +:+ provider_name.

(** The [Database] dataclass; both fields default to the empty string. *)
Record Database := mkDatabase {
  url : string;
  output_file_name : string;
}.

(** [Database()] *)
Definition Database_default : Database := mkDatabase "" "".

Definition to_dict (self : Database) : gmap string string :=
  {[ "output_file_name" := output_file_name self ]}.

(** [database_dict["output_file_name"]] raises [KeyError] when the key is
    absent; that is the [None] outcome. *)
Definition from_dict (database_dict : gmap string string) : option Database :=
  name ← database_dict !! "output_file_name";
  Some (mkDatabase (url Database_default) name).

(** Resources of the engine's resource-passing contract that this module
    constructs: [transient_file_resource(provider, label)] and
    [file_resource_in_pack(provider, label, path)]. *)
Inductive Resource :=
| transient_file_resource (provider_name label : string)
| file_resource_in_pack (provider_name label path : string).

(** What the functions read from the operating system. *)
Record OsEnv := mkOsEnv {
  (** names of the entries of the data directory, in [iterdir()] order *)
  iterdir : list string;
  (** [json.load] of the entry with the given name: the items of the
      decoded object, in order *)
  json_load : string → list (string * list string);
  (** [Path(f).exists()] *)
  path_exists : string → bool;
  (** [str(Path(data_dir, f))] *)
  path_str : string → string → string;
}.

(** The test that [collect_execution_manifests] applies to a directory
    entry. *)
Definition is_manifest (name : string) : bool :=
  Py.startswith name EXPORTER_EXECUTION_MANIFEST_FILE_PREFIX
  && bool_decide (Py.suffix name = ".json").

(** [manifests.setdefault(out_file_name, list()).extend(paths)], creating
    the dictionary when it is still [None]. *)
Definition extend_manifest (manifests : option (gmap string (list string)))
    (item : string * list string) : option (gmap string (list string)) :=
  let m := default ∅ manifests in
  Some (<[ item.1 := default [] (m !! item.1) ++ item.2 ]> m).

(** The loop over the manifest files.  The [relative_paths] list that the
    source builds for every entry is never read afterwards (the
    dictionary is extended with [paths]), so it leaves no trace here. *)
Definition collect_execution_manifests (os : OsEnv)
    : option (gmap string (list string)) :=
  foldl (λ manifests name,
           if is_manifest name
           then foldl extend_manifest manifests (json_load os name)
           else manifests)
        None (iterdir os).

(** One iteration of the loop over [databases] when a cache exists.  The
    source collects the existing files in a [set]; its iteration order
    is represented by the order of first occurrence. *)
Definition add_cached (os : OsEnv) (item_name : string)
    (exported_files : gmap string (list string))
    (resources : list Resource) (db : Database) : list Resource :=
  if Py.truthy_str (output_file_name db) then
    let files :=
      remove_dups
        (filter (λ f, path_exists os f = true)
                (default [] (exported_files !! output_file_name db))) in
    match files with
    | [] => resources ++ [transient_file_resource item_name (output_file_name db)]
    | _ => (λ f, file_resource_in_pack item_name (output_file_name db) f) <$> files
    end
  else resources.

Definition add_transient (item_name : string)
    (resources : list Resource) (db : Database) : list Resource :=
  if Py.truthy_str (output_file_name db)
  then resources ++ [transient_file_resource item_name (output_file_name db)]
  else resources.

Definition exported_files_as_resources (os : OsEnv) (item_name : string)
    (exported_files : option (gmap string (list string)))
    (data_dir : string) (databases : list Database)
    : list Resource * option (gmap string (list string)) :=
  let exported_files : option (gmap string (list string)) :=
    match collect_execution_manifests os with
    | Some _ =>
        let names := output_file_name <$> databases in
        let manifests :=
          filter (λ kv, kv.1 ∈ names)
                 (default ∅ (collect_execution_manifests os)) in
        Some ((λ files : list string, path_str os data_dir <$> files) <$> manifests)
    | None => exported_files
    end in
  let resources :=
    match exported_files with
    | Some cache => foldl (add_cached os item_name cache) [] databases
    | None => foldl (add_transient item_name) [] databases
    end in
  (resources, exported_files).

End Utils.

(** ** spine_items/models.py *)

Module Models.
Import Py.

(** A Python value that is a [str] or [None]. *)
Definition optstr := option string.

(** Truthiness of a [str]-or-[None] value. *)
Definition truthy (v : optstr) : bool :=
  match v with
  | Some s => truthy_str s
  | None => false
  end.

(** The fields of the engine's [ProjectItemResource] that the models
    read.  [metadata_label] is [resource.metadata.get("label")]. *)
Record ProjectItemResource := mkResource {
  type_ : string;
  url : optstr;
  path : string;
  provider_name : string;
  metadata_label : optstr;
}.

Definition _file_label (resource : ProjectItemResource) : outcome optstr :=
  if decide (type_ resource = "file") then Return (Some (path resource))
  else if decide (type_ resource = "database") then Return (url resource)
  else if decide (type_ resource ∈ ["transient_file"; "file_pattern"]) then
    match metadata_label resource with
    | None =>
        match url resource with
        | None => Raise (RuntimeError
                    "ProjectItemResource is missing a url and metadata 'label'.")
        | Some _ => Return (Some (path resource))
        end
    | Some label => Return (Some label)
    end
  else Raise (RuntimeError ("Unknown resource type '" +:+ type_ resource +:+ "'")).

(** [FileListItem]; [item_path] and [item_provider_name] are its [path]
    and [provider_name]. *)
Record FileListItem := mkFileListItem {
  label : optstr;
  item_path : string;
  selected : bool;
  item_provider_name : string;
  is_pattern : bool;
}.

(** [FileListItem.from_resource]; [selected] takes its default, [True]. *)
Definition from_resource (resource : ProjectItemResource) : outcome FileListItem :=
  '(label, is_pattern) ←
    (if decide (type_ resource = "file") then Return (Some (path resource), false)
     else if decide (type_ resource = "database") then Return (url resource, false)
     else if decide (type_ resource = "transient_file") then
       label ← _file_label resource; Return (label, false)
     else if decide (type_ resource = "file_pattern") then
       label ← _file_label resource; Return (label, true)
     else Raise (RuntimeError
                   ("Unknown resource type '" +:+ type_ resource +:+ "'")));
  Return (mkFileListItem label
        (if truthy (url resource) then path resource else "")
        true (provider_name resource) is_pattern).

Definition exists_ (self : FileListItem) : bool := truthy_str (item_path self).

(** [FileListItem.update]: everything but the label and the selection is
    refreshed from the resource. *)
Definition item_update (self : FileListItem) (resource : ProjectItemResource)
    : FileListItem :=
  mkFileListItem (label self)
    (if truthy (url resource) then path resource else "")
    (selected self) (provider_name resource)
    (bool_decide (type_ resource = "file_pattern")).

(** The model.  File items are objects that the model, its dictionaries
    and its lists share by reference: [objects] is the store of the items
    and [_files] lists their addresses (positions in the store). *)
Record FileListModel := mkFileListModel {
  objects : list FileListItem;
  _files : list nat;
  _invalid_resource_types : list string;
  _header_label : string;
}.

(** [FileListModel(invalid_resource_types, header_label)] *)
Definition FileListModel_init (invalid_resource_types : list string)
    (header_label : string) : FileListModel :=
  mkFileListModel [] [] invalid_resource_types header_label.

(** The [files] property, with the references followed. *)
Definition files (self : FileListModel) : list FileListItem :=
  omap (λ a, objects self !! a) (_files self).

Definition labels (self : FileListModel) : list optstr :=
  label <$> files self.

(** [find_file]: the first item with the label, or [RuntimeError]. *)
Definition find_file (self : FileListModel) (l : optstr) : outcome FileListItem :=
  match filter (λ item, label item = l) (files self) with
  | item :: _ => Return item
  | [] => Raise (RuntimeError
            ("Could not find file with label '" +:+ default "None" l +:+ "'"))
  end.

(** [{item.label: item for item in self._files}]: a later item replaces an
    earlier one with the same label. *)
Definition items_by_label (self : FileListModel) : gmap optstr nat :=
  foldl (λ items a,
           match objects self !! a with
           | Some item => <[ label item := a ]> items
           | None => items
           end)
        ∅ (_files self).

(** The state of the loop of [update]: the store and the two lists of
    references. *)
Record UpdateLoop := mkUpdateLoop {
  store : list FileListItem;
  updated : list nat;
  new : list nat;
}.

(** One iteration of the loop of [update]. *)
Definition update_step (invalid : list string) (items : gmap optstr nat)
    (st : UpdateLoop) (resource : ProjectItemResource) : outcome UpdateLoop :=
  if decide (type_ resource ∈ invalid) then Return st
  else
    l ← _file_label resource;
    match items !! l with
    | Some a =>
        let store' :=
          match store st !! a with
          | Some item => <[ a := item_update item resource ]> (store st)
          | None => store st
          end in
        Return (mkUpdateLoop store' (updated st ++ [a]) (new st))
    | None =>
        item ← from_resource resource;
        Return (mkUpdateLoop (store st ++ [item]) (updated st)
              (new st ++ [length (store st)]))
    end.

(** The loop of [update]; it stops at the first resource that raises. *)
Fixpoint update_loop (invalid : list string) (items : gmap optstr nat)
    (st : UpdateLoop) (resources : list ProjectItemResource) : outcome UpdateLoop :=
  match resources with
  | [] => Return st
  | resource :: rest =>
      st' ← update_step invalid items st resource;
      update_loop invalid items st' rest
  end.

(** [FileListModel.update].  The call raises when the label of a resource
    cannot be picked; [_files] is assigned only when the loop has run to
    its end. *)
Definition update (self : FileListModel) (resources : list ProjectItemResource)
    : outcome FileListModel :=
  st ← update_loop (_invalid_resource_types self) (items_by_label self)
         (mkUpdateLoop (objects self) [] []) resources;
  Return (mkFileListModel (store st) (updated st ++ new st)
        (_invalid_resource_types self) (_header_label self)).

(** [set_initial_state]: one item for every pair of the dictionary, in
    its order. *)
Definition set_initial_state (self : FileListModel)
    (selected_items : list (string * bool)) : FileListModel :=
  foldl (λ m p,
           mkFileListModel
             (objects m ++ [mkFileListItem (Some p.1) p.1 p.2 "" false])
             (_files m ++ [length (objects m)])
             (_invalid_resource_types m) (_header_label m))
        self selected_items.

(** *** CommandLineArgsModel *)

(** A value that [json.loads] returns; a number is kept as the text
    that denotes it. *)
#[warnings="-register-all"] Inductive JsonValue :=
| JNull
| JBool (b : bool)
| JNumber (text : string)
| JString (s : string)
| JArray (l : list JsonValue)
| JObject (l : list (string * JsonValue)).

(** What the models take from the [json] module: [json.dumps] of a tuple
    of two [str], and [json.loads], which raises on a text that is no
    JSON. *)
Record Json := mkJson {
  dumps : string * string → string;
  loads : string → outcome JsonValue;
}.

(** [head, contents = value]: unpacking a value into two.  A list, a
    [str] and the keys of a [dict] can be unpacked when they have two
    elements ([ValueError] otherwise); [None], a [bool] and a number
    cannot ([TypeError]). *)
Definition unpack (value : JsonValue) : outcome (JsonValue * JsonValue) :=
  match value with
  | JArray [head; contents] => Return (head, contents)
  | JString (String a (String b "")) =>
      Return (JString (String a ""), JString (String b ""))
  | JObject [(head, _); (contents, _)] => Return (JString head, JString contents)
  | JArray _ | JString _ | JObject _ => Raise ValueError
  | JNull | JBool _ | JNumber _ => Raise TypeError
  end.

(** [value == s] for a [str] [s]. *)
Definition equals_str (value : JsonValue) (s : string) : bool :=
  match value with
  | JString v => bool_decide (v = s)
  | _ => false
  end.

(** [contents.split(";;")]: only a [str] has the method. *)
Definition split_contents (contents : JsonValue) : outcome (list string) :=
  match contents with
  | JString c => split c ";;"
  | _ => Raise AttributeError
  end.

(** [mimeData]: the text of the mime data for the rows of the dragged
    indexes. *)
Definition mimeData (json : Json) (index_rows : list Z) : string :=
  dumps json ("rows", String.concat ";;" (str <$> index_rows)).

Definition append_arg (_args : list string) (arg : string) : list string :=
  _args ++ [arg].

(** [dropMimeData], given the text of the data: the lists emitted
    through [args_updated], and the returned flag. *)
Definition dropMimeData (json : Json) (_args : list string) (text : string)
    (row : Z) : outcome (list (list string) * bool) :=
  value ← loads json text;
  '(head, contents) ← unpack value;
  if equals_str head "rows" then
    pieces ← split_contents contents;
    rows ← mapM int pieces;
    let head :=
      (filter (λ p, p.1 ∉ rows) (enumerate (slice_to _args row))).*2 in
    body ← mapM (index _args) rows;
    let tail :=
      (filter (λ p, (p.1 + row)%Z ∉ rows) (enumerate (slice_from _args row))).*2 in
    let new_args := head ++ body ++ tail in
    Return ([new_args], true)
  else if equals_str head "paths" then
    pieces ← split_contents contents;
    let new_args := slice_to _args row ++ pieces ++ slice_from _args row in
    Return ([new_args], true)
  else Return ([], false).

End Models.

(** ** spine_items/merger/executable_item.py *)

Module Merger.
Import Py.

(** The two members of the engine's [ItemExecutionFinishState] that the
    item returns. *)
Inductive ItemExecutionFinishState := SUCCESS | FAILURE.

(** The fields of a resource that the item reads. *)
Record ProjectItemResource := mkResource {
  type_ : string;
  url : string;
}.

(** A [ReturningProcess] with target [do_work]; the arguments are
    [cancel_on_error], [logs_dir] and the two lists of server URLs (the
    logger is left out). *)
Record ReturningProcess := mkProcess {
  cancel_on_error : bool;
  logs_dir : string;
  from_server_urls : list string;
  to_server_urls : list string;
}.

(** The item: the name and the logs directory kept by the base class, the
    settings of the constructor and the process reference. *)
Record ExecutableItem := mkItem {
  _name : string;
  _logs_dir : string;
  _cancel_on_error : bool;
  _purge_before_writing : bool;
  _process : option ReturningProcess;
}.

(** What the item observably does to its surroundings. *)
Inductive Event :=
| SuperExecute
| SuperStopExecution
| Entered (server_url : string)
| Exited (server_url : string)
| Started (p : ReturningProcess)
| Completed (p : ReturningProcess) (return_value : list bool)
| Terminated (p : ReturningProcess).

(** The answers of the surroundings. *)
Record Engine := mkEngine {
  (** truthiness of what [super().execute(...)] returns *)
  super_execute : bool;
  (** entering the context of [resource.open()]: the server URL, or the
      exception it raises *)
  open_resource : ProjectItemResource → outcome string;
  (** the tuple [run_until_complete()] returns for a process, as the
      truthiness of its elements *)
  run_until_complete : ReturningProcess → list bool;
}.

(** The item, the contexts held by the [ExitStack] of the running [with]
    block (innermost first) and the events so far. *)
Record World := mkWorld {
  item : ExecutableItem;
  exit_stack : list string;
  trace : list Event;
}.

(** Computations over the world that return or raise. *)
Definition M (A : Type) : Type := World → outcome A * World.

#[export] Instance M_ret : MRet M := λ A a w, (Return a, w).
#[export] Instance M_bind : MBind M :=
  λ A B f m w,
    match m w with
    | (Return a, w') => f a w'
    | (Raise e, w') => (Raise e, w')
    end.

(** The primitive steps: record an event, read the item, assign
    [self._process], and pass on a result that may be an exception. *)
Definition emit (e : Event) : M unit :=
  λ w, (Return (), mkWorld (item w) (exit_stack w) (trace w ++ [e])).

Definition get_item : M ExecutableItem := λ w, (Return (item w), w).

Definition set_process (p : option ReturningProcess) : M unit :=
  λ w, (Return (),
        mkWorld (mkItem (_name (item w)) (_logs_dir (item w))
                   (_cancel_on_error (item w)) (_purge_before_writing (item w)) p)
                (exit_stack w) (trace w)).

Definition lift {A} (r : outcome A) : M A := λ w, (r, w).

(** The [ExitStack] takes a context it has entered. *)
Definition push_context (server_url : string) : M unit :=
  λ w, (Return (),
        mkWorld (item w) (server_url :: exit_stack w)
                (trace w ++ [Entered server_url])).

(** [stack.enter_context(resource.open())] *)
Definition enter_context (engine : Engine) (resource : ProjectItemResource)
    : M string :=
  server_url ← lift (open_resource engine resource);
  push_context server_url;;
  mret server_url.

(** Leaving the [with] block: the contexts are exited, innermost first. *)
Definition close : M unit :=
  λ w, (Return (), mkWorld (item w) [] (trace w ++ (Exited <$> exit_stack w))).

(** [with ExitStack() as stack: body]: the stack is closed when the body
    returns and when it raises. *)
Definition with_ExitStack {A} (body : M A) : M A :=
  λ w,
    let '(r, w1) := body (mkWorld (item w) [] (trace w)) in
    let '(_, w2) := close w1 in
    (r, mkWorld (item w2) (exit_stack w) (trace w2)).

(** [r.type_ == "database"] *)
Definition is_database (r : ProjectItemResource) : Prop := type_ r = "database".

(** [ExecutableItem.execute]. *)
Definition execute (engine : Engine)
    (forward_resources backward_resources : list ProjectItemResource)
    : M ItemExecutionFinishState :=
  emit SuperExecute;;
  if negb (super_execute engine) then mret FAILURE
  else
    let from_resources := filter is_database forward_resources in
    let to_resources := filter is_database backward_resources in
    if bool_decide (from_resources = [] ∨ to_resources = []) then mret SUCCESS
    else
      with_ExitStack (
        from_server_urls ← mapM (enter_context engine) from_resources;
        to_server_urls ← mapM (enter_context engine) to_resources;
        self ← get_item;
        let p := mkProcess (_cancel_on_error self) (_logs_dir self)
                   from_server_urls to_server_urls in
        set_process (Some p);;
        emit (Started p);;
        let return_value := run_until_complete engine p in
        emit (Completed p return_value);;
        set_process None;;
        first ← lift (index return_value 0);
        if first : bool then mret SUCCESS else mret FAILURE).

(** [ExecutableItem.stop_execution]. *)
Definition stop_execution : M unit :=
  emit SuperStopExecution;;
  self ← get_item;
  match _process self with
  | Some p => emit (Terminated p);; set_process None
  | None => mret ()
  end.

End Merger.

(** ** spine_items/tool/widgets/tool_specification_editor_window.py *)

Module ToolEditor.
Import Py.

(** [spec_dict["execution_settings"]]. *)
Inductive ExecutionSettings :=
| PythonSettings (use_jupyter_console : bool)
    (kernel_spec_name env executable : string)
| ExecutableSettings (cmd shell : string).

(** The keys of [spec_dict] that the editor reads and writes; [None] is
    an absent key. *)
Record SpecDict := mkSpecDict {
  tooltype : option string;
  cmdline_args : option (list string);
  includes : option (list string);
  inputfiles : option (list string);
  inputfiles_opt : option (list string);
  outputfiles : option (list string);
  execution_settings : option ExecutionSettings;
}.

(** The bound methods that the editor hands to its undo commands. *)
Inductive Callback :=
| cb_set_tooltype
| cb_set_cmdline_args
| cb_set_program_files
| cb_populate_inputfiles_list
| cb_populate_inputfiles_opt_list
| cb_populate_outputfiles_list.

(** The values the commands carry: a [str] or a list of [str]. *)
Inductive Value :=
| VStr (s : string)
| VList (l : list string).

(** Modelled from the spec: the host application's
    [ChangeSpecPropertyCommand(callback, new_value, old_value, cmd_name)],
    the "reversible property-change object" of the specification editors.
    It stores the setter and both values. *)
Record ChangeSpecPropertyCommand := mkCommand {
  callback : Callback;
  new_value : Value;
  old_value : Value;
  cmd_name : string;
}.

(** Modelled from the spec: the "shared history stack" of the editor, a
    Qt undo stack: the commands pushed so far and the number of them that
    are currently applied. *)
Record QUndoStack := mkUndoStack {
  commands : list ChangeSpecPropertyCommand;
  stack_index : nat;
}.

(** The document of a program file opened in the editor. *)
Record QTextDocument := mkDocument {
  isModified : bool;
  toPlainText : string;
}.

(** What the editor shows or writes. *)
Inductive Effect :=
| show_error (msg : string)
| _show_status_bar_msg (msg : string)
| file_written (file_path text : string).

(** The editor window: the specification being edited, the widgets'
    state that the handlers read, the undo stack, the open documents and
    what has been shown or written so far.  The tree views show
    [spec_dict] and hold no state of their own here. *)
Record ToolSpecificationEditorWindow := mkEditor {
  spec_dict : SpecDict;
  includes_main_path : option string;
  (** the text of [_ui.lineEdit_args] *)
  lineEdit_args : string;
  (** the current index of [_ui.comboBox_tooltype], whose items are
      [TOOL_TYPES]; [-1] when no item is selected *)
  comboBox_tooltype : Z;
  _undo_stack : QUndoStack;
  (** [_programfile_documents], in insertion order *)
  _programfile_documents : list (string * QTextDocument);
  effects : list Effect;
}.

(** What the editor takes from the host application, the engine and the
    operating system. *)
Record Host := mkHost {
  (** [TOOL_TYPES] of the tool specifications module *)
  TOOL_TYPES : list string;
  (** the engine's [split_cmdline_args] *)
  split_cmdline_args : string → list string;
  (** [os.path.relpath], [os.path.abspath] *)
  relpath : string → string → string;
  abspath : string → string;
  (** the host application's [same_path] *)
  same_path : string → string → bool;
  (** the application settings read by [clear_execution_settings] *)
  usePythonKernel : bool;
  pythonKernel : string;
  pythonPath : string;
  (** truthiness of what [super()._save()] returns *)
  super_save : bool;
  (** writing a text to a file: [None], or the text of the [IOError] *)
  write : string → string → option string;
}.

(** The editor opened without a specification: the constructor leaves
    the three lists of input and output files in [spec_dict], empty, and
    the combo box without a selection. *)
Definition new_editor : ToolSpecificationEditorWindow :=
  mkEditor (mkSpecDict None None None (Some []) (Some []) (Some []) None) None ""
    (-1) (mkUndoStack [] 0) [] [].

Definition with_spec_dict (self : ToolSpecificationEditorWindow) (d : SpecDict)
    : ToolSpecificationEditorWindow :=
  mkEditor d (includes_main_path self) (lineEdit_args self)
    (comboBox_tooltype self) (_undo_stack self)
    (_programfile_documents self) (effects self).

Definition add_effect (self : ToolSpecificationEditorWindow) (e : Effect)
    : ToolSpecificationEditorWindow :=
  mkEditor (spec_dict self) (includes_main_path self) (lineEdit_args self)
    (comboBox_tooltype self) (_undo_stack self) (_programfile_documents self)
    (effects self ++ [e]).

Definition with_undo_stack (self : ToolSpecificationEditorWindow)
    (st : QUndoStack) : ToolSpecificationEditorWindow :=
  mkEditor (spec_dict self) (includes_main_path self) (lineEdit_args self)
    (comboBox_tooltype self) st (_programfile_documents self) (effects self).

Definition with_comboBox_tooltype (self : ToolSpecificationEditorWindow)
    (index : Z) : ToolSpecificationEditorWindow :=
  mkEditor (spec_dict self) (includes_main_path self) (lineEdit_args self)
    index (_undo_stack self) (_programfile_documents self) (effects self).

(** [os.path.commonprefix] of two strings: the longest common prefix,
    character by character. *)
Fixpoint commonprefix (a b : string) : string :=
  match a, b with
  | String x a', String y b' =>
      if decide (x = y) then String x (commonprefix a' b') else ""
  | _, _ => ""
  end.

(** [clear_execution_settings]: the settings are dropped and, for the
    Python and executable types, set to their defaults. *)
Definition clear_execution_settings (host : Host) (spec_type : string)
    (d : SpecDict) : SpecDict :=
  let settings :=
    if decide (spec_type = "python") then
      Some (PythonSettings (usePythonKernel host) (pythonKernel host) ""
              (pythonPath host))
    else if decide (spec_type = "executable") then
      Some (ExecutableSettings "" "")
    else None in
  mkSpecDict (tooltype d) (cmdline_args d) (includes d) (inputfiles d)
    (inputfiles_opt d) (outputfiles d) settings.

(** [next(iter(k for k, t in enumerate(TOOL_TYPES) if t.lower() == value), -1)] *)
Definition tooltype_index (host : Host) (value : string) : Z :=
  match list_find (λ t, lower t = value) (TOOL_TYPES host) with
  | Some (k, _) => Z.of_nat k
  | None => (-1)%Z
  end.

(** Modelled from the spec: what pushing a command does to the history
    stack itself, before the command is applied: the commands that were
    undone are dropped and the command is appended. *)
Definition pushed (cmd : ChangeSpecPropertyCommand) (st : QUndoStack)
    : QUndoStack :=
  let kept := take (stack_index st) (commands st) in
  mkUndoStack (kept ++ [cmd]) (S (length kept)).

(** The setters that the undo commands call. *)

(** [_set_tooltype].  [comboBox_tooltype.setCurrentIndex(index)] does
    nothing when [index] is the current index; otherwise the combo box
    takes the index and emits [currentIndexChanged(index)], which
    [connect_signals] has connected to [_push_change_tooltype_command]:
    the body of that slot runs here, before [clear_execution_settings].
    When the slot pushes a command, the stack applies it by calling
    [_set_tooltype] again; [fuel] bounds the depth of these calls and
    [None] says that it did not suffice.  (An exception raised in the
    slot is reported by the Qt binding and does not reach the caller of
    [setCurrentIndex]; the slot's second connection,
    [_show_optional_widget], touches widgets only.) *)
Fixpoint _set_tooltype_fuel (fuel : nat) (host : Host) (value : string)
    (self : ToolSpecificationEditorWindow)
    : option ToolSpecificationEditorWindow :=
  match fuel with
  | O => None
  | S fuel =>
      let d := spec_dict self in
      let d := mkSpecDict (Some value) (cmdline_args d) (includes d)
                 (inputfiles d) (inputfiles_opt d) (outputfiles d)
                 (execution_settings d) in
      let self := with_spec_dict self d in
      let index := tooltype_index host value in
      self ←
        (if decide (index = comboBox_tooltype self) then Some self
         else
           let self := with_comboBox_tooltype self index in
           match Py.index (TOOL_TYPES host) index with
           | Raise _ => Some self
           | Return t =>
               let new_type := lower t in
               let old_type := default "" (tooltype (spec_dict self)) in
               if decide (new_type = old_type) then Some self
               else
                 _set_tooltype_fuel fuel host new_type
                   (with_undo_stack self
                      (pushed
                         (mkCommand cb_set_tooltype (VStr new_type)
                            (VStr old_type) "change Tool specification type")
                         (_undo_stack self)))
           end);
      Some (with_spec_dict self
              (clear_execution_settings host value (spec_dict self)))
  end.

(** Two calls deep is as far as [_set_tooltype] goes (lemma
    [set_tooltype_fuel]): the type that the slot pushes is one of
    [TOOL_TYPES], and for such a type the slot has nothing to do. *)
Definition _set_tooltype (host : Host) (value : string)
    (self : ToolSpecificationEditorWindow) : ToolSpecificationEditorWindow :=
  default self (_set_tooltype_fuel 2 host value self).

Definition _set_cmdline_args (value : list string)
    (self : ToolSpecificationEditorWindow) : ToolSpecificationEditorWindow :=
  let d := spec_dict self in
  mkEditor
    (mkSpecDict (tooltype d) (Some value) (includes d) (inputfiles d)
       (inputfiles_opt d) (outputfiles d) (execution_settings d))
    (includes_main_path self) (String.concat " " value)
    (comboBox_tooltype self) (_undo_stack self)
    (_programfile_documents self) (effects self).

(** [_set_program_files]: the main path and the [includes] entry are
    derived again from the list of absolute paths.  (The call that
    [populate_main_programfile] schedules through a timer runs after this
    function has returned and is not part of it.) *)
Definition _set_program_files (host : Host) (program_files : list string)
    (self : ToolSpecificationEditorWindow) : ToolSpecificationEditorWindow :=
  let main_program_file := default "" (head program_files) in
  let main_path :=
    dirname (default "" (head (filter (λ f, f ≠ "") program_files))) in
  let additional_program_files :=
    (λ file, relpath host file main_path) <$> tail program_files in
  let d := spec_dict self in
  mkEditor
    (mkSpecDict (tooltype d) (cmdline_args d)
       (Some (basename main_program_file :: additional_program_files))
       (inputfiles d) (inputfiles_opt d) (outputfiles d) (execution_settings d))
    (Some main_path) (lineEdit_args self) (comboBox_tooltype self)
    (_undo_stack self) (_programfile_documents self) (effects self).

Definition populate_inputfiles_list (names : list string)
    (self : ToolSpecificationEditorWindow) : ToolSpecificationEditorWindow :=
  let d := spec_dict self in
  with_spec_dict self
    (mkSpecDict (tooltype d) (cmdline_args d) (includes d) (Some names)
       (inputfiles_opt d) (outputfiles d) (execution_settings d)).

Definition populate_inputfiles_opt_list (names : list string)
    (self : ToolSpecificationEditorWindow) : ToolSpecificationEditorWindow :=
  let d := spec_dict self in
  with_spec_dict self
    (mkSpecDict (tooltype d) (cmdline_args d) (includes d) (inputfiles d)
       (Some names) (outputfiles d) (execution_settings d)).

Definition populate_outputfiles_list (names : list string)
    (self : ToolSpecificationEditorWindow) : ToolSpecificationEditorWindow :=
  let d := spec_dict self in
  with_spec_dict self
    (mkSpecDict (tooltype d) (cmdline_args d) (includes d) (inputfiles d)
       (inputfiles_opt d) (Some names) (execution_settings d)).

(** Calling a stored bound method with a stored value.  The editor only
    builds commands whose values have the type the setter takes; any
    other pairing leaves the editor as it is. *)
Definition call (host : Host) (cb : Callback) (v : Value)
    (self : ToolSpecificationEditorWindow) : ToolSpecificationEditorWindow :=
  match cb, v with
  | cb_set_tooltype, VStr s => _set_tooltype host s self
  | cb_set_cmdline_args, VList l => _set_cmdline_args l self
  | cb_set_program_files, VList l => _set_program_files host l self
  | cb_populate_inputfiles_list, VList l => populate_inputfiles_list l self
  | cb_populate_inputfiles_opt_list, VList l => populate_inputfiles_opt_list l self
  | cb_populate_outputfiles_list, VList l => populate_outputfiles_list l self
  | _, _ => self
  end.

(** Modelled from the spec: redoing the reversible command applies the
    setter to the new value. *)
Definition redo (host : Host) (cmd : ChangeSpecPropertyCommand)
    (self : ToolSpecificationEditorWindow) : ToolSpecificationEditorWindow :=
  call host (callback cmd) (new_value cmd) self.

(** Modelled from the spec: undoing the reversible command applies the
    setter to the old value. *)
Definition undo (host : Host) (cmd : ChangeSpecPropertyCommand)
    (self : ToolSpecificationEditorWindow) : ToolSpecificationEditorWindow :=
  call host (callback cmd) (old_value cmd) self.

(** Modelled from the spec: pushing onto the history stack drops the
    commands that were undone, appends the command and applies it. *)
Definition push (host : Host) (cmd : ChangeSpecPropertyCommand)
    (self : ToolSpecificationEditorWindow) : ToolSpecificationEditorWindow :=
  let st := _undo_stack self in
  let kept := take (stack_index st) (commands st) in
  redo host cmd
    (with_undo_stack self (mkUndoStack (kept ++ [cmd]) (S (length kept)))).

(** Modelled from the spec: undoing on the history stack reverts the
    last applied command, if there is one. *)
Definition undo_stack_undo (host : Host) (self : ToolSpecificationEditorWindow)
    : ToolSpecificationEditorWindow :=
  let st := _undo_stack self in
  match stack_index st with
  | O => self
  | S i =>
      match commands st !! i with
      | Some cmd =>
          undo host cmd (with_undo_stack self (mkUndoStack (commands st) i))
      | None => self
      end
  end.

(** [_push_change_tooltype_command], the slot of the tool type combo box;
    [TOOL_TYPES[index]] follows Python's indexing. *)
Definition _push_change_tooltype_command (host : Host) (index : Z)
    (self : ToolSpecificationEditorWindow)
    : outcome ToolSpecificationEditorWindow :=
  t ← Py.index (TOOL_TYPES host) index;
  let new_type := lower t in
  let old_type := default "" (tooltype (spec_dict self)) in
  if decide (new_type = old_type) then Return self
  else Return (push host
                 (mkCommand cb_set_tooltype (VStr new_type) (VStr old_type)
                    "change Tool specification type")
                 self).

(** [_push_change_args_command], the slot of the arguments line edit. *)
Definition _push_change_args_command (host : Host)
    (self : ToolSpecificationEditorWindow) : ToolSpecificationEditorWindow :=
  let old_value := default [] (cmdline_args (spec_dict self)) in
  let new_value := split_cmdline_args host (lineEdit_args self) in
  if decide (new_value = old_value) then self
  else push host
         (mkCommand cb_set_cmdline_args (VList new_value) (VList old_value)
            "change command line args")
         self.

(** The program files as the handlers read them: the [includes] entry,
    joined to the main path when there is one. *)
Definition program_files (self : ToolSpecificationEditorWindow) : list string :=
  let old_program_files := default [] (includes (spec_dict self)) in
  match includes_main_path self with
  | Some main_path => join main_path <$> old_program_files
  | None => old_program_files
  end.

(** The three lists that [_validate_additional_program_files] builds. *)
Record Validation := mkValidation {
  valid_files : list string;
  dupes : list string;
  invalid : list string;
}.

(** One iteration of the loop of [_validate_additional_program_files]. *)
Definition validate_file (host : Host) (main_path : option string)
    (old_program_files : list string) (acc : Validation) (file : string)
    : Validation :=
  if decide (file ∈ old_program_files)
  then mkValidation (valid_files acc) (dupes acc ++ [basename file]) (invalid acc)
  else
    match main_path with
    | Some main_path =>
        let common_prefix :=
          commonprefix (abspath host main_path) (abspath host file) in
        if same_path host common_prefix main_path
        then mkValidation (valid_files acc ++ [file]) (dupes acc) (invalid acc)
        else mkValidation (valid_files acc) (dupes acc)
               (invalid acc ++ [basename file])
    | None => mkValidation (valid_files acc ++ [file]) (dupes acc) (invalid acc)
    end.

(** [_validate_additional_program_files]: the valid files, and the editor
    with the messages about the others. *)
Definition _validate_additional_program_files (host : Host)
    (new_files old_program_files : list string)
    (self : ToolSpecificationEditorWindow)
    : list string * ToolSpecificationEditorWindow :=
  let v := foldl (validate_file host (includes_main_path self) old_program_files)
             (mkValidation [] [] []) new_files in
  let self :=
    match dupes v with
    | [] => self
    | _ => add_effect self
             (_show_status_bar_msg
                ("Program file(s) '" +:+ String.concat ", " (dupes v)
                 +:+ "' already added"))
    end in
  let self :=
    match invalid v with
    | [] => self
    | _ => add_effect self
             (_show_status_bar_msg
                ("Program file(s) '" +:+ String.concat ", " (invalid v)
                 +:+ "' not in main directory"))
    end in
  (valid_files v, self).

(** [add_program_files]. *)
Definition add_program_files (host : Host) (new_files : list string)
    (self : ToolSpecificationEditorWindow) : ToolSpecificationEditorWindow :=
  let old_program_files := program_files self in
  let '(new_files, self) :=
    _validate_additional_program_files host new_files old_program_files self in
  match new_files with
  | [] => self
  | _ =>
      let new_program_files := old_program_files ++ new_files in
      push host
        (mkCommand cb_set_program_files (VList new_program_files)
           (VList old_program_files) "add program files")
        self
  end.

(** [remove_all_program_files], given the leaves of the program files
    tree that [selectAll()] selects. *)
Definition remove_all_program_files (host : Host) (leaves : list string)
    (self : ToolSpecificationEditorWindow) : ToolSpecificationEditorWindow :=
  match leaves with
  | [] => add_effect self (_show_status_bar_msg "No program files to remove")
  | _ =>
      push host
        (mkCommand cb_set_program_files (VList []) (VList (program_files self))
           "remove all program files")
        self
  end.

(** [add_inputfiles], [add_inputfiles_opt] and [add_outputfiles], given
    the text the input dialog returns (empty when cancelled). *)
Definition add_inputfiles (host : Host) (file_name : string)
    (self : ToolSpecificationEditorWindow) : ToolSpecificationEditorWindow :=
  if truthy_str file_name then
    let old_files := default [] (inputfiles (spec_dict self)) in
    let new_files := old_files ++ [file_name] in
    push host
      (mkCommand cb_populate_inputfiles_list (VList new_files) (VList old_files)
         "add input file")
      self
  else self.

Definition add_inputfiles_opt (host : Host) (file_name : string)
    (self : ToolSpecificationEditorWindow) : ToolSpecificationEditorWindow :=
  if truthy_str file_name then
    let old_files := default [] (inputfiles_opt (spec_dict self)) in
    let new_files := old_files ++ [file_name] in
    push host
      (mkCommand cb_populate_inputfiles_opt_list (VList new_files)
         (VList old_files) "add optional input file")
      self
  else self.

Definition add_outputfiles (host : Host) (file_name : string)
    (self : ToolSpecificationEditorWindow) : ToolSpecificationEditorWindow :=
  if truthy_str file_name then
    let old_files := default [] (outputfiles (spec_dict self)) in
    let new_files := old_files ++ [file_name] in
    push host
      (mkCommand cb_populate_outputfiles_list (VList new_files) (VList old_files)
         "add output file")
      self
  else self.

(** [_save_program_file]: [None] when the text was written, the error
    otherwise. *)
Definition _save_program_file (host : Host) (file_path : string)
    (doc : QTextDocument) : option string :=
  write host file_path (toPlainText doc).

(** The state of the loop of [_save]: the documents already visited, the
    names saved and the effects so far. *)
Record SaveLoop := mkSaveLoop {
  visited : list (string * QTextDocument);
  saved : list string;
  shown : list Effect;
}.

(** The loop of [_save] over the documents; [inl] is the early
    [return True] after a failed write, with the documents not visited
    left as they are. *)
Fixpoint save_loop (host : Host) (docs : list (string * QTextDocument))
    (st : SaveLoop) : SaveLoop + SaveLoop :=
  match docs with
  | [] => inr st
  | (file_path, doc) :: rest =>
      if negb (isModified doc)
      then save_loop host rest
             (mkSaveLoop (visited st ++ [(file_path, doc)]) (saved st) (shown st))
      else
        match _save_program_file host file_path doc with
        | None =>
            save_loop host rest
              (mkSaveLoop
                 (visited st ++ [(file_path, mkDocument false (toPlainText doc))])
                 (saved st ++ [basename file_path])
                 (shown st ++ [file_written file_path (toPlainText doc)]))
        | Some err =>
            inl (mkSaveLoop (visited st ++ (file_path, doc) :: rest) (saved st)
                   (shown st
                    ++ [show_error ("Error while saving " +:+ basename file_path
                                    +:+ ": " +:+ err)]))
        end
  end.

(** The editor with its documents replaced and more effects recorded. *)
Definition with_documents (self : ToolSpecificationEditorWindow)
    (docs : list (string * QTextDocument)) (new_effects : list Effect)
    : ToolSpecificationEditorWindow :=
  mkEditor (spec_dict self) (includes_main_path self) (lineEdit_args self)
    (comboBox_tooltype self) (_undo_stack self) docs
    (effects self ++ new_effects).

(** [_save]: the returned flag and the editor afterwards. *)
Definition _save (host : Host) (self : ToolSpecificationEditorWindow)
    : bool * ToolSpecificationEditorWindow :=
  if negb (super_save host) then (false, self)
  else
    match save_loop host (_programfile_documents self) (mkSaveLoop [] [] []) with
    | inl st => (true, with_documents self (visited st) (shown st))
    | inr st =>
        match saved st with
        | [] => (true, with_documents self (visited st) (shown st))
        | _ =>
            (true,
             with_documents self (visited st)
               (shown st
                ++ [_show_status_bar_msg
                      ("Program files " +:+ String.concat ", " (saved st)
                       +:+ " saved successfully")]))
        end
    end.

End ToolEditor.

(** ** Further functions of the same files *)

(** *** spine_items/merger/executable_item.py: [execute_unfiltered] *)

Module MergerUnfiltered.
Import Py Merger.

(** What [execute_unfiltered] asks of its surroundings: the truthiness of
    what [super().execute_unfiltered(...)] returns and of what the
    package's [purge_url] returns for a URL with the item's purge
    settings. *)
Record PurgeEngine := mkPurgeEngine {
  super_execute_unfiltered : bool;
  purge_url : string → bool;
}.

(** The loop of [execute_unfiltered] over the target URLs: the returned
    flag and the URLs that [purge_url] was called on, in order. *)
Fixpoint purge_loop (engine : PurgeEngine) (cancel_on_error : bool)
    (to_urls : list string) : bool * list string :=
  match to_urls with
  | [] => (true, [])
  | url :: rest =>
      if negb (purge_url engine url) && cancel_on_error then (false, [url])
      else
        let '(r, purged) := purge_loop engine cancel_on_error rest in
        (r, url :: purged)
  end.

(** [ExecutableItem.execute_unfiltered]. *)
Definition execute_unfiltered (engine : PurgeEngine) (self : ExecutableItem)
    (backward_resources : list ProjectItemResource) : bool * list string :=
  if negb (super_execute_unfiltered engine) then (false, [])
  else if negb (_purge_before_writing self) then (true, [])
  else purge_loop engine (_cancel_on_error self)
         (url <$> filter is_database backward_resources).

End MergerUnfiltered.

(** *** spine_items/models.py: item flags, selection and arguments *)

Module FileListViews.
Import Py Models.

(** The item flags that the models combine; a flag set is the record of
    the flags it holds. *)
Record ItemFlags := mkFlags {
  ItemIsSelectable : bool;
  ItemIsUserCheckable : bool;
  ItemIsEnabled : bool;
  ItemNeverHasChildren : bool;
  ItemIsDragEnabled : bool;
}.

Definition NoItemFlags : ItemFlags := mkFlags false false false false false.

(** A [QModelIndex] of the list model: [Some row] is a valid index and
    [None] the invalid one, whose [row()] is [-1]. *)
Definition index_row (index : option nat) : Z :=
  match index with
  | Some row => Z.of_nat row
  | None => (-1)%Z
  end.

(** [self._files[row]]: the item the row refers to, with its address.
    An address that refers to no item of the store stands for no Python
    object; the branch for it makes the function total. *)
Definition file_at (self : FileListModel) (row : Z)
    : outcome (nat * FileListItem) :=
  a ← Py.index (_files self) row;
  match objects self !! a with
  | Some item => Return (a, item)
  | None => Raise IndexError
  end.

(** [FileListModel.flags]. *)
Definition flags (self : FileListModel) (index : option nat) : outcome ItemFlags :=
  match index with
  | None => Return NoItemFlags
  | Some row =>
      '(_, item) ← file_at self (Z.of_nat row);
      if exists_ item
      then Return (mkFlags true true true true false)
      else Return (mkFlags false false false true false)
  end.

(** [InputFileListModel.flags] for a model with the given [_checkable]. *)
Definition input_flags (checkable : bool) (self : FileListModel)
    (index : option nat) : outcome ItemFlags :=
  f ← flags self index;
  let f := mkFlags (ItemIsSelectable f) (ItemIsUserCheckable f) (ItemIsEnabled f)
             (ItemNeverHasChildren f) true in
  if negb checkable
  then Return (mkFlags (ItemIsSelectable f) false (ItemIsEnabled f)
                 (ItemNeverHasChildren f) (ItemIsDragEnabled f))
  else Return f.

(** [rowCount]. *)
Definition rowCount (self : FileListModel) : nat := length (_files self).

(** [mark_as_nonexistent]: the path of the item at [index.row()] is
    emptied; the index whose data changed is handed back. *)
Definition mark_as_nonexistent (self : FileListModel) (index : option nat)
    : outcome (FileListModel * list (option nat)) :=
  '(a, item) ← file_at self (index_row index);
  Return
    (mkFileListModel
       (<[ a := mkFileListItem (label item) "" (selected item)
                  (item_provider_name item) (is_pattern item) ]>
          (objects self))
       (_files self) (_invalid_resource_types self) (_header_label self),
     [index]).

(** [set_selected]: the first item with the label takes the selection
    status; the rows whose data changed are handed back.  (The address
    found refers to an item, since its label was compared.) *)
Definition set_selected (self : FileListModel) (l : optstr) (value : bool)
    : FileListModel * list nat :=
  match list_find (λ a, label <$> objects self !! a = Some l) (_files self) with
  | Some (row, a) =>
      match objects self !! a with
      | Some item =>
          (mkFileListModel
             (<[ a := mkFileListItem (label item) (item_path item) value
                        (item_provider_name item) (is_pattern item) ]>
                (objects self))
             (_files self) (_invalid_resource_types self) (_header_label self),
           [row])
      | None => (self, [])
      end
  | None => (self, [])
  end.

(** [CommandLineArgsModel.replace_arg]: the list emitted through
    [args_updated]. *)
Definition replace_arg (_args : list string) (row : Z) (arg : string)
    : outcome (list string) :=
  let n := Z.of_nat (length _args) in
  let k := if bool_decide (row < 0)%Z then (row + n)%Z else row in
  if bool_decide (0 ≤ k < n)%Z
  then Return (<[ Z.to_nat k := arg ]> _args)
  else Raise IndexError.

End FileListViews.

(** *** tool_specification_editor_window.py: the program file tree *)

Module ProgramFileTree.
Import Py.

(** [os.path.split], POSIX flavour: the head is what [dirname] gives and
    the tail what [basename] gives. *)
Definition split (p : string) : string * string := (dirname p, basename p).

(** [list(_path_components(path))].  The generator loops while [path] is
    non-empty; [fuel] bounds the number of iterations, and [None] says
    that they did not suffice. *)
Fixpoint _path_components (fuel : nat) (path : string) : option (list string) :=
  match fuel with
  | O => None
  | S fuel =>
      if truthy_str path then
        let '(path, component) := split path in
        components ← _path_components fuel path;
        Some (component :: components)
      else Some []
  end.

End ProgramFileTree.

(* ===================================================================== *)
(** * Part II: the vocabulary of the properties                           *)
(* ===================================================================== *)

Module UtilsSpec.
Import Utils.

(** A data directory without manifest files. *)
Definition sample_os : OsEnv :=
  mkOsEnv [".exported.json"; "out.csv"; ".export-manifest"] (λ _, [])
          (λ _, false) (λ d f, d +:+ "/" +:+ f).

(** A data directory with one manifest file that lists an existing file
    for [a.csv] and a file for an output the item no longer has. *)
Definition manifest_os : OsEnv :=
  mkOsEnv [".export-manifest-3fa2.json"; "output"]
          (λ name, if decide (name = ".export-manifest-3fa2.json")
                   then [("a.csv", ["output/a.csv"]); ("old.csv", ["output/old.csv"])]
                   else [])
          (λ f, bool_decide (f = "/data/output/a.csv"))
          (λ d f, d +:+ "/" +:+ f).

End UtilsSpec.

Module ModelsSpec.
Import Py Models.

(** [points_to store addrs ls]: the addresses are live in the store and the
    items they refer to carry the labels [ls], in order. *)
Definition points_to (store : list FileListItem) (addrs : list nat)
    (ls : list optstr) : Prop :=
  Forall2 (λ a l, ∃ item, store !! a = Some item ∧ label item = l) addrs ls.

(** A store extends another when every live address stays live and keeps
    its label. *)
Definition extends (s s' : list FileListItem) : Prop :=
  ∀ a item, s !! a = Some item →
    ∃ item', s' !! a = Some item' ∧ label item' = label item.

(** The dictionary of [update] maps a label to a live item with that label. *)
Definition keyed_by_label (items : gmap optstr nat) (store : list FileListItem)
    : Prop :=
  ∀ l a, items !! l = Some a →
    ∃ item, store !! a = Some item ∧ label item = l.

(** The labels of the resources that [update] does not skip. *)
Definition resource_labels (invalid : list string)
    (resources : list ProjectItemResource) : list (outcome optstr) :=
  _file_label <$> filter (λ r, type_ r ∉ invalid) resources.

(** The elements of [l], numbered from [k], whose number is not in [rows]. *)
Definition unselected {A} (rows : list Z) (k : Z) (l : list A) : list A :=
  (filter (λ p, p.1 ∉ rows) (enumerate_from k l)).*2.

(** A file resource of a provider, and a model that is still empty. *)
Definition sample_file (path provider : string) : ProjectItemResource :=
  mkResource "file" (Some ("file://" +:+ path)) path provider None.

Definition sample_model : FileListModel := FileListModel_init [] "Files".

(** The rows that the contents of mime data carry: the pieces between
    the separators, each read as an [int]. *)
Definition rows_of (contents : string) : outcome (list Z) :=
  pieces ← split contents ";;";
  mapM int pieces.

(** A string in which a character does not occur. *)
Fixpoint free_of (c : ascii) (s : string) : Prop :=
  match s with
  | "" => True
  | String a s' => a ≠ c ∧ free_of c s'
  end.

(** The JSON text of an array of two strings that need no escape. *)
Definition json_text (p : string * string) : string :=
  "[" +:+ String "034" (p.1 +:+ String "034" (", " +:+
  String "034" (p.2 +:+ String "034" "]"))).

(** The [json] module on the texts of the examples. *)
Definition sample_json : Json :=
  mkJson json_text
    (λ text,
       if decide (text = json_text ("rows", "3;;0"))
       then Return (JArray [JString "rows"; JString "3;;0"])
       else if decide (text = json_text ("rows", "1"))
       then Return (JArray [JString "rows"; JString "1"])
       else if decide (text = json_text ("rows", ""))
       then Return (JArray [JString "rows"; JString ""])
       else if decide (text = json_text ("paths", "a.csv;;b.csv"))
       then Return (JArray [JString "paths"; JString "a.csv;;b.csv"])
       else Raise ValueError).

End ModelsSpec.

Module MergerSpec.
Import Py Merger.

(** The list without the first occurrence of [u]. *)
Fixpoint remove_first (u : string) (l : list string) : list string :=
  match l with
  | [] => []
  | x :: l' => if decide (x = u) then l' else x :: remove_first u l'
  end.

(** The contexts that a trace leaves open: entering one adds it, exiting
    one removes it. *)
Definition replay_context (open : list string) (e : Event) : list string :=
  match e with
  | Entered u => u :: open
  | Exited u => remove_first u open
  | _ => open
  end.

Definition open_contexts (tr : list Event) : list string :=
  foldl replay_context [] tr.

(** The calls that ran a merge to completion with a truthy first element
    in the returned tuple. *)
Definition merge_succeeded (tr : list Event) : Prop :=
  ∃ p return_value,
    Completed p return_value ∈ tr ∧ index return_value 0 = Return true.

(** The world in which a call on the item starts: no context is held and
    nothing has happened. *)
Definition initial (self : ExecutableItem) : World := mkWorld self [] [].

(** [[r for r in resources if r.type_ == "database"]] *)
Definition databases (resources : list ProjectItemResource)
    : list ProjectItemResource :=
  filter is_database resources.

(** The [ExitStack] holds exactly the contexts that the trace leaves open. *)
Definition balanced (w : World) : Prop := open_contexts (trace w) = exit_stack w.

(** A computation that leaves the stack and the trace in step. *)
Definition keeps_balance {A} (m : M A) : Prop :=
  ∀ w, balanced w → balanced (m w).2.

(** The process that [execute] creates from the server URLs. *)
Definition merge_process (self : ExecutableItem) (fs ts : list string)
    : ReturningProcess :=
  mkProcess (_cancel_on_error self) (_logs_dir self) fs ts.

(** The finish state for the first element of the returned tuple. *)
Definition finish_state (first : bool) : ItemExecutionFinishState :=
  if first then SUCCESS else FAILURE.

(** The item after [self._process = None]. *)
Definition without_process (self : ExecutableItem) : ExecutableItem :=
  mkItem (_name self) (_logs_dir self) (_cancel_on_error self)
    (_purge_before_writing self) None.

(** An engine whose base class lets the call proceed, whose resources
    open on a local server and whose subprocess reports success; an
    item; and the process the item creates for one source and one
    target. *)
Definition sample_engine : Engine :=
  mkEngine true (λ r, Return ("http://127.0.0.1:8000/" +:+ url r)) (λ _, [true]).

Definition sample_item : ExecutableItem :=
  mkItem "Merger" "/project/.spinetoolbox/items/merger/logs" true false None.

Definition sample_process : ReturningProcess :=
  merge_process sample_item ["http://127.0.0.1:8000/sqlite:///source.sqlite"]
    ["http://127.0.0.1:8000/sqlite:///target.sqlite"].

End MergerSpec.

Module ToolEditorSpec.
Import Py ToolEditor.

(** A document of [_save] once a successful write has been recorded. *)
Definition mark_saved (fd : string * QTextDocument) : string * QTextDocument :=
  if isModified fd.2 then (fd.1, mkDocument false (toPlainText fd.2)) else fd.

(** The writes of the modified documents of a list, in order. *)
Definition writes (docs : list (string * QTextDocument)) : list Effect :=
  (λ fd, file_written fd.1 (toPlainText fd.2))
    <$> filter (λ fd, isModified fd.2 = true) docs.

(** Every modified document of the list can be written. *)
Definition all_writable (host : Host) (docs : list (string * QTextDocument))
    : Prop :=
  Forall (λ fd, isModified fd.2 = true →
                write host fd.1 (toPlainText fd.2) = None) docs.

(** A host with working directory [/home/user] in which one file cannot
    be written, and an editor with three modified documents. *)
Definition sample_host : Host :=
  mkHost ["Julia"; "Python"; "GAMS"; "Executable"]
    (λ text, if decide (text = "") then [] else [text])
    (λ file start, file)
    (λ p, if decide (p = "") then "/home/user"
          else if startswith p "/" then p else join "/home/user" p)
    String.eqb false "" "" true
    (λ file_path text,
       if decide (file_path = "/project/tool/helper.py")
       then Some "[Errno 13] Permission denied: '/project/tool/helper.py'"
       else None).

Definition sample_documents : list (string * QTextDocument) :=
  [("/project/tool/main.py", mkDocument true "print(1)");
   ("/project/tool/helper.py", mkDocument true "x = 2");
   ("/project/tool/extra.py", mkDocument true "y = 3")].

Definition sample_editor : ToolSpecificationEditorWindow :=
  mkEditor (mkSpecDict None None None (Some []) (Some []) (Some []) None) None ""
    (-1) (mkUndoStack [] 0) sample_documents [].

(** A tool type is listed when it is the lower case of one of
    [TOOL_TYPES]. *)
Definition listed (host : Host) (value : string) : Prop :=
  value ∈ lower <$> TOOL_TYPES host.

#[export] Instance listed_dec (host : Host) (value : string) :
  Decision (listed host value) :=
  decide (value ∈ lower <$> TOOL_TYPES host).

(** [spec_dict["tooltype"] = value] *)
Definition with_tooltype (self : ToolSpecificationEditorWindow) (value : string)
    : ToolSpecificationEditorWindow :=
  let d := spec_dict self in
  with_spec_dict self
    (mkSpecDict (Some value) (cmdline_args d) (includes d) (inputfiles d)
       (inputfiles_opt d) (outputfiles d) (execution_settings d)).

(** The editor after [_set_tooltype] when the slot of the combo box
    pushes nothing: the type is stored, the combo box shows it and the
    execution settings are the defaults of the type. *)
Definition settled (host : Host) (value : string)
    (self : ToolSpecificationEditorWindow) : ToolSpecificationEditorWindow :=
  let self := with_comboBox_tooltype (with_tooltype self value)
                (tooltype_index host value) in
  with_spec_dict self (clear_execution_settings host value (spec_dict self)).

(** The command that the slot of the combo box pushes. *)
Definition tooltype_command (new_type old_type : string)
    : ChangeSpecPropertyCommand :=
  mkCommand cb_set_tooltype (VStr new_type) (VStr old_type)
    "change Tool specification type".

(** The editor after [_set_tooltype] with a type that is not listed,
    when the combo box had a selection and [t] is the last tool type:
    the combo box loses its selection, its slot pushes a command to the
    type of [t] and applies it, and then the execution settings are set
    to the defaults of [value]. *)
Definition reselected (host : Host) (value t : string)
    (self : ToolSpecificationEditorWindow) : ToolSpecificationEditorWindow :=
  let self := with_comboBox_tooltype (with_tooltype self value) (-1) in
  let self :=
    settled host (lower t)
      (with_undo_stack self
         (pushed (tooltype_command (lower t) value) (_undo_stack self))) in
  with_spec_dict self (clear_execution_settings host value (spec_dict self)).

(** A call of a setter that pushes no command itself: every call but
    that of [_set_tooltype] with a type that is not listed. *)
Definition quiet (host : Host) (cb : Callback) (v : Value) : Prop :=
  match cb, v with
  | cb_set_tooltype, VStr value => listed host value
  | _, _ => True
  end.

(** A status-bar message that mentions the name. *)
Definition reported (name : string) (es : list Effect) : Prop :=
  ∃ msg, _show_status_bar_msg msg ∈ es ∧ is_Some (String.index 0 name msg).

End ToolEditorSpec.

Module UtilsCacheSpec.
Import Utils UtilsSpec.

(** The entries of all manifest files of the data directory, in the order
    in which [collect_execution_manifests] reads them. *)
Definition manifest_items (os : OsEnv) : list (string * list string) :=
  concat (json_load os <$> filter (λ name, is_manifest name = true) (iterdir os)).

(** The paths that the entries list for an output name, in order. *)
Definition paths_of (k : string) (items : list (string * list string))
    : list string :=
  concat (snd <$> filter (λ kv, kv.1 = k) items).

(** The files of the cache for a database that exist. *)
Definition existing_files (os : OsEnv) (cache : gmap string (list string))
    (db : Database) : list string :=
  filter (λ f, path_exists os f = true)
         (default [] (cache !! output_file_name db)).

(** A directory without manifest files in which one cached file exists. *)
Definition cached_os : OsEnv :=
  mkOsEnv ["output"] (λ _, []) (λ f, bool_decide (f = "/data/output/b.csv"))
          (λ d f, d +:+ "/" +:+ f).

Definition sample_cache : gmap string (list string) :=
  {[ "a.csv" := ["/data/output/a.csv"]; "b.csv" := ["/data/output/b.csv"] ]}.

End UtilsCacheSpec.

Module FileListSpec.
Import Py Models ModelsSpec FileListViews.

(** The resources that [update] does not skip. *)
Definition valid_resources (self : FileListModel)
    (resources : list ProjectItemResource) : list ProjectItemResource :=
  filter (λ r, type_ r ∉ _invalid_resource_types self) resources.

(** A store keeps the items of another: every item of the other is still
    there, with its label and its selection status. *)
Definition keeps_items (s0 s : list FileListItem) : Prop :=
  ∀ a item, s0 !! a = Some item →
    ∃ item', s !! a = Some item' ∧ label item' = label item
             ∧ selected item' = selected item.

(** The loop of [update] keeps the items of the model, lists under
    [updated] only items of the dictionary and under [new] only items made
    in the loop, which are selected and whose label the dictionary lacks. *)
Definition selection_kept (objects : list FileListItem)
    (items : gmap optstr nat) (st : UpdateLoop) : Prop :=
  keeps_items objects (store st)
  ∧ (length objects ≤ length (store st))%nat
  ∧ Forall (λ a, ∃ l, items !! l = Some a) (updated st)
  ∧ Forall (λ a, (length objects ≤ a)%nat
                 ∧ ∃ item, store st !! a = Some item
                           ∧ items !! label item = None
                           ∧ selected item = true) (new st).

(** The item that [set_initial_state] makes for a pair of the dictionary. *)
Definition initial_item (p : string * bool) : FileListItem :=
  mkFileListItem (Some p.1) p.1 p.2 "" false.

(** A model with two files, the second one deselected. *)
Definition two_files : FileListModel :=
  mkFileListModel
    [mkFileListItem (Some "/data/a.csv") "/data/a.csv" true "DC" false;
     mkFileListItem (Some "/data/b.csv") "/data/b.csv" false "DC" false]
    [0; 1] [] "Files".

End FileListSpec.

Module MergerRunSpec.
Import Py Merger MergerSpec MergerUnfiltered.

(** An engine whose second resource cannot be opened. *)
Definition failing_engine : Engine :=
  mkEngine true
    (λ r, if decide (url r = "sqlite:///target.sqlite")
          then Raise (RuntimeError "unable to open database")
          else Return ("http://127.0.0.1:8000/" +:+ url r))
    (λ _, [true]).

(** Purging fails for one of the targets. *)
Definition sample_purge_engine : PurgeEngine :=
  mkPurgeEngine true (λ u, negb (bool_decide (u = "sqlite:///b.sqlite"))).

Definition purging_item (cancel_on_error : bool) : ExecutableItem :=
  mkItem "Merger" "/logs" cancel_on_error true None.

End MergerRunSpec.

Module EditorFilesSpec.
Import Py ToolEditor ToolEditorSpec.

(** The path and the text of a document. *)
Definition content (fd : string * QTextDocument) : string * string :=
  (fd.1, toPlainText fd.2).

(** The state in which the loop of [_save] ends, on either exit. *)
Definition loop_state (r : SaveLoop + SaveLoop) : SaveLoop :=
  match r with
  | inl st => st
  | inr st => st
  end.

(** The test that [_validate_additional_program_files] applies to a file
    when the editor has a main path. *)
Definition in_main_directory (host : Host) (main_path : option string)
    (file : string) : Prop :=
  match main_path with
  | Some main_path =>
      same_path host (commonprefix (abspath host main_path) (abspath host file))
        main_path = true
  | None => True
  end.

#[export] Instance in_main_directory_dec host main_path file :
  Decision (in_main_directory host main_path file).
Proof. destruct main_path; simpl; apply _. Defined.

(** The message of [_validate_additional_program_files] for a list of
    names, none when the list is empty. *)
Definition file_message (names : list string) (tail : string) : list Effect :=
  match names with
  | [] => []
  | _ => [_show_status_bar_msg
            ("Program file(s) '" +:+ String.concat ", " names +:+ tail)]
  end.

(** An editor whose modified documents can all be written by
    [sample_host]. *)
Definition writable_editor : ToolSpecificationEditorWindow :=
  mkEditor (mkSpecDict None None None (Some []) (Some []) (Some []) None) None ""
    (-1) (mkUndoStack [] 0)
    [("/project/tool/main.py", mkDocument true "print(1)");
     ("/project/tool/helper.py", mkDocument false "x = 2");
     ("/project/tool/extra.py", mkDocument true "y = 3")] [].

(** An editor of a Python tool with a kernel of its own and two program
    files. *)
Definition python_editor : ToolSpecificationEditorWindow :=
  mkEditor
    (mkSpecDict (Some "python") (Some ["--fast"]) (Some ["main.py"; "util.py"])
       (Some []) (Some []) (Some [])
       (Some (PythonSettings true "my-kernel" "" "/usr/bin/python3")))
    (Some "/x/tool") "--fast" 1 (mkUndoStack [] 0) [] [].

End EditorFilesSpec.

(* ===================================================================== *)
(** * Part III: the properties                                            *)
(* ===================================================================== *)

(** ** Python helpers on concrete values *)

Section PyExamples.
Import Py.

Example suffix_examples :
  suffix ".export-manifest-3fa2.json" = ".json" ∧ suffix ".json" = ""
  ∧ suffix "archive.tar.gz" = ".gz" ∧ suffix "trailing." = "".
Proof. repeat split; reflexivity. Qed.

Example path_examples :
  basename "/project/tool/main.py" = "main.py" ∧ basename "" = ""
  ∧ dirname "/project/tool/main.py" = "/project/tool" ∧ dirname "" = ""
  ∧ dirname "/main.py" = "/" ∧ dirname "main.py" = ""
  ∧ join "/project/tool" "main.py" = "/project/tool/main.py"
  ∧ join "" "" = "" ∧ join "/project" "/abs.py" = "/abs.py".
Proof. repeat split; reflexivity. Qed.

Example index_examples :
  index ["a"; "b"; "c"] 0 = Return "a" ∧ index ["a"; "b"; "c"] (-1) = Return "c"
  ∧ index ["a"; "b"; "c"] 3 = Raise IndexError
  ∧ slice_to ["a"; "b"; "c"] 2 = ["a"; "b"] ∧ slice_from ["a"; "b"; "c"] 2 = ["c"]
  ∧ slice_to ["a"; "b"; "c"] (-1) = ["a"; "b"] ∧ slice_from ["a"; "b"; "c"] 7 = [].
Proof. repeat split; reflexivity. Qed.

End PyExamples.

(** ** Python indexing *)

Section PyFacts.
Import Py.

Lemma index_of_nat {A} (l : list A) (row : nat) :
  Py.index l (Z.of_nat row)
  = match l !! row with
    | Some x => Return x
    | None => Raise IndexError
    end.
Proof.
  unfold Py.index. cbv zeta.
  rewrite (bool_decide_eq_false_2 (Z.of_nat row < 0)%Z) by lia.
  case_bool_decide as Hrow.
  - by rewrite Nat2Z.id.
  - rewrite lookup_ge_None_2; [done|lia].
Qed.

Lemma index_minus_one {A} (l : list A) :
  Py.index l (-1)
  = match l !! (length l - 1)%nat with
    | Some x => Return x
    | None => Raise IndexError
    end.
Proof.
  unfold Py.index. cbv zeta.
  rewrite (bool_decide_eq_true_2 (-1 < 0)%Z) by lia.
  case_bool_decide as Hrow.
  - replace (Z.to_nat (-1 + Z.of_nat (length l))) with (length l - 1)%nat by lia.
    done.
  - rewrite lookup_ge_None_2; [done|lia].
Qed.

Lemma index_elem_of {A} (l : list A) (k : Z) (x : A) :
  Py.index l k = Return x → x ∈ l.
Proof.
  unfold Py.index. cbv zeta. case_bool_decide; [|done].
  destruct (l !! _) as [y|] eqn:Hy; [|done]. intros [= <-].
  by eapply list_elem_of_lookup_2.
Qed.

End PyFacts.

(** ** Utilities *)

Section UtilsProperties.
Import Utils UtilsSpec.

(** C9.  Serialising a [Database] and reading it back keeps
    [output_file_name] and leaves [url] at its default, the empty
    string: the round trip drops the URL. *)
Theorem database_roundtrip (d : Database) :
  from_dict (to_dict d) = Some (mkDatabase "" (output_file_name d)).
Proof.
  unfold from_dict, to_dict.
  rewrite lookup_singleton_eq. reflexivity.
Qed.

Lemma collect_execution_manifests_no_manifest (os : OsEnv) :
  Forall (λ name, is_manifest name = false) (iterdir os) →
  collect_execution_manifests os = None.
Proof.
  unfold collect_execution_manifests.
  induction 1 as [|name names Hname _ IH]; simpl; [done|].
  by rewrite Hname.
Qed.

Lemma foldl_add_transient (item_name : string) (databases : list Database)
    (acc : list Resource) :
  foldl (add_transient item_name) acc databases
  = acc ++ ((λ db, transient_file_resource item_name (output_file_name db))
            <$> filter (λ db, output_file_name db ≠ "") databases).
Proof.
  revert acc. induction databases as [|db dbs IH]; intros acc; simpl.
  - by rewrite app_nil_r.
  - rewrite IH. unfold add_transient, Py.truthy_str.
    destruct (output_file_name db) eqn:Hname.
    + rewrite filter_cons_False by (rewrite Hname; naive_solver). done.
    + rewrite filter_cons_True by (rewrite Hname; done).
      rewrite fmap_cons, Hname, <- app_assoc. done.
Qed.

Lemma is_manifest_false (name : string) :
  ¬ (Py.startswith name EXPORTER_EXECUTION_MANIFEST_FILE_PREFIX = true
     ∧ Py.suffix name = ".json") →
  is_manifest name = false.
Proof.
  intros H. unfold is_manifest.
  destruct (Py.startswith _ _); [|done]. simpl.
  apply bool_decide_eq_false. naive_solver.
Qed.

(** C10.  With no cache ([exported_files] is [None]) and a data directory
    that holds no manifest file (no entry whose name starts with
    [.export-manifest] and whose suffix is [.json]), the resources are one
    transient file resource for each database with a non-empty
    [output_file_name], in the order of the databases, and the returned
    cache is [None]. *)
Theorem exported_files_as_resources_no_manifest (os : OsEnv)
    (item_name data_dir : string) (databases : list Database) :
  Forall (λ name,
            ¬ (Py.startswith name EXPORTER_EXECUTION_MANIFEST_FILE_PREFIX = true
               ∧ Py.suffix name = ".json"))
         (iterdir os) →
  exported_files_as_resources os item_name None data_dir databases
  = ((λ db, transient_file_resource item_name (output_file_name db))
       <$> filter (λ db, output_file_name db ≠ "") databases,
     None).
Proof.
  intros Hdir. unfold exported_files_as_resources.
  rewrite collect_execution_manifests_no_manifest.
  - by rewrite foldl_add_transient.
  - eapply Forall_impl; [exact Hdir|]. apply is_manifest_false.
Qed.

Lemma exported_files_as_resources_no_manifest_witness :
  exported_files_as_resources sample_os "Exporter" None "/data"
    [mkDatabase "sqlite:///a" "a.csv"; mkDatabase "sqlite:///b" "";
     mkDatabase "sqlite:///c" "c.csv"]
  = ([transient_file_resource "Exporter" "a.csv";
      transient_file_resource "Exporter" "c.csv"], None).
Proof.
  apply (exported_files_as_resources_no_manifest sample_os).
  repeat constructor; vm_compute; intros [? ?]; discriminate.
Defined.

(** With a manifest file in the directory the cache is rebuilt from it,
    restricted to the output names of the databases. *)
Example exported_files_as_resources_with_manifest :
  exported_files_as_resources manifest_os "Exporter" None "/data"
    [mkDatabase "sqlite:///a" "a.csv"]
  = ([file_resource_in_pack "Exporter" "a.csv" "/data/output/a.csv"],
     Some {[ "a.csv" := ["/data/output/a.csv"] ]}).
Proof. reflexivity. Qed.

End UtilsProperties.

(** ** List models *)

Section ModelsProperties.
Import Py Models ModelsSpec.

Lemma points_to_extends s s' addrs ls :
  extends s s' → points_to s addrs ls → points_to s' addrs ls.
Proof.
  intros Hext. unfold points_to. induction 1 as [|a l addrs ls [item [Ha Hl]] _ IH].
  - constructor.
  - constructor; [|exact IH].
    destruct (Hext a item Ha) as [item' [Ha' Hl']].
    exists item'. split; [done|congruence].
Qed.

Lemma points_to_labels s addrs ls :
  points_to s addrs ls → label <$> omap (λ a, s !! a) addrs = ls.
Proof.
  induction 1 as [|a l addrs ls [item [Ha Hl]] _ IH]; simpl; [done|].
  rewrite Ha. simpl. rewrite Hl. f_equal. exact IH.
Qed.

Lemma points_to_app s a1 a2 l1 l2 :
  points_to s a1 l1 → points_to s a2 l2 → points_to s (a1 ++ a2) (l1 ++ l2).
Proof. apply Forall2_app. Qed.

Lemma keyed_by_label_extends items s s' :
  extends s s' → keyed_by_label items s → keyed_by_label items s'.
Proof.
  intros Hext Hk l a Hla. destruct (Hk l a Hla) as [item [Ha Hl]].
  destruct (Hext a item Ha) as [item' [Ha' Hl']].
  exists item'. split; [done|congruence].
Qed.

Lemma extends_refl s : extends s s.
Proof. intros a item Ha. eauto. Qed.

Lemma extends_insert s a item resource :
  s !! a = Some item → extends s (<[ a := item_update item resource ]> s).
Proof.
  intros Ha b item' Hb. destruct (decide (a = b)) as [->|Hne].
  - exists (item_update item resource). split.
    + apply list_lookup_insert_eq. by eapply lookup_lt_Some.
    + simpl. congruence.
  - exists item'. split; [|done]. by rewrite list_lookup_insert_ne.
Qed.

Lemma extends_snoc s item : extends s (s ++ [item]).
Proof.
  intros a item' Ha. exists item'. split; [|done].
  by apply lookup_app_l_Some.
Qed.

Lemma items_by_label_keyed (self : FileListModel) :
  keyed_by_label (items_by_label self) (objects self).
Proof.
  unfold items_by_label.
  assert (H : ∀ addrs items, keyed_by_label items (objects self) →
            keyed_by_label
              (foldl (λ items a,
                        match objects self !! a with
                        | Some item => <[ label item := a ]> items
                        | None => items
                        end) items addrs) (objects self)).
  { induction addrs as [|a addrs IH]; intros items Hk; simpl; [done|].
    apply IH. destruct (objects self !! a) as [item|] eqn:Ha; [|done].
    intros l b Hlb. destruct (decide (label item = l)) as [<-|Hne].
    - rewrite lookup_insert_eq in Hlb. injection Hlb as <-. eauto.
    - rewrite lookup_insert_ne in Hlb by done. by apply Hk. }
  apply H. intros l a Hla. by rewrite lookup_empty in Hla.
Qed.

Lemma from_resource_label resource l item :
  _file_label resource = Return l → from_resource resource = Return item →
  label item = l.
Proof.
  intros Hl Hitem. unfold from_resource in Hitem. rewrite Hl in Hitem.
  unfold _file_label in Hl.
  destruct (decide (type_ resource = "file")); [by simplify_eq/=|].
  destruct (decide (type_ resource = "database")); [by simplify_eq/=|].
  destruct (decide (type_ resource = "transient_file")); [by simplify_eq/=|].
  destruct (decide (type_ resource = "file_pattern")); [by simplify_eq/=|].
  discriminate.
Qed.

Lemma update_step_spec invalid items st resource st' lu ln :
  update_step invalid items st resource = Return st' →
  keyed_by_label items (store st) →
  points_to (store st) (updated st) lu →
  points_to (store st) (new st) ln →
  extends (store st) (store st') ∧
  if decide (type_ resource ∈ invalid)
  then points_to (store st') (updated st') lu
       ∧ points_to (store st') (new st') ln
  else ∃ l, _file_label resource = Return l ∧
        if decide (is_Some (items !! l))
        then points_to (store st') (updated st') (lu ++ [l])
             ∧ points_to (store st') (new st') ln
        else points_to (store st') (updated st') lu
             ∧ points_to (store st') (new st') (ln ++ [l]).
Proof.
  unfold update_step. intros Hstep Hk Hu Hn.
  destruct (decide (type_ resource ∈ invalid)).
  { injection Hstep as <-. split; [apply extends_refl|done]. }
  destruct (_file_label resource) as [l|e] eqn:Hl; [|discriminate].
  simpl in Hstep. destruct (items !! l) as [a|] eqn:Hla.
  - destruct (Hk l a Hla) as [item [Ha Hlab]]. rewrite Ha in Hstep.
    injection Hstep as <-. simpl.
    pose proof (extends_insert (store st) a item resource Ha) as Hext.
    split; [done|]. exists l. split; [done|].
    rewrite decide_True by eauto. split.
    + apply points_to_app; [by eapply points_to_extends|].
      constructor; [|constructor].
      destruct (Hext a item Ha) as [item' [Ha' Hl']].
      exists item'. split; [done|congruence].
    + by eapply points_to_extends.
  - destruct (from_resource resource) as [item|e] eqn:Hitem; [|discriminate].
    simpl in Hstep. injection Hstep as <-. simpl.
    pose proof (extends_snoc (store st) item) as Hext.
    split; [done|]. exists l. split; [done|].
    rewrite decide_False by (rewrite Hla; apply is_Some_None). split.
    + by eapply points_to_extends.
    + apply points_to_app; [by eapply points_to_extends|].
      constructor; [|constructor]. exists item. split.
      * apply list_lookup_middle. done.
      * by eapply from_resource_label.
Qed.

Lemma update_loop_spec invalid items resources : ∀ st st' lu ln,
  update_loop invalid items st resources = Return st' →
  keyed_by_label items (store st) →
  points_to (store st) (updated st) lu →
  points_to (store st) (new st) ln →
  ∃ ls, resource_labels invalid resources = Return <$> ls
    ∧ points_to (store st') (updated st')
        (lu ++ filter (λ l, is_Some (items !! l)) ls)
    ∧ points_to (store st') (new st')
        (ln ++ filter (λ l, ¬ is_Some (items !! l)) ls).
Proof.
  unfold resource_labels.
  induction resources as [|resource rest IH]; intros st st' lu ln Hloop Hk Hu Hn.
  - injection Hloop as <-. exists []. by rewrite !app_nil_r.
  - simpl in Hloop.
    destruct (update_step invalid items st resource) as [st1|e] eqn:Hstep;
      [|discriminate].
    simpl in Hloop.
    destruct (update_step_spec _ _ _ _ _ _ _ Hstep Hk Hu Hn) as [Hext Hcase].
    pose proof (keyed_by_label_extends _ _ _ Hext Hk) as Hk1.
    destruct (decide (type_ resource ∈ invalid)) as [Hin|Hin].
    + destruct Hcase as [Hu1 Hn1].
      destruct (IH _ _ _ _ Hloop Hk1 Hu1 Hn1) as [ls [Hls [Hu' Hn']]].
      exists ls. rewrite filter_cons_False by naive_solver. done.
    + destruct Hcase as [l [Hl Hcase]].
      rewrite filter_cons_True by done. rewrite fmap_cons, Hl.
      destruct (decide (is_Some (items !! l))) as [Hhit|Hmiss];
        destruct Hcase as [Hu1 Hn1];
        destruct (IH _ _ _ _ Hloop Hk1 Hu1 Hn1) as [ls [Hls [Hu' Hn']]];
        exists (l :: ls); rewrite Hls; (split; [done|]).
      * rewrite filter_cons_True by done.
        rewrite filter_cons_False by naive_solver.
        by rewrite <- app_assoc in Hu'.
      * rewrite filter_cons_False by done.
        rewrite filter_cons_True by done.
        by rewrite <- app_assoc in Hn'.
Qed.

(** The labels after [update]: first the labels of the resources that hit
    an item of the model, then the labels of those that did not, each in
    the order of the resources. *)
Lemma update_labels (self self' : FileListModel)
    (resources : list ProjectItemResource) :
  update self resources = Return self' →
  ∃ ls, resource_labels (_invalid_resource_types self) resources = Return <$> ls
    ∧ labels self'
      = filter (λ l, is_Some (items_by_label self !! l)) ls
        ++ filter (λ l, ¬ is_Some (items_by_label self !! l)) ls.
Proof.
  unfold update. intros Hupd.
  destruct (update_loop _ _ _ resources) as [st|e] eqn:Hloop; [|discriminate].
  injection Hupd as <-.
  destruct (update_loop_spec _ _ _ _ _ [] [] Hloop) as [ls [Hls [Hu Hn]]].
  - apply items_by_label_keyed.
  - constructor.
  - constructor.
  - exists ls. split; [done|]. unfold labels, files. simpl.
    apply points_to_labels. by apply points_to_app.
Qed.

(** C5 (amended).  When the resources that [update] does not skip have
    pairwise distinct labels, the labels of the file items are pairwise
    distinct after [update] returns, whatever the model held before. *)
Theorem update_labels_distinct (self self' : FileListModel)
    (resources : list ProjectItemResource) :
  NoDup (resource_labels (_invalid_resource_types self) resources) →
  update self resources = Return self' →
  NoDup (labels self').
Proof.
  intros Hnd Hupd.
  destruct (update_labels _ _ _ Hupd) as [ls [Hls ->]].
  rewrite Hls in Hnd. apply NoDup_fmap_1 in Hnd.
  apply NoDup_app. split; [by apply NoDup_filter|].
  split; [|by apply NoDup_filter].
  intros l [Hhit _]%list_elem_of_filter [Hmiss _]%list_elem_of_filter. done.
Qed.

Lemma enumerate_from_app {A} (l1 l2 : list A) : ∀ k,
  enumerate_from k (l1 ++ l2)
  = enumerate_from k l1 ++ enumerate_from (k + Z.of_nat (length l1)) l2.
Proof.
  induction l1 as [|x l1 IH]; intros k; simpl.
  - by rewrite Z.add_0_r.
  - rewrite IH. do 3 f_equal. lia.
Qed.

Lemma unselected_shift {A} (rows : list Z) (row : Z) (l : list A) : ∀ k,
  (filter (λ p, (p.1 + row)%Z ∉ rows) (enumerate_from k l)).*2
  = unselected rows (k + row) l.
Proof.
  unfold unselected. induction l as [|x l IH]; intros k; simpl; [done|].
  specialize (IH (k + 1)%Z). replace (k + 1 + row)%Z with (k + row + 1)%Z in IH by lia.
  destruct (decide ((k + row)%Z ∈ rows)) as [Hin|Hin].
  - rewrite !filter_cons_False by (simpl; naive_solver). done.
  - rewrite !filter_cons_True by done. rewrite !fmap_cons. f_equal. exact IH.
Qed.

Lemma unselected_nil {A} (l : list A) : ∀ k, unselected [] k l = l.
Proof.
  unfold unselected. induction l as [|x l IH]; intros k; [done|].
  cbn [enumerate_from].
  rewrite filter_cons_True by (simpl; apply not_elem_of_nil).
  rewrite fmap_cons. simpl. f_equal. apply IH.
Qed.

Lemma unselected_app {A} (rows : list Z) (k : Z) (l1 l2 : list A) :
  unselected rows k (l1 ++ l2)
  = unselected rows k l1 ++ unselected rows (k + Z.of_nat (length l1)) l2.
Proof.
  unfold unselected. by rewrite enumerate_from_app, filter_app, fmap_app.
Qed.

Lemma unselected_below {A} (rows : list Z) (r : Z) (l : list A) : ∀ k,
  (r < k)%Z → unselected (r :: rows) k l = unselected rows k l.
Proof.
  unfold unselected. induction l as [|x l IH]; intros k Hk; simpl; [done|].
  specialize (IH (k + 1)%Z ltac:(lia)).
  destruct (decide (k ∈ rows)) as [Hin|Hin].
  - rewrite !filter_cons_False by (simpl; set_solver). done.
  - rewrite filter_cons_True by (simpl; apply not_elem_of_cons; split; [lia|done]).
    rewrite filter_cons_True by done.
    rewrite !fmap_cons. f_equal. exact IH.
Qed.

(** Taking one more row out of the unselected elements removes exactly
    the element at that row. *)
Lemma unselected_cons {A} (rows : list Z) (l : list A) : ∀ (k : Z) (i : nat) (x : A),
  l !! i = Some x → (k + Z.of_nat i)%Z ∉ rows →
  unselected rows k l ≡ₚ x :: unselected ((k + Z.of_nat i)%Z :: rows) k l.
Proof.
  induction l as [|y l IH]; intros k i x Hi Hr; [done|].
  destruct i as [|i]; simpl in Hi.
  - injection Hi as ->. rewrite Z.add_0_r in *.
    unfold unselected. simpl.
    rewrite filter_cons_True by done.
    rewrite filter_cons_False by (simpl; set_solver).
    simpl. constructor. fold (unselected rows (k + 1) l).
    fold (unselected (k :: rows) (k + 1) l).
    by rewrite unselected_below by lia.
  - replace (k + Z.of_nat (S i))%Z with ((k + 1) + Z.of_nat i)%Z in * by lia.
    specialize (IH (k + 1)%Z i x Hi Hr).
    unfold unselected in *. simpl.
    destruct (decide (k ∈ rows)) as [Hin|Hin].
    + rewrite !filter_cons_False by (simpl; set_solver). done.
    + rewrite filter_cons_True by done.
      rewrite filter_cons_True by (simpl; apply not_elem_of_cons; split; [lia|done]).
      rewrite !fmap_cons. simpl. rewrite IH. apply perm_swap.
Qed.

Lemma index_in_range {A} (l : list A) (k : Z) :
  (0 ≤ k < Z.of_nat (length l))%Z →
  ∃ x, index l k = Return x ∧ l !! Z.to_nat k = Some x.
Proof.
  intros Hk. unfold index. cbv zeta.
  rewrite (bool_decide_eq_false_2 (k < 0)%Z) by lia.
  rewrite bool_decide_eq_true_2 by lia.
  destruct (lookup_lt_is_Some_2 l (Z.to_nat k)) as [x Hx]; [lia|].
  rewrite Hx. eauto.
Qed.

(** The selected rows, read in the order given, together with the
    unselected elements make up the whole list. *)
Lemma selected_unselected {A} (l : list A) (rows : list Z) :
  NoDup rows → Forall (λ k, 0 ≤ k < Z.of_nat (length l))%Z rows →
  ∃ body, mapM (index l) rows = Return body ∧ body ++ unselected rows 0 l ≡ₚ l.
Proof.
  induction 1 as [|k rows Hk Hnd IH]; intros Hrange.
  - exists []. split; [done|]. simpl. by rewrite unselected_nil.
  - apply Forall_cons in Hrange as [Hk0 Hrange].
    destruct (IH Hrange) as [body [Hbody Hperm]].
    destruct (index_in_range l k Hk0) as [x [Hx Hlx]].
    exists (x :: body). split.
    + simpl. rewrite Hx. simpl. rewrite Hbody. done.
    + rewrite <- Hperm at 2.
      rewrite (unselected_cons rows l 0 (Z.to_nat k) x Hlx)
        by (rewrite Z.add_0_l, Z2Nat.id by lia; done).
      rewrite Z.add_0_l, Z2Nat.id by lia.
      simpl. by rewrite Permutation_middle.
Qed.

(** [int] on the decimal text of a number, and [split] on texts joined
    by the separator. *)
Lemma digits_digit (c : ascii) (d acc : Z) (after_digit : bool) (s : string) :
  c ≠ "_"%char → digit c = Some d →
  digits acc after_digit (String c s) = digits (10 * acc + d) true s.
Proof. intros Hc Hd. cbn [digits]. by rewrite decide_False, Hd by done. Qed.

Lemma digits_uint_acc (d : Decimal.uint) :
  ∀ acc, digits (Z.pos acc) true (NilEmpty.string_of_uint d)
         = Some (Z.pos (Pos.of_uint_acc d acc)).
Proof.
  induction d as [|d IH|d IH|d IH|d IH|d IH|d IH|d IH|d IH|d IH|d IH];
    intros acc; [done|..];
    cbn [NilEmpty.string_of_uint Pos.of_uint_acc];
    (erewrite digits_digit; [|done|vm_compute; reflexivity]);
    rewrite <- IH; f_equal; lia.
Qed.

Lemma digits_uint (d : Decimal.uint) (after_digit : bool) :
  (d = Decimal.Nil → after_digit = true) →
  digits 0 after_digit (NilEmpty.string_of_uint d)
  = Some (Z.of_N (Pos.of_uint d)).
Proof.
  revert after_digit.
  induction d as [|d IH|d IH|d IH|d IH|d IH|d IH|d IH|d IH|d IH|d IH];
    intros after_digit Hnil.
  - by rewrite Hnil.
  - cbn [NilEmpty.string_of_uint Pos.of_uint].
    erewrite digits_digit; [|done|vm_compute; reflexivity]. by apply IH.
  - cbn [NilEmpty.string_of_uint Pos.of_uint].
    erewrite digits_digit; [|done|vm_compute; reflexivity]. apply (digits_uint_acc d 1).
  - cbn [NilEmpty.string_of_uint Pos.of_uint].
    erewrite digits_digit; [|done|vm_compute; reflexivity]. apply (digits_uint_acc d 2).
  - cbn [NilEmpty.string_of_uint Pos.of_uint].
    erewrite digits_digit; [|done|vm_compute; reflexivity]. apply (digits_uint_acc d 3).
  - cbn [NilEmpty.string_of_uint Pos.of_uint].
    erewrite digits_digit; [|done|vm_compute; reflexivity]. apply (digits_uint_acc d 4).
  - cbn [NilEmpty.string_of_uint Pos.of_uint].
    erewrite digits_digit; [|done|vm_compute; reflexivity]. apply (digits_uint_acc d 5).
  - cbn [NilEmpty.string_of_uint Pos.of_uint].
    erewrite digits_digit; [|done|vm_compute; reflexivity]. apply (digits_uint_acc d 6).
  - cbn [NilEmpty.string_of_uint Pos.of_uint].
    erewrite digits_digit; [|done|vm_compute; reflexivity]. apply (digits_uint_acc d 7).
  - cbn [NilEmpty.string_of_uint Pos.of_uint].
    erewrite digits_digit; [|done|vm_compute; reflexivity]. apply (digits_uint_acc d 8).
  - cbn [NilEmpty.string_of_uint Pos.of_uint].
    erewrite digits_digit; [|done|vm_compute; reflexivity]. apply (digits_uint_acc d 9).
Qed.

Lemma rstrip_cons (c : ascii) (s : string) :
  is_space c = false → rstrip s = s → rstrip (String c s) = String c s.
Proof.
  intros Hc Hs. cbn [rstrip]. rewrite Hs, Hc. by destruct s.
Qed.

Lemma rstrip_uint (d : Decimal.uint) :
  rstrip (NilEmpty.string_of_uint d) = NilEmpty.string_of_uint d.
Proof.
  induction d; [done|..]; cbn [NilEmpty.string_of_uint];
    by apply rstrip_cons.
Qed.

Lemma free_of_uint (d : Decimal.uint) :
  free_of ";" (NilEmpty.string_of_uint d).
Proof. induction d; [done|..]; by split. Qed.

(** [int] reads what [str] writes. *)
Lemma int_str (k : Z) : (0 ≤ k)%Z → int (str k) = Return k.
Proof.
  intros Hk. destruct k as [|p|p]; [done| |lia].
  unfold str. cbn [Z.to_int NilZero.string_of_int].
  pose proof (Unsigned.to_uint_nonnil p) as Hnil.
  pose proof (Unsigned.of_to p) as Hp.
  pose proof (digits_uint (Pos.to_uint p) false) as Hd.
  pose proof (rstrip_uint (Pos.to_uint p)) as Hr.
  unfold int.
  destruct (Pos.to_uint p) as [|d|d|d|d|d|d|d|d|d|d]; [done|..];
    cbn [NilZero.string_of_uint NilEmpty.string_of_uint lstrip] in *;
    change (is_space _) with false; cbv iota; rewrite Hr;
    rewrite Hd by done; by rewrite Hp.
Qed.

Lemma str_free_of (k : Z) : (0 ≤ k)%Z → free_of ";" (str k).
Proof.
  intros Hk. destruct k as [|p|p]; [by split| |lia].
  unfold str. cbn [Z.to_int NilZero.string_of_int].
  pose proof (Unsigned.to_uint_nonnil p) as Hnil.
  pose proof (free_of_uint (Pos.to_uint p)) as Hf.
  by destruct (Pos.to_uint p).
Qed.

Lemma split_go_last (w : string) :
  free_of ";" w → split_go ";;" 0 w = [w].
Proof.
  induction w as [|a w IH]; [done|]. intros [Ha Hw].
  cbn [split_go].
  change (String.prefix ";;" (String a w))
    with (if ascii_dec ";" a then String.prefix ";" w else false).
  destruct (ascii_dec ";" a) as [<-|_]; [done|].
  by rewrite IH.
Qed.

Lemma split_go_piece (w rest : string) :
  free_of ";" w →
  split_go ";;" 0 (w +:+ ";;" +:+ rest) = w :: split_go ";;" 0 rest.
Proof.
  induction w as [|a w IH].
  - intros _. change ("" +:+ ";;" +:+ rest) with (String ";" (String ";" rest)).
    cbn [split_go].
    change (String.prefix ";;" (String ";" (String ";" rest)))
      with (String.prefix "" rest).
    by destruct rest.
  - intros [Ha Hw].
    change (String a w +:+ ";;" +:+ rest) with (String a (w +:+ ";;" +:+ rest)).
    cbn [split_go].
    change (String.prefix ";;" (String a (w +:+ ";;" +:+ rest)))
      with (if ascii_dec ";" a then String.prefix ";" (w +:+ ";;" +:+ rest)
            else false).
    destruct (ascii_dec ";" a) as [<-|_]; [done|].
    by rewrite IH.
Qed.

Lemma split_go_concat (ws : list string) :
  ws ≠ [] → Forall (free_of ";") ws →
  split_go ";;" 0 (String.concat ";;" ws) = ws.
Proof.
  intros Hws Hall. induction Hall as [|w ws Hw Hall IH]; [done|].
  destruct ws as [|w' ws].
  - by apply split_go_last.
  - change (String.concat ";;" (w :: w' :: ws))
      with (w +:+ ";;" +:+ String.concat ";;" (w' :: ws)).
    rewrite split_go_piece by done. by rewrite IH.
Qed.

(** The contents that [mimeData] writes for rows that are not negative
    carry those rows, unless there is no row at all. *)
Lemma rows_of_mimeData (rows : list Z) :
  rows ≠ [] → Forall (λ k, 0 ≤ k)%Z rows →
  rows_of (String.concat ";;" (str <$> rows)) = Return rows.
Proof.
  intros Hrows Hall. unfold rows_of, split. rewrite decide_False by done.
  cbn [mbind outcome_bind]. rewrite split_go_concat.
  - clear Hrows. induction Hall as [|k rows Hk Hall IH]; [done|].
    rewrite fmap_cons. cbn [mapM]. rewrite int_str by done.
    cbn [mbind outcome_bind]. rewrite IH. done.
  - by destruct rows.
  - apply Forall_fmap. eapply Forall_impl; [exact Hall|].
    intros k Hk. by apply str_free_of.
Qed.


(** Data whose text decodes to the head "rows" and to contents that
    carry the rows are dropped as the three slices of the code: the
    unselected arguments before the row, the selected ones in the order
    of the rows, the unselected ones from the row on. *)
Lemma dropMimeData_rows (json : Json) (_args : list string)
    (text contents : string) (rows : list Z) (row : Z) :
  loads json text = Return (JArray [JString "rows"; JString contents]) →
  rows_of contents = Return rows →
  dropMimeData json _args text row
  = (body ← mapM (index _args) rows;
     Return ([(filter (λ p, p.1 ∉ rows) (enumerate (slice_to _args row))).*2
              ++ body
              ++ (filter (λ p, (p.1 + row)%Z ∉ rows)
                    (enumerate (slice_from _args row))).*2], true)).
Proof.
  intros Hloads Hrows. unfold dropMimeData. rewrite Hloads.
  cbn [mbind outcome_bind unpack equals_str split_contents].
  rewrite bool_decide_eq_true_2 by done.
  unfold rows_of in Hrows.
  destruct (split contents ";;") as [pieces|e]; [|discriminate].
  cbn [mbind outcome_bind] in *. rewrite Hrows. done.
Qed.

(** The three slices make up the argument list again. *)
Lemma moved_rows_permutation (_args : list string) (rows : list Z) (row : Z) :
  NoDup rows →
  Forall (λ k, 0 ≤ k < Z.of_nat (length _args))%Z rows →
  (0 ≤ row)%Z →
  ∃ body, mapM (index _args) rows = Return body
    ∧ (filter (λ p, p.1 ∉ rows) (enumerate (slice_to _args row))).*2
      ++ body
      ++ (filter (λ p, (p.1 + row)%Z ∉ rows)
            (enumerate (slice_from _args row))).*2
      ≡ₚ _args.
Proof.
  intros Hnd Hrange Hrow.
  destruct (selected_unselected _args rows Hnd Hrange) as [body [Hbody Hperm]].
  exists body. split; [done|]. unfold enumerate.
  rewrite unselected_shift.
  fold (unselected rows 0 (slice_to _args row)).
  rewrite (Permutation_app_comm body), app_assoc, (Permutation_app_comm _ body).
  rewrite <- Hperm at 3. apply Permutation_app_head.
  rewrite <- (take_drop (slice_bound (length _args) row) _args) at 3.
  rewrite unselected_app. unfold slice_to, slice_from.
  f_equiv. rewrite length_take. unfold slice_bound.
  rewrite bool_decide_eq_false_2 by lia.
  destruct (decide (row ≤ Z.of_nat (length _args))%Z) as [Hle|Hgt].
  - f_equiv. lia.
  - rewrite drop_ge by lia. done.
Qed.

(** C8.  Dropping mime data with head "rows" that carries pairwise
    distinct rows, each a position of the argument list, at an insertion
    row that is not negative (what [canDropMimeData] accepts) emits one
    new argument list, a permutation of the current one, and returns
    [True].  The data carry the rows when their text is the JSON of the
    head and of contents that [split] and [int] read as the rows. *)
Theorem dropMimeData_rows_permutation (json : Json) (_args : list string)
    (text contents : string) (rows : list Z) (row : Z) :
  loads json text = Return (JArray [JString "rows"; JString contents]) →
  rows_of contents = Return rows →
  NoDup rows →
  Forall (λ k, 0 ≤ k < Z.of_nat (length _args))%Z rows →
  (0 ≤ row)%Z →
  ∃ new_args, dropMimeData json _args text row = Return ([new_args], true)
    ∧ new_args ≡ₚ _args.
Proof.
  intros Hloads Hrows Hnd Hrange Hrow.
  destruct (moved_rows_permutation _args rows row Hnd Hrange Hrow)
    as [body [Hbody Hperm]].
  rewrite (dropMimeData_rows json _args text contents rows row Hloads Hrows).
  rewrite Hbody. eexists. split; [reflexivity|exact Hperm].
Qed.

Lemma update_labels_distinct_witness :
  NoDup (resource_labels [] [sample_file "/data/a.csv" "DC"; sample_file "/data/b.csv" "DC"])
  ∧ NoDup [Some "/data/a.csv"; Some "/data/b.csv"].
Proof.
  assert (Hnd : NoDup (resource_labels (_invalid_resource_types sample_model)
                         [sample_file "/data/a.csv" "DC";
                          sample_file "/data/b.csv" "DC"])).
  { apply NoDup_cons. split; [|apply NoDup_singleton].
    intros Hin%list_elem_of_singleton. discriminate. }
  split; [exact Hnd|].
  exact (update_labels_distinct sample_model _
           [sample_file "/data/a.csv" "DC"; sample_file "/data/b.csv" "DC"]
           Hnd eq_refl).
Defined.

(** C5 as stated fails: two resources with the same label (the same file
    offered by two providers) leave two items with that label, although
    the labels were distinct before. *)
Lemma update_duplicates_labels :
  ¬ (∀ self resources self',
       NoDup (labels self) → update self resources = Return self' →
       NoDup (labels self')).
Proof.
  intros H.
  pose proof (H sample_model
                [sample_file "/data/a.csv" "DC 1"; sample_file "/data/a.csv" "DC 2"]
                _ (NoDup_nil_2 : NoDup (labels sample_model)) eq_refl) as Hnd.
  vm_compute in Hnd. apply NoDup_cons in Hnd as [Hin _].
  apply Hin, list_elem_of_singleton. reflexivity.
Qed.

(** The same happens for a label the model already holds: the one item
    is listed twice. *)
Example update_lists_item_twice :
  (λ m, (_files m, labels m))
    <$> (m ← update sample_model [sample_file "/data/a.csv" "DC 1"];
         update m [sample_file "/data/a.csv" "DC 1"; sample_file "/data/a.csv" "DC 2"])
  = Return ([0; 0], [Some "/data/a.csv"; Some "/data/a.csv"]).
Proof. reflexivity. Qed.

Lemma dropMimeData_rows_permutation_witness :
  ∃ new_args,
    dropMimeData sample_json ["-a"; "-b"; "-c"; "-d"]
      (json_text ("rows", "3;;0")) 2
    = Return ([new_args], true)
    ∧ new_args ≡ₚ ["-a"; "-b"; "-c"; "-d"].
Proof.
  apply (dropMimeData_rows_permutation sample_json ["-a"; "-b"; "-c"; "-d"]
           (json_text ("rows", "3;;0")) "3;;0" [3; 0]%Z 2).
  - reflexivity.
  - reflexivity.
  - apply NoDup_cons. split; [|apply NoDup_singleton].
    intros Hin%list_elem_of_singleton. discriminate.
  - repeat constructor; simpl; lia.
  - simpl. lia.
Defined.

(** No mime data carry an empty list of rows: [split] returns at least
    one piece, so the contents are read as at least one row. *)
Lemma rows_of_not_empty (contents : string) : rows_of contents ≠ Return [].
Proof.
  unfold rows_of, split. rewrite decide_False by done.
  cbn [mbind outcome_bind].
  assert (H : ∀ skip s, split_go ";;" skip s ≠ []).
  { intros skip s. revert skip. induction s as [|c s IH]; intros skip; [done|].
    cbn [split_go]. destruct skip; [|apply IH].
    destruct (String.prefix ";;" (String c s)); [done|].
    by destruct (split_go ";;" 0 s). }
  destruct (split_go ";;" 0 contents) as [|piece pieces] eqn:Hs;
    [by apply H in Hs|].
  cbn [mapM]. destruct (int piece); cbn [mbind outcome_bind]; [|done].
  by destruct (mapM int pieces).
Qed.

(** With a [json] module that reads what it writes, the data that
    [mimeData] makes for dragged rows of the list are dropped as a
    permutation of the list, whenever at least one row is dragged. *)
Lemma dropMimeData_mimeData (json : Json) (_args : list string)
    (rows : list Z) (row : Z) :
  (∀ p, loads json (dumps json p) = Return (JArray [JString p.1; JString p.2])) →
  rows ≠ [] →
  NoDup rows →
  Forall (λ k, 0 ≤ k < Z.of_nat (length _args))%Z rows →
  (0 ≤ row)%Z →
  ∃ new_args,
    dropMimeData json _args (mimeData json rows) row = Return ([new_args], true)
    ∧ new_args ≡ₚ _args.
Proof.
  intros Hjson Hrows Hnd Hrange Hrow.
  destruct (moved_rows_permutation _args rows row Hnd Hrange Hrow)
    as [body [Hbody Hperm]].
  rewrite (dropMimeData_rows json _args (mimeData json rows)
             (String.concat ";;" (str <$> rows)) rows row).
  - rewrite Hbody. eexists. split; [reflexivity|exact Hperm].
  - apply Hjson.
  - apply rows_of_mimeData; [done|].
    eapply Forall_impl; [exact Hrange|]. intros k Hk. simpl in Hk. lia.
Qed.

(** The text that [mimeData] makes when no index is dragged has empty
    contents, which [int] does not read: dropping it raises
    [ValueError], whatever the arguments and the row. *)
Lemma dropMimeData_no_rows (json : Json) (_args : list string) (row : Z) :
  loads json (mimeData json [])
  = Return (JArray [JString "rows"; JString ""]) →
  dropMimeData json _args (mimeData json []) row = Raise ValueError.
Proof. intros Hloads. unfold dropMimeData. by rewrite Hloads. Qed.

(** What [mimeData] makes for dragged rows is dropped as those rows. *)
Example dropMimeData_rows_example :
  mimeData sample_json [3; 0]%Z = json_text ("rows", "3;;0")
  ∧ dropMimeData sample_json ["-a"; "-b"; "-c"; "-d"]
      (mimeData sample_json [3; 0]%Z) 2
    = Return ([["-b"; "-d"; "-a"; "-c"]], true).
Proof. split; reflexivity. Qed.

(** A negative insertion row, which [canDropMimeData] refuses, is read as
    a slice bound from the end and can repeat an argument. *)
Example dropMimeData_negative_row :
  dropMimeData sample_json ["-a"; "-b"] (mimeData sample_json [1]%Z) (-1)
  = Return ([["-a"; "-b"; "-b"]], true).
Proof. reflexivity. Qed.

(** Paths are inserted at the row; a text that is no JSON raises what
    [json.loads] raises. *)
Example dropMimeData_paths_example :
  dropMimeData sample_json ["-a"; "-b"]
    (json_text ("paths", "a.csv;;b.csv")) 1
  = Return ([["-a"; "a.csv"; "b.csv"; "-b"]], true)
  ∧ dropMimeData sample_json ["-a"; "-b"] "rows" 1 = Raise ValueError.
Proof. split; reflexivity. Qed.

(** [int] and [split] on concrete values. *)
Example int_examples :
  int "12" = Return 12%Z ∧ int " -7 " = Return (-7)%Z ∧ int "+1_000" = Return 1000%Z
  ∧ int "" = Raise ValueError ∧ int "1__0" = Raise ValueError
  ∧ int "_1" = Raise ValueError ∧ int "- 1" = Raise ValueError
  ∧ int "0x10" = Raise ValueError
  ∧ split "" ";;" = Return [""] ∧ split "3;;0" ";;" = Return ["3"; "0"]
  ∧ split "a;;;b" ";;" = Return ["a"; ";b"] ∧ split "a;;" ";;" = Return ["a"; ""]
  ∧ str 204 = "204" ∧ str (-17) = "-17" ∧ str 0 = "0".
Proof. repeat split; reflexivity. Qed.

End ModelsProperties.

(** ** Merger *)

Section MergerProperties.
Import Py Merger MergerSpec.

(** *** Scoped acquisition *)

Lemma keeps_balance_ret {A} (a : A) : keeps_balance (mret a : M A).
Proof. intros w Hw. exact Hw. Qed.

Lemma keeps_balance_bind {A B} (m : M A) (f : A → M B) :
  keeps_balance m → (∀ a, keeps_balance (f a)) → keeps_balance (m ≫= f).
Proof.
  intros Hm Hf w Hw. unfold mbind, M_bind. specialize (Hm w Hw).
  destruct (m w) as [[a|e] w']; simpl in *; [by apply Hf|done].
Qed.

Lemma keeps_balance_lift {A} (r : outcome A) : keeps_balance (lift r).
Proof. intros w Hw. exact Hw. Qed.

Lemma keeps_balance_get_item : keeps_balance get_item.
Proof. intros w Hw. exact Hw. Qed.

Lemma keeps_balance_set_process p : keeps_balance (set_process p).
Proof. intros w Hw. exact Hw. Qed.

Lemma keeps_balance_emit e :
  (∀ open, replay_context open e = open) → keeps_balance (emit e).
Proof.
  intros He w Hw. unfold balanced, open_contexts in *. simpl.
  by rewrite foldl_app, Hw; simpl.
Qed.

Lemma keeps_balance_push_context u : keeps_balance (push_context u).
Proof.
  intros w Hw. unfold balanced, open_contexts in *. simpl.
  by rewrite foldl_app, Hw.
Qed.

Lemma keeps_balance_enter_context engine resource :
  keeps_balance (enter_context engine resource).
Proof.
  unfold enter_context. apply keeps_balance_bind; [apply keeps_balance_lift|].
  intros u. apply keeps_balance_bind; [apply keeps_balance_push_context|].
  intros _. apply keeps_balance_ret.
Qed.

Lemma keeps_balance_mapM {A B} (f : A → M B) (l : list A) :
  (∀ x, keeps_balance (f x)) → keeps_balance (mapM f l).
Proof.
  intros Hf. induction l as [|x l IH]; simpl.
  - apply keeps_balance_ret.
  - apply keeps_balance_bind; [apply Hf|]. intros y.
    apply keeps_balance_bind; [apply IH|]. intros k. apply keeps_balance_ret.
Qed.

Lemma open_contexts_exit (stack : list string) : ∀ open,
  foldl replay_context (stack ++ open) (Exited <$> stack) = open.
Proof.
  induction stack as [|u stack IH]; intros open; simpl; [done|].
  rewrite decide_True by done. apply IH.
Qed.

(** Closing a balanced stack leaves no context open. *)
Lemma close_releases (w : World) :
  balanced w → open_contexts (trace (close w).2) = [].
Proof.
  unfold balanced, open_contexts. intros Hw. simpl.
  rewrite foldl_app, Hw.
  rewrite <- (app_nil_r (exit_stack w)) at 1. apply open_contexts_exit.
Qed.

Lemma with_ExitStack_releases {A} (body : M A) (w : World) :
  keeps_balance body → open_contexts (trace w) = [] →
  open_contexts (trace (with_ExitStack body w).2) = [].
Proof.
  intros Hbody Hw. unfold with_ExitStack.
  specialize (Hbody (mkWorld (item w) [] (trace w)) Hw).
  destruct (body _) as [r w1]. simpl in *.
  exact (close_releases w1 Hbody).
Qed.

(** Every step of the body of the [with] block keeps the balance. *)
Ltac solve_keeps_balance :=
  repeat first
    [ apply keeps_balance_ret
    | apply keeps_balance_lift
    | apply keeps_balance_get_item
    | apply keeps_balance_set_process
    | apply keeps_balance_push_context
    | apply keeps_balance_enter_context
    | apply keeps_balance_emit; done
    | apply keeps_balance_mapM; intros ?
    | apply keeps_balance_bind; [|intros ?]
    | match goal with
      | |- keeps_balance (if ?b then _ else _) => destruct b
      end ].

(** C3.  Whatever the engine answers, and whether [execute] returns
    success, returns failure or raises, no database context that the call
    entered is still open when the call is over. *)
Theorem execute_releases_contexts (engine : Engine) (self : ExecutableItem)
    (forward_resources backward_resources : list ProjectItemResource) :
  open_contexts
    (trace (execute engine forward_resources backward_resources (initial self)).2)
  = [].
Proof.
  unfold execute, mbind at 1, M_bind at 1. simpl.
  destruct (super_execute engine); simpl; [|done].
  case_bool_decide; [done|].
  apply with_ExitStack_releases; [|done].
  solve_keeps_balance.
Qed.

(** *** The result and the subprocess *)

Lemma bind_run {A B} (m : M A) (f : A → M B) (w : World) :
  (m ≫= f) w
  = match m w with
    | (Return a, w') => f a w'
    | (Raise e, w') => (Raise e, w')
    end.
Proof. reflexivity. Qed.

Lemma enter_context_run (engine : Engine) (resource : ProjectItemResource)
    (w : World) :
  enter_context engine resource w
  = match open_resource engine resource with
    | Return u =>
        (Return u,
         mkWorld (item w) (u :: exit_stack w) (trace w ++ [Entered u]))
    | Raise e => (Raise e, w)
    end.
Proof.
  unfold enter_context. rewrite bind_run. unfold lift.
  by destruct (open_resource engine resource).
Qed.

(** Entering the contexts of a list of resources: the resources are
    opened in order until one raises; the contexts entered so far are on
    the stack and in the trace. *)
Lemma mapM_enter_context (engine : Engine) (resources : list ProjectItemResource) :
  ∀ w, ∃ us,
    mapM (enter_context engine) resources w
    = (mapM (open_resource engine) resources,
       mkWorld (item w) (rev us ++ exit_stack w) (trace w ++ (Entered <$> us)))
    ∧ ∀ us', mapM (open_resource engine) resources = Return us' → us = us'.
Proof.
  induction resources as [|r rs IH]; intros w.
  - exists []. simpl. rewrite app_nil_r.
    split; [by destruct w|by intros ? [= <-]].
  - cbn [mapM]. rewrite bind_run, enter_context_run.
    destruct (open_resource engine r) as [u|e] eqn:Hopen.
    + destruct (IH (mkWorld (item w) (u :: exit_stack w)
                      (trace w ++ [Entered u]))) as [us [Hrun Hus]].
      exists (u :: us). rewrite bind_run, Hrun. cbn [item exit_stack trace].
      unfold mbind at 2 3, outcome_bind.
      destruct (mapM (open_resource engine) rs) as [us'|e].
      * rewrite <- !app_assoc. simpl. rewrite <- !app_assoc. split; [done|].
        intros ? [= <-]. by rewrite (Hus us' eq_refl).
      * rewrite <- !app_assoc. simpl. rewrite <- !app_assoc.
        split; [done|]. intros ? [=].
    + exists []. simpl. rewrite app_nil_r. split; [by destruct w|]. intros ? [=].
Qed.

(** The run of [execute] when the base class lets it proceed and both
    sides have a database: which contexts are entered and exited, which
    process runs and what comes back. *)
Lemma execute_with_databases (engine : Engine) (self : ExecutableItem)
    (forward_resources backward_resources : list ProjectItemResource) :
  super_execute engine = true →
  databases forward_resources ≠ [] → databases backward_resources ≠ [] →
  match mapM (open_resource engine) (databases forward_resources) with
  | Raise e => ∃ us,
      execute engine forward_resources backward_resources (initial self)
      = (Raise e,
         mkWorld self []
           (SuperExecute :: (Entered <$> us) ++ (Exited <$> rev us)))
  | Return fs =>
      match mapM (open_resource engine) (databases backward_resources) with
      | Raise e => ∃ us,
          execute engine forward_resources backward_resources (initial self)
          = (Raise e,
             mkWorld self []
               (SuperExecute :: (Entered <$> fs ++ us)
                  ++ (Exited <$> rev (fs ++ us))))
      | Return ts =>
          let p := merge_process self fs ts in
          execute engine forward_resources backward_resources (initial self)
          = (finish_state <$> index (run_until_complete engine p) 0,
             mkWorld (without_process self) []
               (SuperExecute :: (Entered <$> fs ++ ts)
                  ++ [Started p; Completed p (run_until_complete engine p)]
                  ++ (Exited <$> rev (fs ++ ts))))
      end
  end.
Proof.
  intros Hsuper Hfrom Hto. unfold execute, databases in *.
  rewrite bind_run. cbn [emit initial item exit_stack trace app].
  rewrite Hsuper. cbn [negb].
  rewrite bool_decide_eq_false_2 by tauto.
  unfold with_ExitStack. cbn [item exit_stack trace].
  rewrite bind_run.
  destruct (mapM_enter_context engine (filter is_database forward_resources)
              (mkWorld self [] [SuperExecute])) as [fs0 [Hrun0 Hfs0]].
  rewrite Hrun0. cbn [item exit_stack trace].
  destruct (mapM (open_resource engine) (filter is_database forward_resources))
    as [fs|e].
  2:{ exists fs0. cbn. by rewrite app_nil_r. }
  rewrite <- (Hfs0 fs eq_refl). clear Hfs0. rewrite bind_run.
  destruct (mapM_enter_context engine (filter is_database backward_resources)
              (mkWorld self (rev fs0 ++ [])
                 ([SuperExecute] ++ (Entered <$> fs0)))) as [ts0 [Hrun1 Hts0]].
  rewrite Hrun1. cbn [item exit_stack trace].
  destruct (mapM (open_resource engine) (filter is_database backward_resources))
    as [ts|e].
  2:{ exists ts0. cbn. rewrite app_nil_r, <- rev_app_distr.
      by rewrite fmap_app, <- !app_assoc. }
  rewrite <- (Hts0 ts eq_refl). clear Hts0.
  rewrite app_nil_r, <- rev_app_distr. unfold merge_process, without_process.
  do 5 (rewrite bind_run; unfold get_item, set_process, emit; cbn).
  rewrite bind_run. unfold lift.
  destruct (index _ 0) as [[|]|e]; cbn;
    rewrite fmap_app, <- !app_assoc; reflexivity.
Qed.

Lemma completed_in_run (us vs : list string) (p p' : ReturningProcess)
    (rv rv' : list bool) :
  Completed p' rv'
    ∈ SuperExecute :: (Entered <$> us) ++ [Started p; Completed p rv]
        ++ (Exited <$> vs) →
  p' = p ∧ rv' = rv.
Proof.
  rewrite elem_of_cons, !elem_of_app, !elem_of_cons, elem_of_nil,
    !list_elem_of_fmap.
  intros [?|[[? [? ?]]|[[?|[?|[]]]|[? [? ?]]]]]; simplify_eq. done.
Qed.

Lemma no_merge_without_completion (us vs : list string) :
  ¬ merge_succeeded (SuperExecute :: (Entered <$> us) ++ (Exited <$> vs)).
Proof.
  intros [p [rv [Hin _]]]. revert Hin.
  rewrite elem_of_cons, !elem_of_app, !list_elem_of_fmap.
  intros [?|[[? [? ?]]|[? [? ?]]]]; simplify_eq.
Qed.

(** C1.  In a call with a database resource among the forward and among
    the backward resources, [execute] returns [SUCCESS] exactly when the
    merge subprocess it spawned returned a tuple with a truthy first
    element, and [FAILURE] otherwise; these two are the only values it
    returns.  The call returns (rather than raises) exactly when the base
    class stops it, or every database resource opens and the subprocess
    returns a non-empty tuple. *)
Theorem execute_reports_merge_result (engine : Engine) (self : ExecutableItem)
    (forward_resources backward_resources : list ProjectItemResource)
    (r : outcome ItemExecutionFinishState) (w' : World) :
  databases forward_resources ≠ [] → databases backward_resources ≠ [] →
  execute engine forward_resources backward_resources (initial self) = (r, w') →
  (∀ s, r = Return s →
     (s = SUCCESS ↔ merge_succeeded (trace w'))
     ∧ (s = FAILURE ↔ ¬ merge_succeeded (trace w')))
  ∧ ((∃ s, r = Return s) ↔
     super_execute engine = false
     ∨ ∃ fs ts,
         mapM (open_resource engine) (databases forward_resources) = Return fs
         ∧ mapM (open_resource engine) (databases backward_resources) = Return ts
         ∧ run_until_complete engine (merge_process self fs ts) ≠ []).
Proof.
  intros Hfrom Hto Hrun.
  destruct (super_execute engine) eqn:Hsuper.
  - pose proof (execute_with_databases engine self _ _ Hsuper Hfrom Hto) as Hspec.
    destruct (mapM (open_resource engine) (databases forward_resources))
      as [fs|e].
    2:{ destruct Hspec as [us Hspec]. rewrite Hspec in Hrun.
        injection Hrun as <- <-. split; [intros s [=]|].
        split; [intros [s [=]]|]. intros [[=]|[fs [ts [[=] _]]]]. }
    destruct (mapM (open_resource engine) (databases backward_resources))
      as [ts|e].
    2:{ destruct Hspec as [us Hspec]. rewrite Hspec in Hrun.
        injection Hrun as <- <-. split; [intros s [=]|].
        split; [intros [s [=]]|]. intros [[=]|[fs' [ts [_ [[=] _]]]]]. }
    cbv zeta in Hspec. rewrite Hspec in Hrun. injection Hrun as <- <-.
    cbn [trace]. set (p := merge_process self fs ts).
    destruct (run_until_complete engine p) as [|first rest] eqn:Hrv.
    { split; [intros s [=]|]. split; [intros [s [=]]|].
      intros [[=]|[fs' [ts' [[= <-] [[= <-] Hne]]]]]. fold p in Hne. done. }
    split.
    + intros s [= <-].
      assert (Hiff : merge_succeeded
                (SuperExecute :: (Entered <$> fs ++ ts)
                   ++ [Started p; Completed p (first :: rest)]
                   ++ (Exited <$> rev (fs ++ ts))) ↔ first = true).
      { split.
        - intros [p' [rv' [Hin Hrv']]].
          apply completed_in_run in Hin as [-> ->]. by injection Hrv'.
        - intros ->. exists p, (true :: rest). split; [|done].
          rewrite elem_of_cons, !elem_of_app, !elem_of_cons. tauto. }
      rewrite Hiff. destruct first; simpl; split; split; done.
    + split; [intros _|intros _; eexists; reflexivity].
      right. exists fs, ts. fold p. rewrite Hrv. done.
  - unfold execute in Hrun. rewrite bind_run in Hrun.
    cbn [emit initial item exit_stack trace app] in Hrun.
    rewrite Hsuper in Hrun. injection Hrun as <- <-. cbn [trace].
    pose proof (no_merge_without_completion [] []) as Hno. split.
    + intros s [= <-]. split; split; done.
    + split; [by left|]. intros _. eexists. reflexivity.
Qed.

Lemma execute_reports_merge_result_witness :
  (SUCCESS = SUCCESS ↔
   merge_succeeded
     [SuperExecute;
      Entered "http://127.0.0.1:8000/sqlite:///source.sqlite";
      Entered "http://127.0.0.1:8000/sqlite:///target.sqlite";
      Started sample_process; Completed sample_process [true];
      Exited "http://127.0.0.1:8000/sqlite:///target.sqlite";
      Exited "http://127.0.0.1:8000/sqlite:///source.sqlite"]).
Proof.
  refine (proj1 (proj1 (execute_reports_merge_result sample_engine sample_item
            [mkResource "database" "sqlite:///source.sqlite"]
            [mkResource "database" "sqlite:///target.sqlite"]
            (Return SUCCESS) _ _ _ eq_refl) SUCCESS eq_refl));
    vm_compute; discriminate.
Defined.

(** C2 as stated fails: with no database among the forward resources the
    call reports success and no subprocess was started. *)
Lemma execute_success_without_subprocess :
  ¬ (∀ engine self forward_resources backward_resources w',
       execute engine forward_resources backward_resources (initial self)
       = (Return SUCCESS, w') →
       ∃ p, Started p ∈ trace w').
Proof.
  intros H.
  destruct (H sample_engine sample_item
              [mkResource "file" "file:///data/input.csv"]
              [mkResource "database" "sqlite:///target.sqlite"] _ eq_refl)
    as [p Hp].
  vm_compute in Hp. apply list_elem_of_singleton in Hp. discriminate.
Qed.

(** C2 (amended).  A call of [execute] that reports success with a
    database resource among the forward and among the backward resources
    has, before reporting, run to completion a subprocess on the server
    URLs of the forward (source) and of the backward (target) database
    resources.  When either side has no database resource, no
    subprocess is started, and the call reports success exactly when the
    call of the base class returned a true value, failure otherwise. *)
Theorem execute_success_spawns_merge (engine : Engine) (self : ExecutableItem)
    (forward_resources backward_resources : list ProjectItemResource) :
  let run := execute engine forward_resources backward_resources (initial self) in
  if decide (databases forward_resources = [] ∨ databases backward_resources = [])
  then run.1 = Return (if super_execute engine then SUCCESS else FAILURE)
       ∧ ∀ p, Started p ∉ trace run.2
  else run.1 = Return SUCCESS →
       ∃ fs ts,
         mapM (open_resource engine) (databases forward_resources) = Return fs
         ∧ mapM (open_resource engine) (databases backward_resources) = Return ts
         ∧ Started (merge_process self fs ts) ∈ trace run.2
         ∧ Completed (merge_process self fs ts)
             (run_until_complete engine (merge_process self fs ts)) ∈ trace run.2
         ∧ index (run_until_complete engine (merge_process self fs ts)) 0
           = Return true.
Proof.
  intros run. unfold run. clear run.
  destruct (decide _) as [Hnone|Hboth].
  - unfold execute, databases in *. rewrite bind_run.
    cbn [emit initial item exit_stack trace app].
    destruct (super_execute engine); cbn [negb].
    + rewrite bool_decide_eq_true_2 by done. cbn [fst snd trace].
      split; [done|]. intros p Hp.
      apply list_elem_of_singleton in Hp. discriminate.
    + cbn [fst snd trace]. split; [done|]. intros p Hp.
      apply list_elem_of_singleton in Hp. discriminate.
  - intros Hrun.
    destruct (super_execute engine) eqn:Hsuper.
    2:{ unfold execute in Hrun. rewrite bind_run in Hrun.
        cbn [emit initial item exit_stack trace app] in Hrun.
        rewrite Hsuper in Hrun. discriminate. }
    assert (Hfrom : databases forward_resources ≠ []) by tauto.
    assert (Hto : databases backward_resources ≠ []) by tauto.
    pose proof (execute_with_databases engine self _ _ Hsuper Hfrom Hto) as Hspec.
    destruct (mapM (open_resource engine) (databases forward_resources))
      as [fs|e].
    2:{ destruct Hspec as [us Hspec]. rewrite Hspec in Hrun. discriminate. }
    destruct (mapM (open_resource engine) (databases backward_resources))
      as [ts|e].
    2:{ destruct Hspec as [us Hspec]. rewrite Hspec in Hrun. discriminate. }
    cbv zeta in Hspec. rewrite Hspec in Hrun |- *. cbn [fst snd trace] in *.
    exists fs, ts.
    rewrite !elem_of_cons, !elem_of_app, !elem_of_cons.
    split; [done|]. split; [done|]. split; [tauto|]. split; [tauto|].
    destruct (index _ 0) as [[|]|e]; simpl in Hrun; by simplify_eq.
Qed.

Lemma execute_success_spawns_merge_witness :
  ∃ fs ts,
    mapM (open_resource sample_engine)
      (databases [mkResource "database" "sqlite:///source.sqlite"]) = Return fs
    ∧ mapM (open_resource sample_engine)
        (databases [mkResource "database" "sqlite:///target.sqlite"]) = Return ts
    ∧ Started (merge_process sample_item fs ts)
        ∈ trace (execute sample_engine
                   [mkResource "database" "sqlite:///source.sqlite"]
                   [mkResource "database" "sqlite:///target.sqlite"]
                   (initial sample_item)).2
    ∧ Completed (merge_process sample_item fs ts)
        (run_until_complete sample_engine (merge_process sample_item fs ts))
        ∈ trace (execute sample_engine
                   [mkResource "database" "sqlite:///source.sqlite"]
                   [mkResource "database" "sqlite:///target.sqlite"]
                   (initial sample_item)).2
    ∧ index (run_until_complete sample_engine (merge_process sample_item fs ts)) 0
      = Return true.
Proof.
  exact (execute_success_spawns_merge sample_engine sample_item
           [mkResource "database" "sqlite:///source.sqlite"]
           [mkResource "database" "sqlite:///target.sqlite"] eq_refl).
Defined.

(** Without a database among the forward resources nothing is merged,
    and the result is that of the base class. *)
Example execute_without_databases :
  (execute sample_engine [mkResource "file" "file:///data/input.csv"]
     [mkResource "database" "sqlite:///target.sqlite"] (initial sample_item)).1
  = Return SUCCESS
  ∧ (execute (mkEngine false (open_resource sample_engine)
                (run_until_complete sample_engine))
       [mkResource "file" "file:///data/input.csv"]
       [mkResource "database" "sqlite:///target.sqlite"] (initial sample_item)).1
    = Return FAILURE.
Proof. split; reflexivity. Qed.

(** C4.  [stop_execution] always returns.  When the item holds the
    reference of a running merge subprocess, that subprocess is terminated
    after the base-class call and the item holds no process reference
    afterwards; when it holds none, nothing is terminated and the item is
    unchanged, the base-class call being the only effect. *)
Theorem stop_execution_terminates_process (w : World) :
  ∃ w', stop_execution w = (Return (), w')
    ∧ _process (item w') = None
    ∧ exit_stack w' = exit_stack w
    ∧ match _process (item w) with
      | Some p =>
          trace w' = trace w ++ [SuperStopExecution; Terminated p]
          ∧ item w' = without_process (item w)
      | None =>
          trace w' = trace w ++ [SuperStopExecution] ∧ item w' = item w
      end.
Proof.
  unfold stop_execution. rewrite bind_run. cbn [emit].
  rewrite bind_run. cbn [get_item item exit_stack trace].
  destruct (_process (item w)) as [p|] eqn:Hp.
  - rewrite bind_run. cbn [emit set_process item exit_stack trace].
    eexists. split; [reflexivity|]. cbn [item exit_stack trace _process].
    by rewrite <- app_assoc.
  - eexists. split; [reflexivity|]. cbn [item exit_stack trace]. done.
Qed.

End MergerProperties.

(** ** Tool specification editor *)

Section ToolEditorProperties.
Import Py ToolEditor ToolEditorSpec.

Lemma save_loop_writable (host : Host) (pre rest : list (string * QTextDocument)) :
  all_writable host pre → ∀ st,
  save_loop host (pre ++ rest) st
  = save_loop host rest
      (mkSaveLoop (visited st ++ (mark_saved <$> pre))
         (saved st
          ++ ((λ fd, basename fd.1) <$> filter (λ fd, isModified fd.2 = true) pre))
         (shown st ++ writes pre)).
Proof.
  unfold all_writable, writes.
  induction 1 as [|[file_path doc] pre Hfd _ IH]; intros st.
  - simpl. rewrite !app_nil_r. by destruct st.
  - cbn [app save_loop]. unfold _save_program_file.
    rewrite !fmap_cons. unfold mark_saved at 1. cbn [fst snd] in *.
    destruct (isModified doc) eqn:Hmod; cbn [negb].
    + rewrite (Hfd eq_refl), IH. cbn [visited saved shown].
      rewrite filter_cons_True by done. rewrite !fmap_cons.
      cbn [fst snd]. by rewrite <- !app_assoc.
    + rewrite IH. cbn [visited saved shown].
      rewrite filter_cons_False by (simpl; congruence).
      by rewrite <- !app_assoc.
Qed.

(** C7 (amended).  When the base class saved the specification and the
    write of a modified program file fails, [_save] returns [True]; the
    modified files before the failing one have been written and are
    marked unmodified; the only message is the error that names the
    failing file, so no status-bar message reports the files written; the
    failing document stays modified, and the documents after it are
    neither written nor changed. *)
Theorem save_stops_at_failed_write (host : Host)
    (self : ToolSpecificationEditorWindow)
    (pre post : list (string * QTextDocument)) (file_path err : string)
    (doc : QTextDocument) :
  super_save host = true →
  _programfile_documents self = pre ++ (file_path, doc) :: post →
  all_writable host pre →
  isModified doc = true →
  write host file_path (toPlainText doc) = Some err →
  _save host self
  = (true,
     with_documents self
       ((mark_saved <$> pre) ++ (file_path, doc) :: post)
       (writes pre
        ++ [show_error ("Error while saving " +:+ basename file_path
                        +:+ ": " +:+ err)])).
Proof.
  intros Hsuper Hdocs Hpre Hmod Hwrite. unfold _save.
  rewrite Hsuper, Hdocs. cbn [negb].
  rewrite (save_loop_writable host pre _ Hpre). cbn [visited saved shown app].
  cbn [save_loop]. rewrite Hmod. cbn [negb].
  unfold _save_program_file. rewrite Hwrite. reflexivity.
Qed.

(** When every modified document can be written, all of them are marked
    unmodified and one status-bar message lists them. *)
Lemma save_all_written (host : Host) (self : ToolSpecificationEditorWindow) :
  super_save host = true →
  all_writable host (_programfile_documents self) →
  _save host self
  = (true,
     with_documents self (mark_saved <$> _programfile_documents self)
       (writes (_programfile_documents self)
        ++ match filter (λ fd, isModified fd.2 = true)
                   (_programfile_documents self) with
           | [] => []
           | modified =>
               [_show_status_bar_msg
                  ("Program files "
                   +:+ String.concat ", " ((λ fd, basename fd.1) <$> modified)
                   +:+ " saved successfully")]
           end)).
Proof.
  intros Hsuper Hall. unfold _save. rewrite Hsuper. cbn [negb].
  rewrite <- (app_nil_r (_programfile_documents self)) at 1.
  rewrite (save_loop_writable host _ [] Hall). cbn [save_loop visited saved shown app].
  destruct (filter _ (_programfile_documents self)) as [|fd fds] eqn:Hfilter.
  - unfold writes. rewrite Hfilter. reflexivity.
  - reflexivity.
Qed.

Lemma save_stops_at_failed_write_witness :
  _save sample_host sample_editor
  = (true,
     with_documents sample_editor
       [("/project/tool/main.py", mkDocument false "print(1)");
        ("/project/tool/helper.py", mkDocument true "x = 2");
        ("/project/tool/extra.py", mkDocument true "y = 3")]
       [file_written "/project/tool/main.py" "print(1)";
        show_error
          "Error while saving helper.py: [Errno 13] Permission denied: '/project/tool/helper.py'"]).
Proof.
  apply (save_stops_at_failed_write sample_host sample_editor
           [("/project/tool/main.py", mkDocument true "print(1)")]
           [("/project/tool/extra.py", mkDocument true "y = 3")]
           "/project/tool/helper.py"
           "[Errno 13] Permission denied: '/project/tool/helper.py'"
           (mkDocument true "x = 2")).
  - reflexivity.
  - reflexivity.
  - repeat constructor.
  - reflexivity.
  - reflexivity.
Defined.

(** C7 as stated fails: a file written before the failing one is marked
    unmodified, but no status-bar message reports it. *)
Lemma save_failure_skips_status_message :
  ¬ (∀ host self pre post file_path err doc,
       super_save host = true →
       _programfile_documents self = pre ++ (file_path, doc) :: post →
       all_writable host pre →
       isModified doc = true →
       write host file_path (toPlainText doc) = Some err →
       ∀ fd, fd ∈ pre → isModified fd.2 = true →
         reported (basename fd.1) (effects (_save host self).2)).
Proof.
  intros H.
  destruct (H sample_host sample_editor
              [("/project/tool/main.py", mkDocument true "print(1)")]
              [("/project/tool/extra.py", mkDocument true "y = 3")]
              "/project/tool/helper.py"
              "[Errno 13] Permission denied: '/project/tool/helper.py'"
              (mkDocument true "x = 2")
              eq_refl eq_refl ltac:(repeat constructor) eq_refl eq_refl
              ("/project/tool/main.py", mkDocument true "print(1)")
              ltac:(apply list_elem_of_singleton; reflexivity) eq_refl)
    as [msg [Hmsg _]].
  vm_compute in Hmsg.
  apply elem_of_cons in Hmsg as [Hmsg|Hmsg]; [discriminate|].
  apply list_elem_of_singleton in Hmsg. discriminate.
Qed.

(** *** The undo commands *)

Lemma tooltype_index_listed (host : Host) (value : string) :
  listed host value →
  ∃ k t, tooltype_index host value = Z.of_nat k
         ∧ TOOL_TYPES host !! k = Some t ∧ lower t = value.
Proof.
  unfold listed, tooltype_index. intros Hin.
  apply list_elem_of_fmap in Hin as [t [Ht Hin]].
  destruct (list_find (λ t, lower t = value) (TOOL_TYPES host))
    as [[k t']|] eqn:Hfind.
  - apply list_find_Some in Hfind as (Hk & Hl & _). by exists k, t'.
  - apply list_find_None in Hfind. rewrite Forall_forall in Hfind.
    by destruct (Hfind t Hin).
Qed.

Lemma tooltype_index_unlisted (host : Host) (value : string) :
  ¬ listed host value → tooltype_index host value = (-1)%Z.
Proof.
  unfold listed, tooltype_index. intros Hnot.
  destruct (list_find (λ t, lower t = value) (TOOL_TYPES host))
    as [[k t]|] eqn:Hfind; [|done].
  apply list_find_Some in Hfind as (Hk & Hl & _). destruct Hnot.
  apply list_elem_of_fmap. exists t. split; [done|].
  by eapply list_elem_of_lookup_2.
Qed.

Lemma set_tooltype_fuel_S (host : Host) (value : string)
    (self : ToolSpecificationEditorWindow) (fuel : nat) :
  _set_tooltype_fuel (S fuel) host value self
  = let self := with_tooltype self value in
    let index := tooltype_index host value in
    self ←
      (if decide (index = comboBox_tooltype self) then Some self
       else
         let self := with_comboBox_tooltype self index in
         match Py.index (TOOL_TYPES host) index with
         | Raise _ => Some self
         | Return t =>
             let old_type := default "" (tooltype (spec_dict self)) in
             if decide (lower t = old_type) then Some self
             else
               _set_tooltype_fuel fuel host (lower t)
                 (with_undo_stack self
                    (pushed (tooltype_command (lower t) old_type)
                       (_undo_stack self)))
         end);
    Some (with_spec_dict self
            (clear_execution_settings host value (spec_dict self))).
Proof. reflexivity. Qed.

Lemma tooltype_with_tooltype (self : ToolSpecificationEditorWindow)
    (value : string) (index : Z) :
  default "" (tooltype (spec_dict
                          (with_comboBox_tooltype (with_tooltype self value)
                             index)))
  = value.
Proof. reflexivity. Qed.

Lemma listed_last (host : Host) (t : string) :
  last (TOOL_TYPES host) = Some t → listed host (lower t).
Proof.
  intros Hlast. apply list_elem_of_fmap. exists t. split; [done|].
  rewrite last_lookup in Hlast. by eapply list_elem_of_lookup_2.
Qed.

(** For a listed type the slot of the combo box has nothing to do. *)
Lemma set_tooltype_fuel_listed (host : Host) (value : string)
    (self : ToolSpecificationEditorWindow) (fuel : nat) :
  listed host value →
  _set_tooltype_fuel (S fuel) host value self = Some (settled host value self).
Proof.
  intros Hlisted.
  destruct (tooltype_index_listed host value Hlisted) as (k & t & Hindex & Hk & Ht).
  rewrite set_tooltype_fuel_S. cbv zeta. unfold settled. rewrite Hindex.
  destruct (decide (Z.of_nat k = _)) as [Heq|Hne].
  - cbn [mbind option_bind]. f_equal.
    change (comboBox_tooltype (with_tooltype self value))
      with (comboBox_tooltype self) in Heq.
    unfold with_tooltype. destruct self. simpl in *. by subst.
  - rewrite index_of_nat, Hk, tooltype_with_tooltype.
    by rewrite decide_True by done.
Qed.

Lemma set_tooltype_listed (host : Host) (value : string)
    (self : ToolSpecificationEditorWindow) :
  listed host value → _set_tooltype host value self = settled host value self.
Proof.
  intros Hlisted. unfold _set_tooltype.
  by rewrite set_tooltype_fuel_listed.
Qed.

(** For a type that is not listed the combo box loses its selection; if
    it had one, its slot pushes a command to the last tool type. *)
Lemma set_tooltype_fuel_unlisted (host : Host) (value : string)
    (self : ToolSpecificationEditorWindow) (fuel : nat) :
  ¬ listed host value →
  _set_tooltype_fuel (S (S fuel)) host value self
  = Some (if decide (comboBox_tooltype self = (-1)%Z)
          then settled host value self
          else match last (TOOL_TYPES host) with
               | Some t => reselected host value t self
               | None => settled host value self
               end).
Proof.
  intros Hnot. pose proof (tooltype_index_unlisted host value Hnot) as Hindex.
  rewrite set_tooltype_fuel_S. cbv zeta. unfold settled, reselected.
  rewrite Hindex.
  change (comboBox_tooltype (with_tooltype self value))
    with (comboBox_tooltype self).
  destruct (decide ((-1)%Z = comboBox_tooltype self)) as [Heq|Hne].
  - rewrite decide_True by done. cbn [mbind option_bind]. f_equal.
    unfold with_tooltype. destruct self. simpl in *. by subst.
  - rewrite decide_False by congruence.
    rewrite index_minus_one, Nat.sub_1_r, <- last_lookup.
    destruct (last (TOOL_TYPES host)) as [t|] eqn:Hlast; [|done].
    rewrite tooltype_with_tooltype.
    rewrite decide_False
      by (intros Heq; apply Hnot; rewrite <- Heq; by apply listed_last).
    rewrite set_tooltype_fuel_listed by (by apply listed_last).
    done.
Qed.

(** Fuel for two calls is enough for [_set_tooltype], and more changes
    nothing. *)
Lemma set_tooltype_fuel (host : Host) (value : string)
    (self : ToolSpecificationEditorWindow) (fuel : nat) :
  _set_tooltype_fuel (S (S fuel)) host value self
  = Some (_set_tooltype host value self).
Proof.
  unfold _set_tooltype. destruct (decide (listed host value)) as [Hl|Hn].
  - by rewrite !set_tooltype_fuel_listed.
  - by rewrite !set_tooltype_fuel_unlisted.
Qed.

Lemma set_tooltype_unlisted (host : Host) (value : string)
    (self : ToolSpecificationEditorWindow) :
  ¬ listed host value →
  _set_tooltype host value self
  = if decide (comboBox_tooltype self = (-1)%Z)
    then settled host value self
    else match last (TOOL_TYPES host) with
         | Some t => reselected host value t self
         | None => settled host value self
         end.
Proof.
  intros Hnot. unfold _set_tooltype.
  by rewrite set_tooltype_fuel_unlisted.
Qed.

Lemma call_quiet_undo_stack (host : Host) (cb : Callback) (v : Value)
    (self : ToolSpecificationEditorWindow) :
  quiet host cb v → _undo_stack (call host cb v self) = _undo_stack self.
Proof.
  destruct cb, v; try done. cbn [quiet call]. intros Hl.
  by rewrite set_tooltype_listed.
Qed.

Lemma call_quiet_with_undo_stack (host : Host) (cb : Callback) (v : Value)
    (self : ToolSpecificationEditorWindow) (st : QUndoStack) :
  quiet host cb v →
  call host cb v (with_undo_stack self st)
  = with_undo_stack (call host cb v self) st.
Proof.
  destruct cb, v; try done. cbn [quiet call]. intros Hl.
  by rewrite !set_tooltype_listed.
Qed.

(** Undoing right after a push runs the command forwards and backwards
    and leaves it on the stack as the next one to redo. *)
Lemma undo_push (host : Host) (cmd : ChangeSpecPropertyCommand)
    (self : ToolSpecificationEditorWindow) :
  quiet host (callback cmd) (new_value cmd) →
  let kept := take (stack_index (_undo_stack self)) (commands (_undo_stack self)) in
  undo_stack_undo host (push host cmd self)
  = undo host cmd
      (with_undo_stack (redo host cmd self)
         (mkUndoStack (kept ++ [cmd]) (length kept))).
Proof.
  intros Hquiet kept. unfold undo_stack_undo, push, redo.
  rewrite call_quiet_undo_stack by done.
  cbn [with_undo_stack _undo_stack stack_index commands].
  fold kept. rewrite list_lookup_middle by done.
  f_equal. rewrite call_quiet_with_undo_stack by done. done.
Qed.

(** The slot as the signal of the combo box runs it inside
    [_set_tooltype]: the definition by fuel is the body of the source
    with the call of [_push_change_tooltype_command] in its place. *)
Lemma set_tooltype_unfold (host : Host) (value : string)
    (self : ToolSpecificationEditorWindow) :
  _set_tooltype host value self
  = let self := with_tooltype self value in
    let index := tooltype_index host value in
    let self :=
      if decide (index = comboBox_tooltype self) then self
      else
        match _push_change_tooltype_command host index
                (with_comboBox_tooltype self index) with
        | Return self => self
        | Raise _ => with_comboBox_tooltype self index
        end in
    with_spec_dict self (clear_execution_settings host value (spec_dict self)).
Proof.
  cbv zeta. unfold _push_change_tooltype_command.
  change (comboBox_tooltype (with_tooltype self value))
    with (comboBox_tooltype self).
  destruct (decide (listed host value)) as [Hl|Hn].
  - rewrite set_tooltype_listed by done.
    destruct (tooltype_index_listed host value Hl) as (k & t & Hindex & Hk & Ht).
    unfold settled. rewrite Hindex.
    destruct (decide (Z.of_nat k = _)) as [Heq|Hne].
    + unfold with_tooltype in *. destruct self. simpl in *. by subst.
    + rewrite index_of_nat, Hk. cbn [mbind outcome_bind].
      rewrite tooltype_with_tooltype. by rewrite decide_True by done.
  - rewrite set_tooltype_unlisted by done.
    rewrite (tooltype_index_unlisted host value Hn).
    destruct (decide ((-1)%Z = comboBox_tooltype self)) as [Heq|Hne].
    + rewrite decide_True by done. unfold settled.
      rewrite (tooltype_index_unlisted host value Hn).
      unfold with_tooltype. destruct self. simpl in *. by subst.
    + rewrite decide_False by congruence.
      rewrite index_minus_one, Nat.sub_1_r, <- last_lookup.
      destruct (last (TOOL_TYPES host)) as [t|] eqn:Hlast.
      * cbn [mbind outcome_bind]. rewrite tooltype_with_tooltype.
        rewrite decide_False
          by (intros Heq; apply Hn; rewrite <- Heq; by apply listed_last).
        unfold push, redo. cbn [callback new_value call].
        rewrite set_tooltype_listed by (by apply listed_last). done.
      * unfold settled. by rewrite (tooltype_index_unlisted host value Hn).
Qed.

(** Tool type: a command is pushed exactly when the type changes, it
    stores the new and the old type, and undoing it brings the old type
    back when that type is one of the tool types. *)
Lemma push_change_tooltype_undo (host : Host) (index : Z) (t : string)
    (self self' : ToolSpecificationEditorWindow) :
  Py.index (TOOL_TYPES host) index = Return t →
  _push_change_tooltype_command host index self = Return self' →
  let old_type := default "" (tooltype (spec_dict self)) in
  if decide (lower t = old_type)
  then self' = self
  else commands (_undo_stack self')
       = take (stack_index (_undo_stack self)) (commands (_undo_stack self))
         ++ [mkCommand cb_set_tooltype (VStr (lower t)) (VStr old_type)
               "change Tool specification type"]
       ∧ tooltype (spec_dict self') = Some (lower t)
       ∧ (listed host old_type →
          tooltype (spec_dict (undo_stack_undo host self')) = Some old_type).
Proof.
  intros Ht. unfold _push_change_tooltype_command. rewrite Ht.
  cbn [mbind outcome_bind]. intros Hpush. cbv zeta.
  assert (Hlisted : listed host (lower t)).
  { apply list_elem_of_fmap. exists t. split; [done|].
    by eapply index_elem_of. }
  destruct (decide (lower t = _)); injection Hpush as <-; [done|].
  split; [|split].
  - unfold push, redo. cbn [callback new_value call].
    by rewrite set_tooltype_listed.
  - unfold push, redo. cbn [callback new_value call].
    by rewrite set_tooltype_listed.
  - intros Hold. rewrite undo_push by done.
    unfold undo, redo. cbn [callback new_value old_value call].
    by rewrite !set_tooltype_listed.
Qed.

(** Command line arguments: the same. *)
Lemma push_change_args_undo (host : Host) (self : ToolSpecificationEditorWindow) :
  let old_value := default [] (cmdline_args (spec_dict self)) in
  let new_value := split_cmdline_args host (lineEdit_args self) in
  let self' := _push_change_args_command host self in
  if decide (new_value = old_value)
  then self' = self
  else commands (_undo_stack self')
       = take (stack_index (_undo_stack self)) (commands (_undo_stack self))
         ++ [mkCommand cb_set_cmdline_args (VList new_value) (VList old_value)
               "change command line args"]
       ∧ cmdline_args (spec_dict self') = Some new_value
       ∧ cmdline_args (spec_dict (undo_stack_undo host self')) = Some old_value.
Proof.
  intros old_value new_value self'. unfold self', _push_change_args_command.
  fold old_value new_value.
  destruct (decide (new_value = old_value)); [done|].
  rewrite undo_push by done. done.
Qed.

(** Input files: a command with both lists is pushed whenever a name is
    given, and undoing it brings the old list back. *)
Lemma add_inputfiles_undo (host : Host) (file_name : string)
    (self : ToolSpecificationEditorWindow) :
  file_name ≠ "" →
  let old_files := default [] (inputfiles (spec_dict self)) in
  let self' := add_inputfiles host file_name self in
  commands (_undo_stack self')
  = take (stack_index (_undo_stack self)) (commands (_undo_stack self))
    ++ [mkCommand cb_populate_inputfiles_list (VList (old_files ++ [file_name]))
          (VList old_files) "add input file"]
  ∧ inputfiles (spec_dict self') = Some (old_files ++ [file_name])
  ∧ inputfiles (spec_dict (undo_stack_undo host self')) = Some old_files.
Proof.
  intros Hname old_files self'. unfold self', add_inputfiles.
  destruct file_name; [done|]. cbn [truthy_str]. fold old_files.
  rewrite undo_push by done. done.
Qed.

(** C6.  The undo pattern fails for the program files of an editor that
    has none: adding a file pushes a command that stores the new list and
    the old, empty, list on the undo stack, but undoing that command
    leaves a program file list with one empty entry and an empty main
    path, where there were no program files and no main path. *)
Theorem undo_add_program_files_not_restored (host : Host) :
  let added := add_program_files host ["/x/a.py"] new_editor in
  let undone := undo_stack_undo host added in
  program_files new_editor = [] ∧ includes_main_path new_editor = None
  ∧ commands (_undo_stack added)
    = [mkCommand cb_set_program_files (VList ["/x/a.py"]) (VList [])
         "add program files"]
  ∧ program_files added = ["/x/a.py"]
  ∧ includes (spec_dict undone) = Some [""]
  ∧ includes_main_path undone = Some ""
  ∧ program_files undone = [""]
  ∧ program_files undone ≠ program_files new_editor.
Proof. repeat split; try reflexivity. discriminate. Qed.

(** Removing all program files leaves the same empty entry behind. *)
Example remove_all_program_files_leaves_entry (host : Host) :
  let self :=
    _set_program_files host ["/x/main.py"] new_editor in
  program_files self = ["/x/main.py"]
  ∧ program_files (remove_all_program_files host ["main.py"] self) = [""].
Proof. split; reflexivity. Qed.

(** After that undo the editor no longer accepts the file it accepted
    before: the empty main path makes the validation reject it. *)
Example add_after_undo_rejected :
  let undone :=
    undo_stack_undo sample_host
      (add_program_files sample_host ["/x/a.py"] new_editor) in
  program_files (add_program_files sample_host ["/x/a.py"] undone) = [""]
  ∧ effects (add_program_files sample_host ["/x/a.py"] undone)
    = [_show_status_bar_msg "Program file(s) 'a.py' not in main directory"].
Proof. split; reflexivity. Qed.

End ToolEditorProperties.

(** ** Utilities: manifests and the cache *)

Section UtilsMore.
Import Utils UtilsSpec UtilsCacheSpec.

Lemma collect_as_fold (os : OsEnv) :
  collect_execution_manifests os = foldl extend_manifest None (manifest_items os).
Proof.
  unfold collect_execution_manifests, manifest_items.
  generalize (@None (gmap string (list string))).
  induction (iterdir os) as [|name names IH]; intros acc; [done|]. simpl.
  destruct (is_manifest name) eqn:Hname.
  - rewrite filter_cons_True by done. rewrite fmap_cons. simpl.
    rewrite foldl_app. apply IH.
  - rewrite filter_cons_False by (by rewrite Hname). apply IH.
Qed.

Lemma paths_of_absent (k : string) (items : list (string * list string)) :
  k ∉ items.*1 → paths_of k items = [].
Proof.
  unfold paths_of. induction items as [|[key paths] items IH]; [done|].
  rewrite fmap_cons, not_elem_of_cons. cbn [fst]. intros [Hne Hin].
  rewrite filter_cons_False by (cbn [fst]; congruence). by apply IH.
Qed.

Lemma paths_of_snoc (k key : string) (paths : list string)
    (items : list (string * list string)) :
  paths_of k (items ++ [(key, paths)])
  = paths_of k items ++ (if decide (key = k) then paths else []).
Proof.
  unfold paths_of. rewrite filter_app, fmap_app, concat_app. f_equal.
  destruct (decide (key = k)) as [Heq|Hne].
  - rewrite filter_cons_True by done. simpl. by rewrite app_nil_r.
  - by rewrite filter_cons_False.
Qed.

Lemma foldl_extend_manifest (items : list (string * list string)) :
  match foldl extend_manifest None items with
  | None => items = []
  | Some m =>
      items ≠ []
      ∧ ∀ k, m !! k
             = if decide (k ∈ items.*1) then Some (paths_of k items) else None
  end.
Proof.
  induction items as [|[key paths] items IH] using rev_ind; [done|].
  rewrite foldl_app. cbn [foldl].
  set (acc := foldl extend_manifest None items) in *.
  unfold extend_manifest at 1. cbn [fst snd].
  split; [by destruct items|]. intros k.
  rewrite paths_of_snoc, fmap_app. cbn [fmap list_fmap fst].
  assert (Hacc : default ∅ acc !! k
                 = if decide (k ∈ items.*1) then Some (paths_of k items) else None).
  { destruct acc as [m|]; [by destruct IH as [_ ->]|].
    subst items. cbn. rewrite lookup_empty.
    case_decide as Hin; [by apply elem_of_nil in Hin|done]. }
  destruct (decide (key = k)) as [->|Hne].
  - rewrite lookup_insert_eq, Hacc.
    rewrite (decide_True (P := k ∈ _ ++ [k]))
      by (apply elem_of_app; right; apply list_elem_of_singleton; done).
    destruct (decide (k ∈ items.*1)) as [Hin|Hin]; [done|].
    by rewrite paths_of_absent.
  - rewrite lookup_insert_ne, Hacc, app_nil_r by done.
    destruct (decide (k ∈ items.*1)) as [Hin|Hin].
    + by rewrite decide_True by (apply elem_of_app; by left).
    + rewrite decide_False; [done|].
      rewrite elem_of_app, list_elem_of_singleton. intros [?|?]; [done|congruence].
Qed.

(** X1.  [collect_execution_manifests] returns [None] exactly when the manifest
    files of the directory have no entry at all (none is there, or each
    holds an empty object).  Otherwise the dictionary has the output names
    of the entries as keys, and under a name the paths that the entries
    list for it, those of a manifest read earlier first. *)
Theorem collect_execution_manifests_merges (os : OsEnv) :
  match collect_execution_manifests os with
  | None => manifest_items os = []
  | Some m =>
      manifest_items os ≠ []
      ∧ ∀ k, m !! k
             = if decide (k ∈ (manifest_items os).*1)
               then Some (paths_of k (manifest_items os))
               else None
  end.
Proof. rewrite collect_as_fold. apply foldl_extend_manifest. Qed.

Lemma collect_None_iff (os : OsEnv) :
  collect_execution_manifests os = None ↔ manifest_items os = [].
Proof.
  rewrite collect_as_fold.
  pose proof (foldl_extend_manifest (manifest_items os)) as H.
  destruct (foldl extend_manifest None (manifest_items os)).
  - destruct H as [H _]. split; [discriminate|done].
  - done.
Qed.

(** X2.  When a manifest has an entry, the cache that the caller passes is not
    read: the returned cache is rebuilt from the manifests.  It holds the
    manifest paths, each turned into a path under the data directory, for
    the output names of the databases and for no other name. *)
Theorem exported_files_cache_rebuilt (os : OsEnv) (item_name data_dir : string)
    (exported_files : option (gmap string (list string)))
    (databases : list Database) (m : gmap string (list string)) :
  collect_execution_manifests os = Some m →
  exported_files_as_resources os item_name exported_files data_dir databases
  = exported_files_as_resources os item_name None data_dir databases
  ∧ ∃ cache,
      (exported_files_as_resources os item_name exported_files data_dir databases).2
      = Some cache
      ∧ ∀ k, cache !! k
             = if decide (k ∈ output_file_name <$> databases)
               then fmap (path_str os data_dir) <$> m !! k
               else None.
Proof.
  intros Hm. unfold exported_files_as_resources. rewrite Hm. cbn [default snd].
  split; [done|]. eexists. split; [reflexivity|]. intros k.
  rewrite lookup_fmap.
  destruct (m !! k) as [paths|] eqn:Hk; case_decide as Hin; cbn [fmap option_fmap option_map].
  - by rewrite (map_lookup_filter_Some_2 _ m k paths).
  - rewrite map_lookup_filter_None_2; [done|]. right. intros ? _. done.
  - rewrite map_lookup_filter_None_2; [done|]. by left.
  - rewrite map_lookup_filter_None_2; [done|]. by left.
Qed.

Lemma exported_files_cache_rebuilt_witness :
  ∃ m, collect_execution_manifests manifest_os = Some m
  ∧ exported_files_as_resources manifest_os "Exporter" (Some sample_cache)
      "/data" [mkDatabase "sqlite:///a" "a.csv"]
    = exported_files_as_resources manifest_os "Exporter" None
        "/data" [mkDatabase "sqlite:///a" "a.csv"]
  ∧ ∃ cache,
      (exported_files_as_resources manifest_os "Exporter" (Some sample_cache)
         "/data" [mkDatabase "sqlite:///a" "a.csv"]).2
      = Some cache
      ∧ ∀ k, cache !! k
             = if decide (k ∈ output_file_name <$> [mkDatabase "sqlite:///a" "a.csv"])
               then fmap (path_str manifest_os "/data") <$> m !! k
               else None.
Proof.
  eexists. split; [reflexivity|].
  exact (exported_files_cache_rebuilt manifest_os "Exporter" "/data"
           (Some sample_cache) [mkDatabase "sqlite:///a" "a.csv"] _ eq_refl).
Defined.

Lemma foldl_add_cached_missing (os : OsEnv) (item_name : string)
    (cache : gmap string (list string)) (databases : list Database) :
  Forall (λ db, existing_files os cache db = []) databases →
  ∀ acc,
  foldl (add_cached os item_name cache) acc databases
  = foldl (add_transient item_name) acc databases.
Proof.
  induction 1 as [|db dbs Hdb _ IH]; intros acc; [done|]. cbn [foldl].
  rewrite <- IH. f_equal. unfold add_cached, add_transient.
  destruct (Py.truthy_str (output_file_name db)); [|done].
  unfold existing_files in Hdb. by rewrite Hdb.
Qed.

(** X3.  With a cache but no manifest entry, a database none of whose cached
    files exists gets a transient file resource; when that holds for all
    databases, the resources are those of a call without cache, and the
    cache is handed back as it was. *)
Theorem exported_files_missing_files (os : OsEnv) (item_name data_dir : string)
    (cache : gmap string (list string)) (databases : list Database) :
  manifest_items os = [] →
  Forall (λ db, existing_files os cache db = []) databases →
  exported_files_as_resources os item_name (Some cache) data_dir databases
  = ((exported_files_as_resources os item_name None data_dir databases).1,
     Some cache).
Proof.
  intros Hnone Hmissing. apply collect_None_iff in Hnone.
  unfold exported_files_as_resources. rewrite Hnone. cbn [fst].
  by rewrite foldl_add_cached_missing.
Qed.

Lemma exported_files_missing_files_witness :
  exported_files_as_resources sample_os "Exporter" (Some sample_cache) "/data"
    [mkDatabase "sqlite:///a" "a.csv"; mkDatabase "sqlite:///c" "c.csv"]
  = ((exported_files_as_resources sample_os "Exporter" None "/data"
        [mkDatabase "sqlite:///a" "a.csv"; mkDatabase "sqlite:///c" "c.csv"]).1,
     Some sample_cache).
Proof.
  apply (exported_files_missing_files sample_os).
  - reflexivity.
  - repeat constructor.
Defined.

(** X4.  With a cache but no manifest entry, the files that exist for a
    database replace the resources collected for the databases before
    it: after a database with a non-empty output name and an existing
    cached file, the resources are the files of that database and
    nothing else. *)
Theorem exported_files_last_database_only (os : OsEnv)
    (item_name data_dir : string) (cache : gmap string (list string))
    (databases : list Database) (db : Database) :
  manifest_items os = [] →
  output_file_name db ≠ "" →
  existing_files os cache db ≠ [] →
  (exported_files_as_resources os item_name (Some cache) data_dir
     (databases ++ [db])).1
  ≡ₚ file_resource_in_pack item_name (output_file_name db)
     <$> remove_dups (existing_files os cache db).
Proof.
  intros Hnone Hname Hfiles. apply collect_None_iff in Hnone.
  unfold exported_files_as_resources. rewrite Hnone. cbn [fst].
  rewrite foldl_app. cbn [foldl]. unfold add_cached at 1.
  destruct (output_file_name db) eqn:Hdb; [done|]. cbn [Py.truthy_str].
  unfold existing_files in Hfiles. rewrite Hdb in Hfiles.
  unfold existing_files. rewrite Hdb.
  destruct (remove_dups _) as [|f fs] eqn:Hdups; [|done].
  exfalso. apply Hfiles.
  destruct (filter _ _) as [|x xs]; [done|].
  assert (Hx : x ∈ remove_dups (x :: xs)) by (apply elem_of_remove_dups; left).
  rewrite Hdups in Hx. by apply elem_of_nil in Hx.
Qed.

Lemma exported_files_last_database_only_witness :
  (exported_files_as_resources cached_os "Exporter" (Some sample_cache) "/data"
     ([mkDatabase "sqlite:///a" "a.csv"] ++ [mkDatabase "sqlite:///b" "b.csv"])).1
  ≡ₚ file_resource_in_pack "Exporter" "b.csv"
     <$> remove_dups (existing_files cached_os sample_cache
                        (mkDatabase "sqlite:///b" "b.csv")).
Proof.
  apply (exported_files_last_database_only cached_os).
  - reflexivity.
  - discriminate.
  - vm_compute. discriminate.
Defined.

End UtilsMore.

(** ** List models: updates, selection and flags *)

Section ModelsMore.
Import Py Models ModelsSpec FileListViews FileListSpec.

Lemma from_resource_fmap_label (resource : ProjectItemResource) :
  label <$> from_resource resource = _file_label resource.
Proof.
  unfold from_resource, _file_label.
  destruct (decide (type_ resource = "file")) as [Hf|Hf]; [done|].
  destruct (decide (type_ resource = "database")) as [Hd|Hd]; [done|].
  destruct (decide (type_ resource = "transient_file")) as [Ht|Ht].
  { rewrite decide_True by (rewrite Ht; set_solver).
    simpl.
    by destruct (metadata_label resource), (url resource). }
  destruct (decide (type_ resource = "file_pattern")) as [Hp|Hp].
  { rewrite decide_True by (rewrite Hp; set_solver).
    simpl.
    by destruct (metadata_label resource), (url resource). }
  rewrite decide_False; [done|].
  rewrite !elem_of_cons, elem_of_nil. tauto.
Qed.

(** X5.  [FileListItem.from_resource] picks the label that [_file_label]
    picks, and raises what it raises. *)
Theorem from_resource_file_label (resource : ProjectItemResource) :
  label <$> from_resource resource = _file_label resource.
Proof. apply from_resource_fmap_label. Qed.

Lemma from_resource_returns (resource : ProjectItemResource) (l : optstr) :
  _file_label resource = Return l →
  ∃ item, from_resource resource = Return item ∧ label item = l
          ∧ selected item = true.
Proof.
  intros Hl. pose proof (from_resource_fmap_label resource) as Heq.
  rewrite Hl in Heq. unfold from_resource in *.
  destruct (if decide (type_ resource = "file") then _ else _)
    as [[l' p]|e]; simpl in *; [|discriminate].
  eexists. split; [reflexivity|]. simpl. split; [congruence|done].
Qed.

Lemma update_loop_returns invalid items resources : ∀ st,
  (∃ st', update_loop invalid items st resources = Return st')
  ↔ Forall (λ lr, ∃ l : optstr, lr = Return l) (resource_labels invalid resources).
Proof.
  unfold resource_labels.
  induction resources as [|r rs IH]; intros st; cbn [update_loop].
  - split; [intros _; constructor|eauto].
  - unfold update_step at 1.
    destruct (decide (type_ r ∈ invalid)) as [Hin|Hin].
    + rewrite filter_cons_False by (intros H; exact (H Hin)).
      cbn [mbind outcome_bind]. apply IH.
    + rewrite filter_cons_True by done. rewrite fmap_cons, Forall_cons.
      destruct (_file_label r) as [l|e] eqn:Hl; cbn [mbind outcome_bind].
      2:{ split; [intros [? [=]]|intros [[? [=]] _]]. }
      destruct (items !! l) as [a|].
      * cbn [mbind outcome_bind]. rewrite IH.
        split; [intros H; split; [eauto|done]|by intros [_ H]].
      * destruct (from_resource_returns r l Hl) as [item [-> _]].
        cbn [mbind outcome_bind]. rewrite IH.
        split; [intros H; split; [eauto|done]|by intros [_ H]].
Qed.

Lemma update_returns_helper (self : FileListModel)
    (resources : list ProjectItemResource) :
  (∃ self', update self resources = Return self')
  ↔ Forall (λ r, ∃ l, _file_label r = Return l) (valid_resources self resources).
Proof.
  unfold update, valid_resources.
  assert (Hiff :
    Forall (λ r, ∃ l, _file_label r = Return l)
      (filter (λ r, type_ r ∉ _invalid_resource_types self) resources)
    ↔ Forall (λ lr, ∃ l : optstr, lr = Return l)
        (resource_labels (_invalid_resource_types self) resources)).
  { unfold resource_labels. by rewrite Forall_fmap. }
  rewrite Hiff.
  rewrite <- (update_loop_returns _ (items_by_label self) resources
                (mkUpdateLoop (objects self) [] [])).
  destruct (update_loop _ _ _ resources) as [st|e]; cbn [mbind outcome_bind].
  - split; eauto.
  - split; intros [? [=]].
Qed.

(** X6.  [update] returns exactly when a label can be picked for every
    resource it does not skip; otherwise it raises. *)
Theorem update_returns_iff (self : FileListModel)
    (resources : list ProjectItemResource) :
  (∃ self', update self resources = Return self')
  ↔ Forall (λ r, ∃ l, _file_label r = Return l) (valid_resources self resources).
Proof. apply update_returns_helper. Qed.

Lemma update_rows_labels (self self' : FileListModel)
    (resources : list ProjectItemResource) :
  update self resources = Return self' →
  ∃ ls, resource_labels (_invalid_resource_types self) resources = Return <$> ls
    ∧ length (_files self') = length ls
    ∧ labels self'
      = filter (λ l, is_Some (items_by_label self !! l)) ls
        ++ filter (λ l, ¬ is_Some (items_by_label self !! l)) ls.
Proof.
  unfold update. intros Hupd.
  destruct (update_loop _ _ _ resources) as [st|e] eqn:Hloop; [|discriminate].
  injection Hupd as <-.
  destruct (update_loop_spec _ _ _ _ _ [] [] Hloop) as [ls [Hls [Hu Hn]]].
  - apply items_by_label_keyed.
  - constructor.
  - constructor.
  - exists ls. split; [done|]. pose proof (points_to_app _ _ _ _ _ Hu Hn) as Hall.
    split.
    + cbn [_files]. apply Forall2_length in Hall. rewrite Hall.
      rewrite !length_app. simpl.
      pose proof (filter_app_complement (λ l, is_Some (items_by_label self !! l)) ls)
        as Hperm.
      apply Permutation_length in Hperm. by rewrite length_app in Hperm.
    + unfold labels, files. simpl. by apply points_to_labels.
Qed.

(** X7.  After [update] the model has one row for every resource it did not
    skip, and the labels of its rows are the labels of those resources
    (those of the items it already had first); whatever else the model
    held is gone. *)
Theorem update_labels_permutation (self self' : FileListModel)
    (resources : list ProjectItemResource) :
  update self resources = Return self' →
  length (_files self') = length (valid_resources self resources)
  ∧ Return <$> labels self' ≡ₚ _file_label <$> valid_resources self resources.
Proof.
  intros Hupd. destruct (update_rows_labels _ _ _ Hupd) as [ls [Hls [Hlen ->]]].
  unfold resource_labels in Hls. unfold valid_resources. rewrite Hls.
  split.
  - rewrite Hlen. by rewrite <- (length_fmap _file_label), Hls, length_fmap.
  - f_equiv. apply filter_app_complement.
Qed.

Lemma update_labels_witness_model :
  update two_files [sample_file "/data/b.csv" "DC"; sample_file "/data/c.csv" "DC"]
  = Return
      (mkFileListModel
         [mkFileListItem (Some "/data/a.csv") "/data/a.csv" true "DC" false;
          mkFileListItem (Some "/data/b.csv") "/data/b.csv" false "DC" false;
          mkFileListItem (Some "/data/c.csv") "/data/c.csv" true "DC" false]
         [1; 2] [] "Files").
Proof. reflexivity. Qed.

Lemma update_labels_permutation_witness :
  length [1; 2]
  = length (valid_resources two_files
              [sample_file "/data/b.csv" "DC"; sample_file "/data/c.csv" "DC"])
  ∧ Return <$> [Some "/data/b.csv"; Some "/data/c.csv"]
    ≡ₚ _file_label
       <$> valid_resources two_files
             [sample_file "/data/b.csv" "DC"; sample_file "/data/c.csv" "DC"].
Proof.
  exact (update_labels_permutation two_files _
           [sample_file "/data/b.csv" "DC"; sample_file "/data/c.csv" "DC"]
           update_labels_witness_model).
Defined.

Lemma find_file_elem (self : FileListModel) (l : optstr) :
  l ∈ labels self →
  ∃ item, find_file self l = Return item ∧ label item = l.
Proof.
  unfold labels, find_file. intros [item [-> Hin]]%list_elem_of_fmap.
  assert (Hf : item ∈ filter (λ item0, label item0 = label item) (files self))
    by (by apply list_elem_of_filter).
  destruct (filter _ (files self)) as [|first rest] eqn:Hfilter.
  - by apply elem_of_nil in Hf.
  - exists first. split; [done|].
    assert (Hfirst : first ∈ filter (λ item0, label item0 = label item) (files self))
      by (rewrite Hfilter; left).
    by apply list_elem_of_filter in Hfirst as [? _].
Qed.

(** X8.  After [update], [find_file] finds an item for the label of every
    resource that was not skipped. *)
Theorem update_find_file (self self' : FileListModel)
    (resources : list ProjectItemResource) (r : ProjectItemResource) :
  update self resources = Return self' →
  r ∈ valid_resources self resources →
  ∃ l item, _file_label r = Return l ∧ find_file self' l = Return item
            ∧ label item = l.
Proof.
  intros Hupd Hr. destruct (update_rows_labels _ _ _ Hupd) as [ls [Hls [_ Hlabels]]].
  assert (Hin : _file_label r ∈ Return <$> ls).
  { rewrite <- Hls. unfold resource_labels. by apply list_elem_of_fmap_2. }
  apply list_elem_of_fmap in Hin as [l [Hl Hin]].
  exists l. destruct (find_file_elem self' l) as [item [Hfind Hlab]].
  - rewrite Hlabels, elem_of_app, !list_elem_of_filter.
    destruct (decide (is_Some (items_by_label self !! l))); tauto.
  - by exists item.
Qed.

Lemma update_find_file_witness :
  ∃ l item,
    _file_label (sample_file "/data/c.csv" "DC") = Return l
    ∧ find_file
        (mkFileListModel
           [mkFileListItem (Some "/data/a.csv") "/data/a.csv" true "DC" false;
            mkFileListItem (Some "/data/b.csv") "/data/b.csv" false "DC" false;
            mkFileListItem (Some "/data/c.csv") "/data/c.csv" true "DC" false]
           [1; 2] [] "Files") l
      = Return item
    ∧ label item = l.
Proof.
  apply (update_find_file two_files _
           [sample_file "/data/b.csv" "DC"; sample_file "/data/c.csv" "DC"]
           (sample_file "/data/c.csv" "DC") update_labels_witness_model).
  unfold valid_resources. rewrite list_elem_of_filter. split.
  - apply not_elem_of_nil.
  - right. left.
Defined.

Lemma items_by_label_is_Some (self : FileListModel) (l : optstr) :
  is_Some (items_by_label self !! l) ↔ l ∈ labels self.
Proof.
  unfold items_by_label, labels, files.
  assert (H : ∀ addrs (acc : gmap optstr nat),
            is_Some (foldl (λ items a,
                             match objects self !! a with
                             | Some item => <[ label item := a ]> items
                             | None => items
                             end) acc addrs !! l)
            ↔ is_Some (acc !! l)
              ∨ l ∈ label <$> omap (λ a, objects self !! a) addrs).
  { induction addrs as [|a addrs IH]; intros acc; simpl.
    - split; [tauto|]. intros [?|Hin]; [done|]. by apply elem_of_nil in Hin.
    - rewrite IH. destruct (objects self !! a) as [item|]; [|done].
      rewrite fmap_cons, elem_of_cons.
      destruct (decide (label item = l)) as [<-|Hne].
      + rewrite lookup_insert_eq. split; [intros _|]; eauto.
      + rewrite lookup_insert_ne by done. split; [tauto|].
        intros [?|[?|?]]; [tauto|congruence|tauto]. }
  rewrite H, lookup_empty. split; [intros [[? [=]]|?]; done|tauto].
Qed.

Lemma fmap_Return_inj {A} (l1 l2 : list A) :
  (Return <$> l1 : list (outcome A)) = Return <$> l2 → l1 = l2.
Proof.
  revert l2. induction l1 as [|x l1 IH]; intros [|y l2] H; try done.
  rewrite !fmap_cons in H. injection H as -> H. f_equal. by apply IH.
Qed.

(** X9.  Updating a second time with the same resources raises nothing and
    puts the rows in the order of the resources: every label is found in
    the model, so no row is treated as new. *)
Theorem update_twice (self self1 : FileListModel)
    (resources : list ProjectItemResource) :
  update self resources = Return self1 →
  ∃ self2, update self1 resources = Return self2
    ∧ Return <$> labels self2 = _file_label <$> valid_resources self resources.
Proof.
  intros Hupd.
  assert (Hinv : _invalid_resource_types self1 = _invalid_resource_types self).
  { unfold update in Hupd. destruct (update_loop _ _ _ _); [|discriminate].
    by injection Hupd as <-. }
  destruct (proj2 (update_returns_helper self1 resources)) as [self2 Hupd2].
  { unfold valid_resources. rewrite Hinv.
    apply (proj1 (update_returns_helper self resources)). eauto. }
  exists self2. split; [done|].
  destruct (update_rows_labels _ _ _ Hupd) as [ls [Hls [_ Hlabels]]].
  destruct (update_rows_labels _ _ _ Hupd2) as [ls2 [Hls2 [_ Hlabels2]]].
  rewrite Hinv, Hls in Hls2. apply fmap_Return_inj in Hls2 as <-.
  unfold valid_resources. unfold resource_labels in Hls. rewrite Hls. f_equal.
  rewrite Hlabels2.
  assert (Hall : ∀ l, l ∈ ls → is_Some (items_by_label self1 !! l)).
  { intros l Hl. apply items_by_label_is_Some. rewrite Hlabels.
    rewrite elem_of_app, !list_elem_of_filter.
    destruct (decide (is_Some (items_by_label self !! l))); tauto. }
  clear -Hall. induction ls as [|l ls IH]; [done|].
  rewrite filter_cons_True by (apply Hall; left).
  rewrite filter_cons_False by (intros H; apply H, Hall; left).
  simpl. f_equal. apply IH. intros l' Hl'. apply Hall. by right.
Qed.

Lemma update_twice_witness :
  ∃ self2,
    update
      (mkFileListModel
         [mkFileListItem (Some "/data/a.csv") "/data/a.csv" true "DC" false;
          mkFileListItem (Some "/data/b.csv") "/data/b.csv" false "DC" false;
          mkFileListItem (Some "/data/c.csv") "/data/c.csv" true "DC" false]
         [1; 2] [] "Files")
      [sample_file "/data/b.csv" "DC"; sample_file "/data/c.csv" "DC"]
    = Return self2
    ∧ Return <$> labels self2
      = _file_label
        <$> valid_resources two_files
              [sample_file "/data/b.csv" "DC"; sample_file "/data/c.csv" "DC"].
Proof.
  exact (update_twice two_files _
           [sample_file "/data/b.csv" "DC"; sample_file "/data/c.csv" "DC"]
           update_labels_witness_model).
Defined.

(** *** Selection *)

Lemma selection_kept_step (objects : list FileListItem)
    (items : gmap optstr nat) (invalid : list string) (st st' : UpdateLoop)
    (resource : ProjectItemResource) :
  keyed_by_label items objects →
  selection_kept objects items st →
  update_step invalid items st resource = Return st' →
  selection_kept objects items st'.
Proof.
  intros Hkeyed (Hkeep & Hlen & Hupd & Hnew). unfold update_step.
  destruct (decide (type_ resource ∈ invalid)); [by intros [= <-]|].
  destruct (_file_label resource) as [l|e] eqn:Hl; [|discriminate].
  cbn [mbind outcome_bind]. destruct (items !! l) as [a|] eqn:Hla.
  - destruct (Hkeyed l a Hla) as [item0 [Ha0 Hl0]].
    destruct (Hkeep a item0 Ha0) as [item1 [Ha1 [Hl1 Hs1]]].
    rewrite Ha1. cbv zeta. intros [= <-].
    unfold selection_kept. cbn [store updated new].
    assert (Halt : a < length objects) by (by eapply lookup_lt_Some).
    split; [|split; [|split]].
    + intros b item Hb. destruct (Hkeep b item Hb) as [item' [Hb' [? ?]]].
      destruct (decide (a = b)) as [->|Hne].
      * exists (item_update item1 resource). split.
        -- apply list_lookup_insert_eq. by eapply lookup_lt_Some.
        -- simpl. split; congruence.
      * exists item'. by rewrite list_lookup_insert_ne.
    + by rewrite length_insert.
    + apply Forall_app. split; [done|]. constructor; [eauto|constructor].
    + eapply Forall_impl; [exact Hnew|]. cbn beta.
      intros b (Hb & item & Hitem & ? & ?). split; [done|].
      exists item. rewrite list_lookup_insert_ne by lia. done.
  - destruct (from_resource_returns resource l Hl) as [item [-> [Hlab Hsel]]].
    cbn [mbind outcome_bind]. intros [= <-].
    unfold selection_kept. cbn [store updated new].
    split; [|split; [|split]].
    + intros b item0 Hb. destruct (Hkeep b item0 Hb) as [item' [Hb' [? ?]]].
      exists item'. split; [|done]. by apply lookup_app_l_Some.
    + rewrite length_app. lia.
    + done.
    + apply Forall_app. split.
      * eapply Forall_impl; [exact Hnew|]. cbn beta.
        intros b (Hb & item0 & Hitem & ? & ?). split; [done|].
        exists item0. split; [|done]. by apply lookup_app_l_Some.
      * constructor; [|constructor]. split; [done|]. exists item.
        split; [by apply list_lookup_middle|]. by rewrite Hlab.
Qed.

Lemma selection_kept_loop (objects : list FileListItem)
    (items : gmap optstr nat) (invalid : list string)
    (resources : list ProjectItemResource) : ∀ st st',
  keyed_by_label items objects →
  selection_kept objects items st →
  update_loop invalid items st resources = Return st' →
  selection_kept objects items st'.
Proof.
  induction resources as [|r rs IH]; intros st st' Hkeyed Hinv; cbn [update_loop].
  - by intros [= <-].
  - destruct (update_step invalid items st r) as [st1|e] eqn:Hstep; [|discriminate].
    cbn [mbind outcome_bind]. apply IH; [done|].
    by eapply selection_kept_step.
Qed.

Lemma update_selection (self self' : FileListModel)
    (resources : list ProjectItemResource) (item' : FileListItem) :
  update self resources = Return self' →
  item' ∈ files self' →
  match items_by_label self !! label item' with
  | Some a => ∃ item, objects self !! a = Some item
                      ∧ selected item' = selected item
  | None => selected item' = true
  end.
Proof.
  unfold update. intros Hupd Hin.
  destruct (update_loop _ _ _ resources) as [st|e] eqn:Hloop; [|discriminate].
  injection Hupd as <-.
  pose proof (items_by_label_keyed self) as Hkeyed.
  destruct (selection_kept_loop (objects self) (items_by_label self)
              (_invalid_resource_types self) resources
              (mkUpdateLoop (objects self) [] []) st Hkeyed) as (Hkeep & _ & Hu & Hn);
    [|done|].
  { split; [|split; [done|split; constructor]].
    intros a item Ha. eauto. }
  unfold files in Hin. cbn [_files objects] in Hin.
  apply list_elem_of_omap in Hin as [a [Ha Hitem]].
  apply elem_of_app in Ha as [Ha|Ha].
  - rewrite Forall_forall in Hu. destruct (Hu a Ha) as [l Hl].
    destruct (Hkeyed l a Hl) as [item0 [Ha0 Hl0]].
    destruct (Hkeep a item0 Ha0) as [item1 [Ha1 [Hl1 Hs1]]].
    assert (item1 = item') as -> by congruence.
    rewrite Hl1, Hl0, Hl. eauto.
  - rewrite Forall_forall in Hn. destruct (Hn a Ha) as (_ & item & Hitem' & Hnone & Hsel).
    assert (item = item') as -> by congruence. by rewrite Hnone.
Qed.

(** X10.  [update] keeps the selection: an item for a label that the model
    already had keeps the selection status of the item the model had
    under that label, and an item for a new label is selected. *)
Theorem update_keeps_selection (self self' : FileListModel)
    (resources : list ProjectItemResource) (item' : FileListItem) :
  update self resources = Return self' →
  item' ∈ files self' →
  match items_by_label self !! label item' with
  | Some a => ∃ item, objects self !! a = Some item
                      ∧ selected item' = selected item
  | None => selected item' = true
  end.
Proof. apply update_selection. Qed.

Lemma update_keeps_selection_witness :
  ∃ item, objects two_files !! 1 = Some item ∧ false = selected item.
Proof.
  apply (update_keeps_selection two_files _
           [sample_file "/data/b.csv" "DC"; sample_file "/data/c.csv" "DC"]
           (mkFileListItem (Some "/data/b.csv") "/data/b.csv" false "DC" false)
           update_labels_witness_model).
  left.
Defined.

Lemma set_initial_state_store (selected_items : list (string * bool)) :
  ∀ self,
  objects (set_initial_state self selected_items)
  = objects self ++ (initial_item <$> selected_items)
  ∧ _files (set_initial_state self selected_items)
    = _files self ++ seq (length (objects self)) (length selected_items)
  ∧ _invalid_resource_types (set_initial_state self selected_items)
    = _invalid_resource_types self.
Proof.
  unfold set_initial_state.
  induction selected_items as [|p ps IH]; intros self.
  - simpl. by rewrite !app_nil_r.
  - cbn [foldl]. destruct (IH (mkFileListModel
             (objects self ++ [mkFileListItem (Some p.1) p.1 p.2 "" false])
             (_files self ++ [length (objects self)])
             (_invalid_resource_types self) (_header_label self)))
      as (-> & -> & ->).
    cbn [objects _files _invalid_resource_types].
    rewrite length_app, <- !app_assoc. simpl.
    by rewrite Nat.add_1_r.
Qed.

Lemma omap_lookup_seq {A} (l : list A) :
  ∀ pre, omap (λ a, (pre ++ l) !! a) (seq (length pre) (length l)) = l.
Proof.
  induction l as [|x l IH]; intros pre; [done|]. simpl.
  rewrite list_lookup_middle by done. f_equal.
  specialize (IH (pre ++ [x])). rewrite length_app, Nat.add_1_r in IH.
  by rewrite <- app_assoc in IH.
Qed.

Lemma omap_lookup_all {A} (l : list A) :
  omap (λ a, l !! a) (seq 0 (length l)) = l.
Proof. apply (omap_lookup_seq l []). Qed.

(** X11.  The selection that [set_initial_state] stores is the one the files
    have after the following [update]: in a model made from a dictionary
    of labels and selection flags, a file whose label is a key of the
    dictionary has the flag stored under it, and any other file is
    selected. *)
Theorem set_initial_state_restores_selection
    (invalid_resource_types : list string) (header_label : string)
    (selected_items : list (string * bool))
    (resources : list ProjectItemResource)
    (self' : FileListModel) (item' : FileListItem) :
  NoDup selected_items.*1 →
  update (set_initial_state
            (FileListModel_init invalid_resource_types header_label)
            selected_items) resources
  = Return self' →
  item' ∈ files self' →
  selected item'
  = default true
      (l ← label item';
       (list_to_map selected_items : gmap string bool) !! l).
Proof.
  intros Hdup Hupd Hin.
  set (self := set_initial_state _ selected_items) in *.
  destruct (set_initial_state_store selected_items
              (FileListModel_init invalid_resource_types header_label))
    as (Hobjects & Hfiles & _).
  fold self in Hobjects, Hfiles.
  cbn [FileListModel_init objects _files app length] in Hobjects, Hfiles.
  pose proof (update_selection self self' resources item' Hupd Hin) as Hsel.
  destruct (items_by_label self !! label item') as [a|] eqn:Ha.
  - destruct Hsel as [item [Hitem ->]].
    destruct (items_by_label_keyed self _ _ Ha) as [item0 [Hitem0 Hlabel]].
    assert (item0 = item) as -> by congruence.
    rewrite Hobjects, list_lookup_fmap in Hitem.
    destruct (selected_items !! a) as [[s b]|] eqn:Hp; [|discriminate].
    injection Hitem as <-. cbn [initial_item label selected fst snd] in *.
    rewrite <- Hlabel. cbn [mbind option_bind].
    rewrite (elem_of_list_to_map_1 selected_items s b); [done|done|].
    by eapply list_elem_of_lookup_2.
  - rewrite Hsel.
    assert (Hnot : label item' ∉ labels self).
    { rewrite <- items_by_label_is_Some, Ha. by intros [? [=]]. }
    destruct (label item') as [s|]; [|done].
    cbn [mbind option_bind].
    rewrite not_elem_of_list_to_map_1; [done|]. intros Hs. apply Hnot.
    unfold labels, files. rewrite Hfiles, Hobjects.
    rewrite <- (length_fmap initial_item selected_items).
    rewrite omap_lookup_all, <- list_fmap_compose.
    apply list_elem_of_fmap in Hs as [[s' b] [-> Hp]].
    apply list_elem_of_fmap. by exists (s', b).
Qed.

Lemma set_initial_state_restores_selection_witness :
  selected (mkFileListItem (Some "/data/a.csv") "/data/a.csv" false "DC" false)
  = default true
      (l ← Some "/data/a.csv";
       (list_to_map [("/data/a.csv", false)] : gmap string bool) !! l).
Proof.
  apply (set_initial_state_restores_selection [] "Files"
           [("/data/a.csv", false)]
           [sample_file "/data/a.csv" "DC"; sample_file "/data/c.csv" "DC"]
           (mkFileListModel
              [mkFileListItem (Some "/data/a.csv") "/data/a.csv" false "DC" false;
               mkFileListItem (Some "/data/c.csv") "/data/c.csv" true "DC" false]
              [0; 1] [] "Files")).
  - apply NoDup_singleton.
  - reflexivity.
  - left.
Defined.

Lemma labels_same_store (s s' : list FileListItem) (addrs : list nat) :
  (∀ b, label <$> s' !! b = label <$> s !! b) →
  label <$> omap (λ b, s' !! b) addrs = label <$> omap (λ b, s !! b) addrs.
Proof.
  intros Hsame. induction addrs as [|x addrs IH]; [done|]. simpl.
  pose proof (Hsame x) as Hx.
  destruct (s' !! x), (s !! x); simpl in *; try discriminate; [|done].
  f_equal; [congruence|done].
Qed.

Lemma first_with_label (s s' : list FileListItem) (l : optstr)
    (item' : FileListItem) (a : nat) : ∀ addrs row,
  list_find (λ b, label <$> s !! b = Some l) addrs = Some (row, a) →
  (∀ b, label <$> s' !! b = label <$> s !! b) →
  s' !! a = Some item' →
  ∃ rest, filter (λ it, label it = l) (omap (λ b, s' !! b) addrs) = item' :: rest.
Proof.
  induction addrs as [|x addrs IH]; intros row Hfind Hsame Ha; [done|].
  cbn [list_find] in Hfind. simpl.
  destruct (decide (label <$> s !! x = Some l)) as [Hx|Hx].
  - injection Hfind as <- <-. rewrite Ha.
    rewrite filter_cons_True; [eauto|].
    rewrite <- Hsame, Ha in Hx. by injection Hx.
  - destruct (list_find _ addrs) as [[row' a']|] eqn:Hrest; [|discriminate].
    simpl in Hfind. injection Hfind as <- <-.
    destruct (IH row' eq_refl Hsame Ha) as [rest Hrest'].
    destruct (s' !! x) as [y|] eqn:Hy; [|eauto].
    rewrite filter_cons_False; [eauto|].
    intros Hl. apply Hx. rewrite <- Hsame, Hy. simpl. by rewrite Hl.
Qed.

(** X12.  [set_selected] changes no label.  When the model has an item with
    the label, [find_file] afterwards returns an item with the selection
    status that was set, and one row is reported as changed; when it has
    none, the call does nothing. *)
Theorem set_selected_find_file (self : FileListModel) (l : optstr) (value : bool) :
  labels (set_selected self l value).1 = labels self
  ∧ if decide (l ∈ labels self)
    then ∃ item row,
           find_file (set_selected self l value).1 l = Return item
           ∧ label item = l ∧ selected item = value
           ∧ (set_selected self l value).2 = [row]
    else set_selected self l value = (self, []).
Proof.
  unfold set_selected.
  destruct (list_find _ (_files self)) as [[row a]|] eqn:Hfind.
  - pose proof Hfind as Hspec. apply list_find_Some in Hspec as (Hrow & Ha & _).
    destruct (objects self !! a) as [item|] eqn:Hitem; [|done].
    simpl in Ha. injection Ha as Hl.
    set (item' := mkFileListItem (label item) (item_path item) value
                    (item_provider_name item) (is_pattern item)).
    assert (Hsame : ∀ b, label <$> <[a:=item']> (objects self) !! b
                         = label <$> objects self !! b).
    { intros b. destruct (decide (a = b)) as [<-|Hne].
      - rewrite list_lookup_insert_eq by (by eapply lookup_lt_Some).
        by rewrite Hitem.
      - by rewrite list_lookup_insert_ne. }
    assert (Hlabels : labels
              (mkFileListModel (<[a:=item']> (objects self)) (_files self)
                 (_invalid_resource_types self) (_header_label self))
            = labels self).
    { unfold labels, files. cbn [objects _files]. by apply labels_same_store. }
    cbn [fst snd]. split; [done|].
    assert (Hin : l ∈ labels self).
    { unfold labels, files. apply list_elem_of_fmap. exists item. split; [done|].
      apply list_elem_of_omap. exists a. split; [|done].
      by eapply list_elem_of_lookup_2. }
    rewrite decide_True by done.
    destruct (first_with_label (objects self) (<[a:=item']> (objects self)) l
                item' a (_files self) row Hfind Hsame) as [rest Hrest].
    { apply list_lookup_insert_eq. by eapply lookup_lt_Some. }
    exists item', row. unfold find_file, files. cbn [objects _files].
    rewrite Hrest. done.
  - cbn [fst snd]. split; [done|].
    rewrite decide_False; [done|]. intros Hin.
    unfold labels, files in Hin.
    apply list_elem_of_fmap in Hin as [item [-> Hin]].
    apply list_elem_of_omap in Hin as [a [Ha Hitem]].
    apply list_find_None in Hfind. rewrite Forall_forall in Hfind.
    apply (Hfind a Ha). by rewrite Hitem.
Qed.

Lemma file_at_row (self : FileListModel) (index : option nat) (a : nat)
    (item : FileListItem) :
  file_at self (index_row index) = Return (a, item) →
  let row := match index with
             | Some row => row
             | None => (rowCount self - 1)%nat
             end in
  _files self !! row = Some a ∧ objects self !! a = Some item.
Proof.
  unfold file_at, rowCount. intros H. cbv zeta.
  assert (Ha : Py.index (_files self) (index_row index) = Return a
               ∧ objects self !! a = Some item).
  { destruct (Py.index _ _) as [a'|e]; [|discriminate].
    cbn [mbind outcome_bind] in H.
    destruct (objects self !! a') as [item'|] eqn:Hitem; [|discriminate].
    by injection H as -> ->. }
  destruct Ha as [Ha Hitem]. split; [|done].
  destruct index as [row|]; cbn [index_row] in Ha.
  - rewrite index_of_nat in Ha. destruct (_ !! row); [|discriminate].
    by injection Ha as ->.
  - rewrite index_minus_one in Ha. destruct (_ !! _); [|discriminate].
    by injection Ha as ->.
Qed.

(** X13.  After [mark_as_nonexistent] the item at the index offers nothing but
    [ItemNeverHasChildren], and in an input file list nothing but that
    and [ItemIsDragEnabled]: it can be neither selected nor checked.  The
    labels stay, and the index is the one reported as changed.  Given the
    invalid index, whose row is [-1], the call marks the last file. *)
Theorem mark_as_nonexistent_flags (checkable : bool) (self self' : FileListModel)
    (index : option nat) (changed : list (option nat)) :
  mark_as_nonexistent self index = Return (self', changed) →
  let row := match index with
             | Some row => row
             | None => (rowCount self - 1)%nat
             end in
  (row < rowCount self)%nat
  ∧ flags self' (Some row) = Return (mkFlags false false false true false)
  ∧ input_flags checkable self' (Some row)
    = Return (mkFlags false false false true true)
  ∧ labels self' = labels self
  ∧ changed = [index].
Proof.
  intros H row. unfold mark_as_nonexistent in H.
  destruct (file_at self (index_row index)) as [[a item]|e] eqn:Hat;
    [|discriminate].
  cbn [mbind outcome_bind] in H. injection H as <- <-.
  apply file_at_row in Hat as [Hrow Hitem]. fold row in Hrow.
  assert (Hflags : flags
            (mkFileListModel
               (<[ a := mkFileListItem (label item) "" (selected item)
                          (item_provider_name item) (is_pattern item) ]>
                  (objects self))
               (_files self) (_invalid_resource_types self) (_header_label self))
            (Some row)
          = Return (mkFlags false false false true false)).
  { unfold flags, file_at. cbn [_files objects]. rewrite index_of_nat, Hrow.
    cbn [mbind outcome_bind].
    rewrite list_lookup_insert_eq by (by eapply lookup_lt_Some). done. }
  split; [by eapply lookup_lt_Some|]. split; [done|].
  split; [unfold input_flags; rewrite Hflags; by destruct checkable|].
  split; [|done].
  unfold labels, files. cbn [objects _files]. apply labels_same_store.
  intros b. destruct (decide (a = b)) as [<-|Hne].
  - rewrite list_lookup_insert_eq by (by eapply lookup_lt_Some).
    by rewrite Hitem.
  - by rewrite list_lookup_insert_ne.
Qed.

Lemma mark_as_nonexistent_flags_witness :
  (1 < rowCount two_files)%nat
  ∧ flags
      (mkFileListModel
         [mkFileListItem (Some "/data/a.csv") "/data/a.csv" true "DC" false;
          mkFileListItem (Some "/data/b.csv") "" false "DC" false]
         [0; 1] [] "Files")
      (Some 1)
    = Return (mkFlags false false false true false)
  ∧ input_flags false
      (mkFileListModel
         [mkFileListItem (Some "/data/a.csv") "/data/a.csv" true "DC" false;
          mkFileListItem (Some "/data/b.csv") "" false "DC" false]
         [0; 1] [] "Files")
      (Some 1)
    = Return (mkFlags false false false true true)
  ∧ [Some "/data/a.csv"; Some "/data/b.csv"] = labels two_files
  ∧ [None] = [@None nat].
Proof.
  exact (mark_as_nonexistent_flags false two_files _ None [None] eq_refl).
Defined.

(** *** Command line arguments *)

(** X14.  [replace_arg] accepts the rows [-len .. len-1], a negative row
    counting from the end, and raises [IndexError] for any other; the list
    it emits has the length of the current one and differs from it at
    that one position only. *)
Theorem replace_arg_one_position (_args : list string) (row : Z) (arg : string) :
  let n := Z.of_nat (length _args) in
  if bool_decide (- n ≤ row < n)%Z
  then ∃ new_args,
         replace_arg _args row arg = Return new_args
         ∧ length new_args = length _args
         ∧ index new_args row = Return arg
         ∧ ∀ k, (- n ≤ k < n)%Z → ((k - row) mod n ≠ 0)%Z →
             index new_args k = index _args k
  else replace_arg _args row arg = Raise IndexError.
Proof.
  intros n. unfold replace_arg. fold n.
  case_bool_decide as Hrow.
  - set (k0 := if bool_decide (row < 0)%Z then (row + n)%Z else row).
    assert (Hk0 : (0 ≤ k0 < n)%Z) by (unfold k0; case_bool_decide; lia).
    rewrite bool_decide_eq_true_2 by done.
    eexists. split; [reflexivity|]. rewrite length_insert. split; [done|].
    assert (Hidx : ∀ (l : list string) k, length l = length _args →
              (- n ≤ k < n)%Z →
              index l k
              = match l !! Z.to_nat (if bool_decide (k < 0)%Z then (k + n)%Z else k) with
                | Some x => Return x
                | None => Raise IndexError
                end).
    { intros l k Hlen Hk. unfold index. rewrite Hlen. fold n.
      rewrite bool_decide_eq_true_2; [done|]. case_bool_decide; lia. }
    split.
    + rewrite Hidx by (rewrite ?length_insert; done). fold k0.
      rewrite list_lookup_insert_eq by lia. done.
    + intros k Hk Hne. rewrite !Hidx by (rewrite ?length_insert; done).
      rewrite list_lookup_insert_ne; [done|].
      unfold k0. intros Heq. apply Hne.
      repeat case_bool_decide.
      * replace (k - row)%Z with 0%Z by lia. done.
      * replace (k - row)%Z with (1 * n)%Z by lia. apply Z.mod_mul. lia.
      * replace (k - row)%Z with (-1 * n)%Z by lia. apply Z.mod_mul. lia.
      * replace (k - row)%Z with 0%Z by lia. done.
  - rewrite bool_decide_eq_false_2; [done|]. case_bool_decide; lia.
Qed.

End ModelsMore.

(** ** Merger: purging, the run and stopping *)

Section MergerMore.
Import Py Merger MergerSpec MergerUnfiltered MergerRunSpec.

(** X15.  [execute_unfiltered] calls [purge_url] on database URLs of the
    backward resources only, in their order and without gaps, and on none
    at all unless the base class agrees and the item is set to purge
    before writing. *)
Theorem execute_unfiltered_purges_targets_only (engine : PurgeEngine)
    (self : ExecutableItem) (backward_resources : list ProjectItemResource) :
  let '(r, purged) := execute_unfiltered engine self backward_resources in
  purged `prefix_of` (url <$> databases backward_resources)
  ∧ (super_execute_unfiltered engine = false ∨ _purge_before_writing self = false →
     purged = []).
Proof.
  unfold execute_unfiltered, databases.
  destruct (super_execute_unfiltered engine); cbn [negb].
  2:{ split; [apply prefix_nil|done]. }
  destruct (_purge_before_writing self); cbn [negb].
  2:{ split; [apply prefix_nil|done]. }
  generalize (url <$> filter is_database backward_resources). intros urls.
  assert (H : (purge_loop engine (_cancel_on_error self) urls).2 `prefix_of` urls).
  { induction urls as [|u urls IH]; cbn [purge_loop]; [done|].
    destruct (negb (purge_url engine u) && _cancel_on_error self).
    - simpl. apply prefix_cons, prefix_nil.
    - destruct (purge_loop engine (_cancel_on_error self) urls) as [r purged].
      simpl in *. by apply prefix_cons. }
  destruct (purge_loop engine (_cancel_on_error self) urls) as [r purged].
  split; [exact H|]. intros [?|?]; discriminate.
Qed.

(** X16.  When the base class agrees and the item purges before writing,
    [execute_unfiltered] fails exactly when the item cancels on error and
    some purge fails; it then stops at the first target whose purge
    fails.  Otherwise every target database is purged. *)
Theorem execute_unfiltered_stops_at_failed_purge (engine : PurgeEngine)
    (self : ExecutableItem) (backward_resources : list ProjectItemResource) :
  super_execute_unfiltered engine = true →
  _purge_before_writing self = true →
  let urls := url <$> databases backward_resources in
  let '(r, purged) := execute_unfiltered engine self backward_resources in
  if r
  then purged = urls
       ∧ (_cancel_on_error self = true → Forall (λ u, purge_url engine u = true) urls)
  else _cancel_on_error self = true
       ∧ ∃ done_ u rest,
           urls = done_ ++ u :: rest ∧ purged = done_ ++ [u]
           ∧ purge_url engine u = false
           ∧ Forall (λ u, purge_url engine u = true) done_.
Proof.
  intros Hsuper Hpurge. unfold execute_unfiltered, databases.
  rewrite Hsuper, Hpurge. cbn [negb].
  generalize (url <$> filter is_database backward_resources). intros urls.
  cbv zeta. induction urls as [|u urls IH]; cbn [purge_loop].
  - split; [done|]. intros _. constructor.
  - destruct (purge_url engine u) eqn:Hu; cbn [negb andb].
    + destruct (purge_loop engine (_cancel_on_error self) urls) as [[|] purged].
      * destruct IH as [-> Hall]. split; [done|]. intros Hc. constructor; auto.
      * destruct IH as [Hc [done_ [v [rest [-> [-> [Hv Hdone]]]]]]].
        split; [done|]. exists (u :: done_), v, rest.
        repeat split; try done. by constructor.
    + destruct (_cancel_on_error self) eqn:Hc.
      * split; [done|]. exists [], u, urls. repeat split; try done.
      * destruct (purge_loop engine false urls) as [[|] purged].
        -- destruct IH as [-> _]. split; [done|]. discriminate.
        -- by destruct IH as [? _].
Qed.

Lemma execute_unfiltered_stops_at_failed_purge_witness :
  true = true
  ∧ ∃ done_ u rest,
      ["sqlite:///a.sqlite"; "sqlite:///b.sqlite"; "sqlite:///c.sqlite"]
      = done_ ++ u :: rest
      ∧ ["sqlite:///a.sqlite"; "sqlite:///b.sqlite"] = done_ ++ [u]
      ∧ purge_url sample_purge_engine u = false
      ∧ Forall (λ u, purge_url sample_purge_engine u = true) done_.
Proof.
  exact (execute_unfiltered_stops_at_failed_purge sample_purge_engine
           (purging_item true)
           [mkResource "database" "sqlite:///a.sqlite";
            mkResource "file" "file:///notes.txt";
            mkResource "database" "sqlite:///b.sqlite";
            mkResource "database" "sqlite:///c.sqlite"] eq_refl eq_refl).
Defined.

(** *** The run of [execute] *)

Lemma execute_without_merge (engine : Engine) (self : ExecutableItem)
    (forward_resources backward_resources : list ProjectItemResource) :
  super_execute engine = false
  ∨ databases forward_resources = [] ∨ databases backward_resources = [] →
  execute engine forward_resources backward_resources (initial self)
  = (Return (if super_execute engine then SUCCESS else FAILURE),
     mkWorld self [] [SuperExecute]).
Proof.
  intros H. unfold execute, databases in *. rewrite bind_run.
  cbn [emit initial item exit_stack trace app].
  destruct (super_execute engine); cbn [negb]; [|done].
  rewrite bool_decide_eq_true_2; [done|]. destruct H as [?|?]; [done|tauto].
Qed.

(** X17.  The trace of [execute] always has the same shape: the base class is
    called; contexts are entered; the subprocess is started and runs to
    its end, or nothing happens; and the contexts entered are exited in
    the reverse order.  So no database is released while the subprocess
    runs, and none is opened after it has started. *)
Theorem execute_trace_shape (engine : Engine) (self : ExecutableItem)
    (forward_resources backward_resources : list ProjectItemResource) :
  ∃ us mid,
    trace (execute engine forward_resources backward_resources (initial self)).2
    = SuperExecute :: (Entered <$> us) ++ mid ++ (Exited <$> rev us)
    ∧ (mid = [] ∨ ∃ p, mid = [Started p; Completed p (run_until_complete engine p)]).
Proof.
  destruct (decide (super_execute engine = false
                    ∨ databases forward_resources = []
                    ∨ databases backward_resources = [])) as [Hno|Hyes].
  - rewrite execute_without_merge by done. exists [], []. split; [done|by left].
  - assert (Hsuper : super_execute engine = true)
      by (destruct (super_execute engine); tauto).
    assert (Hfrom : databases forward_resources ≠ []) by tauto.
    assert (Hto : databases backward_resources ≠ []) by tauto.
    pose proof (execute_with_databases engine self _ _ Hsuper Hfrom Hto) as Hspec.
    destruct (mapM (open_resource engine) (databases forward_resources))
      as [fs|e].
    2:{ destruct Hspec as [us ->]. exists us, []. split; [done|by left]. }
    destruct (mapM (open_resource engine) (databases backward_resources))
      as [ts|e].
    2:{ destruct Hspec as [us ->]. exists (fs ++ us), []. split; [done|by left]. }
    cbv zeta in Hspec. rewrite Hspec. eexists (fs ++ ts), _.
    split; [reflexivity|]. right. eexists. reflexivity.
Qed.

Lemma execute_item_unchanged (engine : Engine) (self : ExecutableItem)
    (forward_resources backward_resources : list ProjectItemResource) :
  _process self = None →
  item (execute engine forward_resources backward_resources (initial self)).2
  = self.
Proof.
  intros Hnone.
  assert (Hself : without_process self = self) by (destruct self; simpl in *; by subst).
  destruct (decide (super_execute engine = false
                    ∨ databases forward_resources = []
                    ∨ databases backward_resources = [])) as [Hno|Hyes].
  - by rewrite execute_without_merge.
  - assert (Hsuper : super_execute engine = true)
      by (destruct (super_execute engine); tauto).
    assert (Hfrom : databases forward_resources ≠ []) by tauto.
    assert (Hto : databases backward_resources ≠ []) by tauto.
    pose proof (execute_with_databases engine self _ _ Hsuper Hfrom Hto) as Hspec.
    destruct (mapM (open_resource engine) (databases forward_resources))
      as [fs|e]; [|by destruct Hspec as [us ->]].
    destruct (mapM (open_resource engine) (databases backward_resources))
      as [ts|e]; [|by destruct Hspec as [us ->]].
    cbv zeta in Hspec. by rewrite Hspec.
Qed.

Lemma mapM_outcome_app {A B} (f : A → outcome B) (l1 l2 : list A) :
  mapM f (l1 ++ l2)
  = (k1 ← mapM f l1; k2 ← mapM f l2; Return (k1 ++ k2)).
Proof.
  induction l1 as [|x l1 IH]; simpl.
  - by destruct (mapM f l2).
  - destruct (f x) as [y|e]; simpl; [|done]. rewrite IH.
    destruct (mapM f l1) as [k1|e]; simpl; [|done].
    by destruct (mapM f l2).
Qed.

(** X18.  When a database resource cannot be opened, the forward ones being
    tried first, [execute] raises the exception of the first one that
    fails and starts no subprocess. *)
Theorem execute_open_failure (engine : Engine) (self : ExecutableItem)
    (forward_resources backward_resources : list ProjectItemResource)
    (e : exn) :
  super_execute engine = true →
  databases forward_resources ≠ [] → databases backward_resources ≠ [] →
  mapM (open_resource engine)
    (databases forward_resources ++ databases backward_resources) = Raise e →
  (execute engine forward_resources backward_resources (initial self)).1 = Raise e
  ∧ ∀ p, Started p
         ∉ trace (execute engine forward_resources backward_resources
                    (initial self)).2.
Proof.
  intros Hsuper Hfrom Hto Hopen. rewrite mapM_outcome_app in Hopen.
  pose proof (execute_with_databases engine self _ _ Hsuper Hfrom Hto) as Hspec.
  assert (Hnone : ∀ us p,
            Started p ∉ SuperExecute :: (Entered <$> us) ++ (Exited <$> rev us)).
  { intros us p. rewrite elem_of_cons, elem_of_app, !list_elem_of_fmap.
    intros [?|[[? [? ?]]|[? [? ?]]]]; discriminate. }
  destruct (mapM (open_resource engine) (databases forward_resources))
    as [fs|e1]; simpl in Hopen.
  2:{ injection Hopen as ->. destruct Hspec as [us ->]. split; [done|]. apply Hnone. }
  destruct (mapM (open_resource engine) (databases backward_resources))
    as [ts|e2]; simpl in Hopen; [discriminate|].
  injection Hopen as ->. destruct Hspec as [us ->]. split; [done|]. apply Hnone.
Qed.

Lemma execute_open_failure_witness :
  (execute failing_engine
     [mkResource "database" "sqlite:///source.sqlite"]
     [mkResource "database" "sqlite:///target.sqlite"]
     (initial sample_item)).1
  = Raise (RuntimeError "unable to open database")
  ∧ ∀ p, Started p
         ∉ trace (execute failing_engine
                    [mkResource "database" "sqlite:///source.sqlite"]
                    [mkResource "database" "sqlite:///target.sqlite"]
                    (initial sample_item)).2.
Proof.
  apply (execute_open_failure failing_engine sample_item
           [mkResource "database" "sqlite:///source.sqlite"]
           [mkResource "database" "sqlite:///target.sqlite"]);
    [reflexivity|discriminate|discriminate|reflexivity].
Defined.

(** *** Stopping *)

Lemma stop_execution_run (w : World) :
  stop_execution w
  = (Return (),
     mkWorld (without_process (item w)) (exit_stack w)
       (trace w ++ SuperStopExecution
          :: match _process (item w) with
             | Some p => [Terminated p]
             | None => []
             end)).
Proof.
  unfold stop_execution. rewrite bind_run. cbn [emit].
  rewrite bind_run. cbn [get_item item exit_stack trace].
  destruct (_process (item w)) as [p|] eqn:Hp.
  - rewrite bind_run. cbn [emit set_process item exit_stack trace].
    unfold without_process. by rewrite <- app_assoc.
  - cbn [mret M_ret]. unfold without_process. rewrite <- Hp.
    by destruct w as [[] ? ?].
Qed.

(** X19.  Stopping is idempotent on the process: whatever the item held, a
    second [stop_execution] right after the first terminates nothing,
    so no process is terminated twice. *)
Theorem stop_execution_twice (w : World) :
  ∃ w1 w2,
    stop_execution w = (Return (), w1)
    ∧ stop_execution w1 = (Return (), w2)
    ∧ trace w2 = trace w1 ++ [SuperStopExecution]
    ∧ item w2 = item w1.
Proof.
  eexists _, _. split; [apply stop_execution_run|].
  split; [apply stop_execution_run|]. cbn. done.
Qed.

(** X20.  Stopping an item whose [execute] has come to its end, by return or
    because a resource could not be opened, terminates nothing: the
    process reference is gone before [execute] hands back its result. *)
Theorem stop_after_execute (engine : Engine) (self : ExecutableItem)
    (forward_resources backward_resources : list ProjectItemResource) :
  _process self = None →
  let w := (execute engine forward_resources backward_resources (initial self)).2 in
  (stop_execution w).2 = mkWorld self (exit_stack w) (trace w ++ [SuperStopExecution]).
Proof.
  intros Hnone w. rewrite stop_execution_run. cbn [snd].
  assert (Hitem : item w = self) by (by apply execute_item_unchanged).
  rewrite Hitem, Hnone. f_equal. by destruct self; simpl in *; subst.
Qed.

Lemma stop_after_execute_witness :
  (stop_execution
     (execute sample_engine
        [mkResource "database" "sqlite:///source.sqlite"]
        [mkResource "database" "sqlite:///target.sqlite"]
        (initial sample_item)).2).2
  = mkWorld sample_item
      (exit_stack
         (execute sample_engine
            [mkResource "database" "sqlite:///source.sqlite"]
            [mkResource "database" "sqlite:///target.sqlite"]
            (initial sample_item)).2)
      (trace
         (execute sample_engine
            [mkResource "database" "sqlite:///source.sqlite"]
            [mkResource "database" "sqlite:///target.sqlite"]
            (initial sample_item)).2
       ++ [SuperStopExecution]).
Proof.
  exact (stop_after_execute sample_engine sample_item
           [mkResource "database" "sqlite:///source.sqlite"]
           [mkResource "database" "sqlite:///target.sqlite"] eq_refl).
Defined.

End MergerMore.

(** ** Tool specification editor: saving, program files and tool type *)

Section ToolEditorMore.
Import Py ToolEditor ToolEditorSpec EditorFilesSpec.

(** *** Saving *)

Lemma save_loop_content (host : Host) (docs : list (string * QTextDocument)) :
  ∀ st,
  content <$> visited (loop_state (save_loop host docs st))
  = (content <$> visited st) ++ (content <$> docs).
Proof.
  induction docs as [|[file_path doc] docs IH]; intros st.
  - simpl. by rewrite app_nil_r.
  - cbn [save_loop]. destruct (isModified doc); cbn [negb].
    + destruct (_save_program_file host file_path doc).
      * cbn [loop_state visited]. by rewrite fmap_app.
      * rewrite IH. cbn [visited]. rewrite fmap_app, <- app_assoc. done.
    + rewrite IH. cbn [visited]. rewrite fmap_app, <- app_assoc. done.
Qed.

Lemma save_documents (host : Host) (self : ToolSpecificationEditorWindow) :
  _programfile_documents (_save host self).2 = _programfile_documents self
  ∨ _programfile_documents (_save host self).2
    = visited (loop_state (save_loop host (_programfile_documents self)
                             (mkSaveLoop [] [] []))).
Proof.
  unfold _save. destruct (super_save host); cbn [negb]; [|by left]. right.
  destruct (save_loop _ _ _) as [st|st]; [done|]. by destruct (saved st).
Qed.

(** X21.  [_save] keeps the program file documents: whatever is written
    and whether or not a write fails, the editor holds afterwards the
    same file paths with the same texts, in the same order. *)
Theorem save_keeps_documents (host : Host)
    (self : ToolSpecificationEditorWindow) :
  content <$> _programfile_documents (_save host self).2
  = content <$> _programfile_documents self.
Proof.
  destruct (save_documents host self) as [->| ->]; [done|].
  by rewrite save_loop_content.
Qed.

Lemma save_loop_writes (host : Host) (docs : list (string * QTextDocument))
    (p t : string) :
  ∀ st,
  file_written p t ∈ shown (loop_state (save_loop host docs st)) →
  file_written p t ∈ shown st
  ∨ ∃ doc, (p, doc) ∈ docs ∧ isModified doc = true ∧ toPlainText doc = t
           ∧ write host p t = None.
Proof.
  induction docs as [|[file_path doc] docs IH]; intros st; [by left|].
  cbn [save_loop]. destruct (isModified doc) eqn:Hmod; cbn [negb].
  - unfold _save_program_file.
    destruct (write host file_path (toPlainText doc)) as [err|] eqn:Hwrite.
    + cbn [loop_state shown]. rewrite elem_of_app, list_elem_of_singleton.
      intros [H|H]; [by left|discriminate].
    + intros H. apply IH in H as [H|(doc' & Hin & ?)].
      * cbn [shown] in H. apply elem_of_app in H as [H|H]; [by left|].
        apply list_elem_of_singleton in H. injection H as -> ->.
        right. exists doc. repeat split; try done. apply elem_of_cons. by left.
      * right. exists doc'. split; [apply elem_of_cons; by right|done].
  - intros H. apply IH in H as [H|(doc' & Hin & ?)]; [by left|].
    right. exists doc'. split; [apply elem_of_cons; by right|done].
Qed.

(** X22.  [_save] writes modified documents only: a file that is written
    during the call belongs to a document of the editor that was
    modified, the text written is the text of that document, and the
    write succeeded. *)
Theorem save_writes_only_modified (host : Host)
    (self : ToolSpecificationEditorWindow) (p t : string) :
  file_written p t ∈ effects (_save host self).2 →
  file_written p t ∈ effects self
  ∨ ∃ doc, (p, doc) ∈ _programfile_documents self ∧ isModified doc = true
           ∧ toPlainText doc = t ∧ write host p t = None.
Proof.
  unfold _save. destruct (super_save host); cbn [negb snd]; [|by left].
  pose proof (save_loop_writes host (_programfile_documents self) p t
                (mkSaveLoop [] [] [])) as Hloop.
  destruct (save_loop _ _ _) as [st|st]; cbn [loop_state] in Hloop.
  - unfold with_documents. cbn [effects snd]. rewrite elem_of_app.
    intros [H|H]; [by left|]. apply Hloop in H as [H|H]; [|by right].
    by apply elem_of_nil in H.
  - assert (Hst : file_written p t ∈ effects (with_documents self (visited st) (shown st))
                  → file_written p t ∈ effects self
                    ∨ ∃ doc, (p, doc) ∈ _programfile_documents self
                             ∧ isModified doc = true ∧ toPlainText doc = t
                             ∧ write host p t = None).
    { unfold with_documents. cbn [effects snd]. rewrite elem_of_app.
      intros [H|H]; [by left|]. apply Hloop in H as [H|H]; [|by right].
      by apply elem_of_nil in H. }
    destruct (saved st); [done|].
    unfold with_documents in *. cbn [effects snd] in *. rewrite app_assoc, elem_of_app.
    intros [H|H]; [by apply Hst|].
    apply list_elem_of_singleton in H. discriminate.
Qed.

Lemma save_writes_only_modified_witness :
  file_written "/project/tool/main.py" "print(1)" ∈ effects sample_editor
  ∨ ∃ doc, ("/project/tool/main.py", doc) ∈ _programfile_documents sample_editor
           ∧ isModified doc = true ∧ toPlainText doc = "print(1)"
           ∧ write sample_host "/project/tool/main.py" "print(1)" = None.
Proof.
  apply (save_writes_only_modified sample_host sample_editor).
  vm_compute. apply elem_of_cons. by left.
Defined.

(** X23.  When the base class saved the specification and every modified
    document can be written, [_save] writes each modified document once,
    in the order of the documents, marks them unmodified and lists their
    base names in one status-bar message; without a modified document it
    shows nothing. *)
Theorem save_writes_all_modified (host : Host)
    (self : ToolSpecificationEditorWindow) :
  super_save host = true →
  all_writable host (_programfile_documents self) →
  _save host self
  = (true,
     with_documents self (mark_saved <$> _programfile_documents self)
       (writes (_programfile_documents self)
        ++ match filter (λ fd, isModified fd.2 = true)
                   (_programfile_documents self) with
           | [] => []
           | modified =>
               [_show_status_bar_msg
                  ("Program files "
                   +:+ String.concat ", " ((λ fd, basename fd.1) <$> modified)
                   +:+ " saved successfully")]
           end)).
Proof. apply save_all_written. Qed.

Lemma save_writes_all_modified_witness :
  _save sample_host writable_editor
  = (true,
     with_documents writable_editor
       (mark_saved <$> _programfile_documents writable_editor)
       (writes (_programfile_documents writable_editor)
        ++ match filter (λ fd, isModified fd.2 = true)
                   (_programfile_documents writable_editor) with
           | [] => []
           | modified =>
               [_show_status_bar_msg
                  ("Program files "
                   +:+ String.concat ", " ((λ fd, basename fd.1) <$> modified)
                   +:+ " saved successfully")]
           end)).
Proof.
  apply (save_writes_all_modified sample_host writable_editor).
  - reflexivity.
  - repeat constructor; discriminate.
Defined.

Lemma mark_saved_unmodified (docs : list (string * QTextDocument)) :
  filter (λ fd, isModified fd.2 = true) (mark_saved <$> docs) = [].
Proof.
  induction docs as [|[p [m t]] docs IH]; [done|].
  rewrite fmap_cons. unfold mark_saved at 1. cbn [fst snd isModified].
  destruct m; by rewrite filter_cons_False by (simpl; congruence).
Qed.

Lemma mark_saved_twice (docs : list (string * QTextDocument)) :
  mark_saved <$> (mark_saved <$> docs) = mark_saved <$> docs.
Proof.
  rewrite <- list_fmap_compose. apply list_fmap_ext. intros _ [p [[] t]] _; done.
Qed.

Lemma with_documents_same (self : ToolSpecificationEditorWindow) :
  with_documents self (_programfile_documents self) [] = self.
Proof. unfold with_documents. rewrite app_nil_r. by destruct self. Qed.

(** X24.  Saving again right after a save in which every write
    succeeded does nothing: no file is written, no message is shown and
    the editor stays as the first save left it. *)
Theorem save_twice (host : Host) (self : ToolSpecificationEditorWindow) :
  super_save host = true →
  all_writable host (_programfile_documents self) →
  _save host (_save host self).2 = (true, (_save host self).2).
Proof.
  intros Hsuper Hall. rewrite (save_all_written host self Hsuper Hall).
  cbn [snd]. set (self' := with_documents _ _ _).
  assert (Hdocs : _programfile_documents self'
                  = mark_saved <$> _programfile_documents self) by done.
  assert (Hnone : filter (λ fd, isModified fd.2 = true)
                    (_programfile_documents self') = [])
    by (rewrite Hdocs; apply mark_saved_unmodified).
  assert (Hsame : mark_saved <$> _programfile_documents self'
                  = _programfile_documents self')
    by (rewrite Hdocs; apply mark_saved_twice).
  rewrite (save_all_written host self' Hsuper).
  - unfold writes. rewrite Hnone, Hsame. cbn [fmap list_fmap app].
    by rewrite with_documents_same.
  - unfold all_writable. apply Forall_forall. intros fd Hfd Hmod.
    assert (Hin : fd ∈ filter (λ fd, isModified fd.2 = true)
                         (_programfile_documents self'))
      by (by apply list_elem_of_filter).
    rewrite Hnone in Hin. by apply elem_of_nil in Hin.
Qed.

Lemma save_twice_witness :
  _save sample_host (_save sample_host writable_editor).2
  = (true, (_save sample_host writable_editor).2).
Proof.
  apply (save_twice sample_host writable_editor).
  - reflexivity.
  - repeat constructor; discriminate.
Defined.

(** *** Program files *)

Lemma foldl_validate_file (host : Host) (main_path : option string)
    (old_program_files new_files : list string) :
  ∀ acc,
  foldl (validate_file host main_path old_program_files) acc new_files
  = mkValidation
      (valid_files acc
       ++ filter (λ f, (f ∉ old_program_files)
                       ∧ in_main_directory host main_path f) new_files)
      (dupes acc
       ++ (basename <$> filter (λ f, f ∈ old_program_files) new_files))
      (invalid acc
       ++ (basename <$> filter (λ f, (f ∉ old_program_files)
                                     ∧ ¬ in_main_directory host main_path f)
                          new_files)).
Proof.
  induction new_files as [|file new_files IH]; intros acc.
  - simpl. rewrite !app_nil_r. by destruct acc.
  - cbn [foldl]. rewrite IH. unfold validate_file.
    destruct (decide (file ∈ old_program_files)) as [Hin|Hin].
    + cbn [valid_files dupes invalid].
      rewrite (filter_cons_True (λ f, f ∈ old_program_files)) by done.
      rewrite !filter_cons_False by (intros [? _]; done).
      rewrite fmap_cons, <- app_assoc. done.
    + rewrite (filter_cons_False (λ f, f ∈ old_program_files)) by done.
      destruct main_path as [main_path|].
      * destruct (same_path host _ main_path) eqn:Hsame;
          cbn [valid_files dupes invalid].
        -- rewrite filter_cons_True by done.
           rewrite filter_cons_False by (intros [_ Hn]; by apply Hn).
           rewrite <- app_assoc. done.
        -- rewrite filter_cons_False
             by (intros [_ Hn]; simpl in Hn; congruence).
           rewrite filter_cons_True
             by (split; [done|]; simpl; congruence).
           rewrite fmap_cons, <- app_assoc. done.
      * cbn [valid_files dupes invalid].
        rewrite filter_cons_True by done.
        rewrite filter_cons_False by (intros [_ Hn]; by apply Hn).
        rewrite <- app_assoc. done.
Qed.

Lemma validate_spec (host : Host) (new_files old_program_files : list string)
    (self : ToolSpecificationEditorWindow) :
  let main_path := includes_main_path self in
  let '(valid, self') :=
    _validate_additional_program_files host new_files old_program_files self in
  valid = filter (λ f, (f ∉ old_program_files)
                       ∧ in_main_directory host main_path f) new_files
  ∧ self'
    = mkEditor (spec_dict self) (includes_main_path self) (lineEdit_args self)
        (comboBox_tooltype self) (_undo_stack self) (_programfile_documents self)
        (effects self
         ++ file_message
              (basename <$> filter (λ f, f ∈ old_program_files) new_files)
              "' already added"
         ++ file_message
              (basename <$> filter (λ f, (f ∉ old_program_files)
                                         ∧ ¬ in_main_directory host main_path f)
                                   new_files)
              "' not in main directory").
Proof.
  cbv zeta. unfold _validate_additional_program_files.
  rewrite foldl_validate_file. cbn [valid_files dupes invalid app].
  split; [done|]. unfold file_message.
  destruct (basename <$> filter (λ f, f ∈ old_program_files) new_files);
    destruct (basename <$> filter _ new_files);
    unfold add_effect; cbn [effects spec_dict includes_main_path lineEdit_args
                              _undo_stack _programfile_documents app];
    rewrite ?app_nil_r, <- ?app_assoc; by destruct self.
Qed.

(** X25.  [_validate_additional_program_files] returns the new files
    that are not program files already and, when the editor has a main
    path, pass the common-prefix test against it, in the order given.
    It changes nothing in the editor but shows up to two status-bar
    messages: first the base names of the files that were there already,
    then the base names of those that failed the test. *)
Theorem validate_additional_program_files_spec (host : Host)
    (new_files old_program_files : list string)
    (self : ToolSpecificationEditorWindow) :
  let main_path := includes_main_path self in
  let '(valid, self') :=
    _validate_additional_program_files host new_files old_program_files self in
  valid = filter (λ f, (f ∉ old_program_files)
                       ∧ in_main_directory host main_path f) new_files
  ∧ self'
    = mkEditor (spec_dict self) (includes_main_path self) (lineEdit_args self)
        (comboBox_tooltype self) (_undo_stack self) (_programfile_documents self)
        (effects self
         ++ file_message
              (basename <$> filter (λ f, f ∈ old_program_files) new_files)
              "' already added"
         ++ file_message
              (basename <$> filter (λ f, (f ∉ old_program_files)
                                         ∧ ¬ in_main_directory host main_path f)
                                   new_files)
              "' not in main directory").
Proof. apply validate_spec. Qed.

Lemma filter_all {A} (P : A → Prop) `{!∀ x, Decision (P x)} (l : list A) :
  Forall P l → filter P l = l.
Proof.
  induction 1 as [|x l Hx _ IH]; [done|].
  by rewrite filter_cons_True, IH.
Qed.

Lemma filter_none {A} (P : A → Prop) `{!∀ x, Decision (P x)} (l : list A) :
  Forall (λ x, ¬ P x) l → filter P l = [].
Proof.
  induction 1 as [|x l Hx _ IH]; [done|].
  by rewrite filter_cons_False.
Qed.

(** X26.  Adding only files that are program files already pushes no
    command: the specification and the undo stack stay as they are, and
    one status-bar message lists the base names of the files. *)
Theorem add_program_files_only_duplicates (host : Host)
    (new_files : list string) (self : ToolSpecificationEditorWindow) :
  new_files ≠ [] →
  Forall (λ f, f ∈ program_files self) new_files →
  add_program_files host new_files self
  = add_effect self
      (_show_status_bar_msg
         ("Program file(s) '" +:+ String.concat ", " (basename <$> new_files)
          +:+ "' already added")).
Proof.
  intros Hnew Hall. unfold add_program_files.
  pose proof (validate_spec host new_files (program_files self) self) as Hv.
  cbv zeta in Hv. destruct (_validate_additional_program_files _ _ _ _) as [valid self'].
  destruct Hv as [-> ->].
  rewrite (filter_all (λ f, f ∈ program_files self)) by done.
  rewrite !filter_none
    by (eapply Forall_impl; [exact Hall|]; intros f Hf [Hn _]; by apply Hn).
  by destruct new_files.
Qed.

Lemma add_program_files_only_duplicates_witness :
  add_program_files sample_host ["/x/tool/util.py"] python_editor
  = add_effect python_editor
      (_show_status_bar_msg
         ("Program file(s) '"
          +:+ String.concat ", " (basename <$> ["/x/tool/util.py"])
          +:+ "' already added")).
Proof.
  apply (add_program_files_only_duplicates sample_host).
  - discriminate.
  - repeat constructor.
Defined.

Lemma commonprefix_prefix (a b : string) :
  String.prefix a b = true → commonprefix a b = a.
Proof.
  revert b. induction a as [|x a IH]; intros [|y b]; simpl; try done.
  destruct (ascii_dec x y) as [->|]; [|done]. intros H.
  rewrite decide_True by done. by rewrite IH.
Qed.

(** X27.  The test against the main path compares characters, not path
    components: a new file is accepted as soon as the absolute main path
    is a prefix, as a string, of the file's absolute path, so also a file
    of a sibling directory whose name continues the name of the main
    directory. *)
Theorem validate_accepts_string_prefix (host : Host) (file main_path : string)
    (old_program_files : list string) (self : ToolSpecificationEditorWindow) :
  includes_main_path self = Some main_path →
  same_path host (abspath host main_path) main_path = true →
  startswith (abspath host file) (abspath host main_path) = true →
  file ∉ old_program_files →
  _validate_additional_program_files host [file] old_program_files self
  = ([file], self).
Proof.
  intros Hmain Hsame Hprefix Hnew.
  unfold _validate_additional_program_files. cbn [foldl]. unfold validate_file.
  rewrite decide_False by done. rewrite Hmain.
  rewrite commonprefix_prefix by done. rewrite Hsame. reflexivity.
Qed.

Lemma validate_accepts_string_prefix_witness :
  _validate_additional_program_files sample_host ["/x/tool2/other.py"]
    (program_files python_editor) python_editor
  = (["/x/tool2/other.py"], python_editor).
Proof.
  apply (validate_accepts_string_prefix sample_host "/x/tool2/other.py" "/x/tool").
  - reflexivity.
  - reflexivity.
  - reflexivity.
  - vm_compute. intros H.
    apply elem_of_cons in H as [H|H]; [discriminate|].
    apply elem_of_cons in H as [H|H]; [discriminate|].
    by apply elem_of_nil in H.
Defined.

(** X28.  Undoing a change of the tool type sets the execution settings
    to the defaults of the old type, whatever they were before the
    change (the application settings for Python, empty command and shell
    for an executable, none otherwise), and leaves the other entries of
    the specification as they were.  It brings the old type back when
    that type is one of the tool types.  When it is not (an editor
    opened without a specification has no type), the combo box loses its
    selection, its signal runs the slot with index [-1], and the editor
    ends with the last of the tool types as its type. *)
Theorem tooltype_undo_resets_execution_settings (host : Host) (index : Z)
    (t : string) (self self' : ToolSpecificationEditorWindow) :
  Py.index (TOOL_TYPES host) index = Return t →
  lower t ≠ default "" (tooltype (spec_dict self)) →
  _push_change_tooltype_command host index self = Return self' →
  let old_type := default "" (tooltype (spec_dict self)) in
  let undone := undo_stack_undo host self' in
  tooltype (spec_dict undone)
  = Some (if decide (listed host old_type) then old_type
          else lower (default "" (last (TOOL_TYPES host))))
  ∧ execution_settings (spec_dict undone)
    = (if decide (old_type = "python") then
         Some (PythonSettings (usePythonKernel host) (pythonKernel host) ""
                 (pythonPath host))
       else if decide (old_type = "executable") then
         Some (ExecutableSettings "" "")
       else None)
  ∧ cmdline_args (spec_dict undone) = cmdline_args (spec_dict self)
  ∧ includes (spec_dict undone) = includes (spec_dict self)
  ∧ inputfiles (spec_dict undone) = inputfiles (spec_dict self)
  ∧ inputfiles_opt (spec_dict undone) = inputfiles_opt (spec_dict self)
  ∧ outputfiles (spec_dict undone) = outputfiles (spec_dict self).
Proof.
  intros Ht Hne. unfold _push_change_tooltype_command. rewrite Ht.
  cbn [mbind outcome_bind]. rewrite decide_False by done.
  intros [= <-]. cbv zeta.
  assert (Hin : t ∈ TOOL_TYPES host) by (by eapply index_elem_of).
  assert (Hlisted : listed host (lower t)).
  { apply list_elem_of_fmap. by exists t. }
  rewrite undo_push by done. unfold undo, redo.
  cbn [callback new_value old_value call].
  rewrite (set_tooltype_listed host (lower t)) by done.
  destruct (decide (listed host _)) as [Hold|Hold].
  - rewrite set_tooltype_listed by done. done.
  - rewrite set_tooltype_unlisted by done.
    destruct (tooltype_index_listed host (lower t) Hlisted)
      as (k & t' & Hindex & _).
    change (comboBox_tooltype (with_undo_stack (settled host (lower t) self) _))
      with (tooltype_index host (lower t)).
    rewrite Hindex, decide_False by lia.
    destruct (last (TOOL_TYPES host)) as [tl|] eqn:Hlast.
    + done.
    + apply last_None in Hlast. rewrite Hlast in Hin.
      by apply elem_of_nil in Hin.
Qed.

Lemma tooltype_undo_resets_execution_settings_witness :
  ∃ self',
    _push_change_tooltype_command sample_host 1 new_editor = Return self'
    ∧ tooltype (spec_dict new_editor) = None
    ∧ tooltype (spec_dict self') = Some "python"
    ∧ tooltype (spec_dict (undo_stack_undo sample_host self'))
      = Some "executable"
    ∧ execution_settings (spec_dict (undo_stack_undo sample_host self')) = None.
Proof.
  eexists. split; [reflexivity|].
  pose proof (tooltype_undo_resets_execution_settings sample_host 1 "Python"
                new_editor _ eq_refl ltac:(discriminate) eq_refl) as H.
  cbv zeta in H. destruct H as (Htype & Hsettings & _).
  split; [reflexivity|]. split; [reflexivity|].
  split; [exact Htype|exact Hsettings].
Defined.

(** When the old type is one of the tool types the undo brings it back,
    with the default settings in the place of those the editor had. *)
Example tooltype_undo_listed :
  ∃ self',
    _push_change_tooltype_command sample_host 0 python_editor = Return self'
    ∧ tooltype (spec_dict self') = Some "julia"
    ∧ tooltype (spec_dict (undo_stack_undo sample_host self')) = Some "python"
    ∧ execution_settings (spec_dict python_editor)
      = Some (PythonSettings true "my-kernel" "" "/usr/bin/python3")
    ∧ execution_settings (spec_dict (undo_stack_undo sample_host self'))
      = Some (PythonSettings false "" "" "").
Proof. eexists. repeat split; reflexivity. Qed.

Lemma index_wraps {A} (l : list A) (k : Z) :
  let n := Z.of_nat (length l) in
  if bool_decide (- n ≤ k < n)%Z
  then ∃ x, l !! Z.to_nat (k mod n) = Some x ∧ Py.index l k = Return x
  else Py.index l k = Raise IndexError.
Proof.
  intros n. unfold Py.index. fold n.
  destruct (bool_decide_reflect (- n ≤ k < n)%Z) as [Hk|Hk].
  - destruct (bool_decide_reflect (k < 0)%Z) as [Hneg|Hpos].
    + rewrite bool_decide_eq_true_2 by lia.
      replace (k mod n)%Z with (k + n)%Z
        by (apply Z.mod_unique with (-1)%Z; lia).
      destruct (lookup_lt_is_Some_2 l (Z.to_nat (k + n))) as [x Hx]; [lia|].
      exists x. by rewrite Hx.
    + rewrite bool_decide_eq_true_2 by lia.
      rewrite Z.mod_small by lia.
      destruct (lookup_lt_is_Some_2 l (Z.to_nat k)) as [x Hx]; [lia|].
      exists x. by rewrite Hx.
  - destruct (bool_decide_reflect (k < 0)%Z) as [Hneg|Hpos].
    + by rewrite bool_decide_eq_false_2 by lia.
    + by rewrite bool_decide_eq_false_2 by lia.
Qed.

(** X29.  The slot of the tool type combo box indexes [TOOL_TYPES] as
    Python does.  An index from [-n] to [n - 1], for [n] tool types,
    selects the type at that index modulo [n], so the index [-1] selects
    the last type; any other index raises [IndexError] and pushes
    nothing. *)
Theorem push_change_tooltype_index (host : Host) (index : Z)
    (self : ToolSpecificationEditorWindow) :
  let n := Z.of_nat (length (TOOL_TYPES host)) in
  if bool_decide (- n ≤ index < n)%Z
  then ∃ t self',
         TOOL_TYPES host !! Z.to_nat (index mod n) = Some t
         ∧ _push_change_tooltype_command host index self = Return self'
         ∧ (lower t = default "" (tooltype (spec_dict self)) ∧ self' = self
            ∨ lower t ≠ default "" (tooltype (spec_dict self))
              ∧ tooltype (spec_dict self') = Some (lower t))
  else _push_change_tooltype_command host index self = Raise IndexError.
Proof.
  intros n. pose proof (index_wraps (TOOL_TYPES host) index) as H.
  cbv zeta in H. fold n in H. unfold _push_change_tooltype_command.
  destruct (bool_decide (- n ≤ index < n)%Z).
  - destruct H as (t & Ht & ->). cbn [mbind outcome_bind].
    exists t. destruct (decide (lower t = _)) as [Heq|Hne].
    + exists self. repeat split; [done|]. by left.
    + eexists. split; [done|]. split; [reflexivity|]. right. split; [done|].
      unfold push, redo. cbn [callback new_value call].
      rewrite set_tooltype_listed; [done|].
      apply list_elem_of_fmap. exists t. split; [done|].
      by eapply list_elem_of_lookup_2.
  - by rewrite H.
Qed.

End ToolEditorMore.

(** ** Tool specification editor: path components *)

Section ProgramFileTreeProperties.
Import Py ProgramFileTree.

Lemma startswith_slash (a : ascii) (s : string) :
  startswith (String a s) "/" = true ↔ a = "/"%char.
Proof.
  unfold startswith.
  change (String.prefix "/" (String a s))
    with (if ascii_dec "/" a then String.prefix "" s else false).
  destruct (ascii_dec "/" a) as [<-|Hne].
  - by destruct s.
  - split; [discriminate|]. intros ->. done.
Qed.

Lemma rfind_lt (c : ascii) (s : string) (i : nat) :
  rfind c s = Some i → (i < String.length s)%nat.
Proof.
  revert i. induction s as [|a s IH]; intros i; simpl; [discriminate|].
  destruct (rfind c s) as [j|].
  - intros [= <-]. specialize (IH j eq_refl). lia.
  - destruct (decide (a = c)); [|discriminate]. intros [= <-]. lia.
Qed.

Lemma substring_0_0 (s : string) : String.substring 0 0 s = "".
Proof. by destruct s. Qed.

Lemma rfind_head (c : ascii) (s : string) (i : nat) :
  rfind c s = Some i →
  String.substring 0 (S i) s = String.substring 0 i s +:+ String c "".
Proof.
  revert i. induction s as [|a s IH]; intros i; [discriminate|].
  cbn [rfind]. destruct (rfind c s) as [j|].
  - intros [= <-]. specialize (IH j eq_refl).
    change (String.substring 0 (S (S j)) (String a s))
      with (String a (String.substring 0 (S j) s)).
    change (String.substring 0 (S j) (String a s))
      with (String a (String.substring 0 j s)).
    by rewrite IH.
  - destruct (decide (a = c)) as [->|]; [|discriminate]. intros [= <-].
    simpl. by rewrite substring_0_0.
Qed.

Lemma rstrip_slash_snoc (s : string) :
  rstrip_slash (s +:+ "/") = rstrip_slash s.
Proof.
  induction s as [|a s IH]; [done|].
  change (String a s +:+ "/") with (String a (s +:+ "/")).
  cbn [rstrip_slash]. by rewrite IH.
Qed.

Lemma rstrip_slash_length (s : string) :
  (String.length (rstrip_slash s) ≤ String.length s)%nat.
Proof.
  induction s as [|a s IH]; [done|]. cbn [rstrip_slash].
  destruct (rstrip_slash s) as [|b t].
  - destruct (decide (a = "/"%char)); simpl; lia.
  - simpl in *. lia.
Qed.

Lemma rstrip_slash_head (a : ascii) (s : string) :
  rstrip_slash (String a s) = "" ∧ a = "/"%char
  ∨ ∃ t, rstrip_slash (String a s) = String a t.
Proof.
  cbn [rstrip_slash]. destruct (rstrip_slash s) as [|b t].
  - destruct (decide (a = "/"%char)); [by left|right; eauto].
  - right. eauto.
Qed.

Lemma substring_0_length (n : nat) (s : string) :
  (String.length (String.substring 0 n s) ≤ n)%nat.
Proof.
  revert s. induction n as [|n IH]; intros [|a s]; simpl; try lia.
  specialize (IH s). lia.
Qed.

(** The head of a relative path is a shorter relative path. *)
Lemma dirname_relative (p : string) :
  p ≠ "" → startswith p "/" = false →
  startswith (dirname p) "/" = false
  ∧ (String.length (dirname p) < String.length p)%nat.
Proof.
  intros Hp Hrel. unfold dirname.
  destruct (rfind "/" p) as [i|] eqn:Hi.
  2:{ split; [done|]. destruct p; [done|simpl; lia]. }
  pose proof (rfind_lt _ _ _ Hi) as Hlt.
  pose proof (rfind_head _ _ _ Hi) as Hhead.
  destruct p as [|a p]; [done|].
  assert (Ha : a ≠ "/"%char).
  { intros Ha. apply (proj2 (startswith_slash a p)) in Ha. congruence. }
  assert (Hstrip : rstrip_slash (String.substring 0 (S i) (String a p))
                   = rstrip_slash (String.substring 0 i (String a p)))
    by (by rewrite Hhead, rstrip_slash_snoc).
  change (String.substring 0 (S i) (String a p))
    with (String a (String.substring 0 i p)) in *.
  destruct (rstrip_slash_head a (String.substring 0 i p)) as [[_ ?]|[t Ht]];
    [done|].
  rewrite Ht. split.
  - destruct (startswith (String a t) "/") eqn:Hs; [|done].
    by apply startswith_slash in Hs.
  - rewrite <- Ht, Hstrip.
    pose proof (rstrip_slash_length (String.substring 0 i (String a p))).
    pose proof (substring_0_length i (String a p)). lia.
Qed.

(** The head of an absolute path is an absolute path. *)
Lemma dirname_absolute (p : string) :
  startswith p "/" = true → startswith (dirname p) "/" = true.
Proof.
  intros Habs. destruct p as [|a p]; [done|].
  apply startswith_slash in Habs as ->. unfold dirname.
  destruct (rfind "/" (String "/" p)) as [i|] eqn:Hi.
  2:{ cbn [rfind] in Hi. destruct (rfind "/" p); [done|].
      by rewrite decide_True in Hi. }
  change (String.substring 0 (S i) (String "/" p))
    with (String "/" (String.substring 0 i p)).
  destruct (rstrip_slash_head "/" (String.substring 0 i p)) as [[-> _]|[t ->]];
    by apply startswith_slash.
Qed.

Lemma path_components_absolute (fuel : nat) :
  ∀ path, startswith path "/" = true → _path_components fuel path = None.
Proof.
  induction fuel as [|fuel IH]; intros path Habs; [done|].
  cbn [_path_components]. destruct path as [|a path]; [done|].
  cbn [truthy_str]. unfold split.
  by rewrite IH by (by apply dirname_absolute).
Qed.

Lemma path_components_relative (fuel : nat) :
  ∀ path, startswith path "/" = false →
  (String.length path < fuel)%nat →
  ∃ components,
    _path_components fuel path = Some components
    ∧ (length components ≤ String.length path)%nat.
Proof.
  induction fuel as [|fuel IH]; intros path Hrel Hfuel; [lia|].
  cbn [_path_components]. destruct path as [|a path].
  { exists []. done. }
  cbn [truthy_str]. unfold split.
  destruct (dirname_relative (String a path)) as [Hrel' Hlen]; [done|done|].
  destruct (IH (dirname (String a path)) Hrel') as (cs & -> & Hcs); [lia|].
  eexists. split; [reflexivity|]. simpl in *. lia.
Qed.

Lemma path_components_more_fuel (fuel : nat) :
  ∀ path components fuel',
  _path_components fuel path = Some components →
  (fuel ≤ fuel')%nat →
  _path_components fuel' path = Some components.
Proof.
  induction fuel as [|fuel IH]; intros path cs fuel' H Hle; [done|].
  destruct fuel' as [|fuel']; [lia|].
  cbn [_path_components] in *. destruct (truthy_str path); [|done].
  unfold split in *.
  destruct (_path_components fuel (dirname path)) as [cs'|] eqn:Hcs;
    [|discriminate].
  by rewrite (IH _ _ fuel' Hcs) by lia.
Qed.

(** X30.  The loop of [_path_components] comes to an end for relative paths
    and for no others: the head of a path that starts with a slash never
    becomes empty, since [os.path.split] maps the root directory to
    itself, while a path that does not start with a slash is used up
    after at most as many components as it has characters. *)
Theorem path_components_terminates_iff (path : string) :
  ((∃ fuel components, _path_components fuel path = Some components)
   ↔ startswith path "/" = false)
  ∧ ∀ fuel components,
      _path_components fuel path = Some components →
      (length components ≤ String.length path)%nat
      ∧ _path_components (S (String.length path)) path = Some components.
Proof.
  split; [split|].
  - intros (fuel & cs & H). destruct (startswith path "/") eqn:Habs; [|done].
    by rewrite path_components_absolute in H.
  - intros Hrel.
    destruct (path_components_relative (S (String.length path)) path Hrel)
      as (cs & H & _); [lia|]. eauto.
  - intros fuel cs H.
    assert (Hrel : startswith path "/" = false).
    { destruct (startswith path "/") eqn:Habs; [|done].
      by rewrite path_components_absolute in H. }
    destruct (path_components_relative (S (String.length path)) path Hrel)
      as (cs' & H' & Hlen); [lia|].
    assert (cs' = cs) as ->; [|done].
    destruct (decide (fuel ≤ S (String.length path))%nat) as [Hle|Hgt].
    + rewrite (path_components_more_fuel _ _ _ _ H Hle) in H'. congruence.
    + rewrite (path_components_more_fuel _ _ _ fuel H') in H by lia. congruence.
Qed.

(** For a relative path the components come last first. *)
Example path_components_relative_example :
  _path_components 17 "src/tool/main.py" = Some ["main.py"; "tool"; "src"].
Proof. reflexivity. Qed.

End ProgramFileTreeProperties.
